(** * A shallow embedding of [bot.py]

    The bot mirrors a video channel's statistics, upload feed and live
    status into the names of voice channels of a chat guild.  This
    development embeds the reconciliation logic of [bot.py] and proves
    what it does: the channel-id store, the statistics change detector,
    the feed parser and entry cache, the reminder queue and the live-state
    classifier.

    Conventions of the embedding.
    - Python [dict]s are [gmap]s, [Optional[T]] is [option T], [int] is [Z].
    - Text is [string] (a byte sequence); case folding and digit tests are
      the ASCII ones.
    - Module globals, the guild, the local files and the log of external
      calls live in one state record [St], threaded by the state monad [M].
    - A call of the chat API ends in one of the outcomes the code handles:
      success, [discord.Forbidden] or another [discord.HTTPException]; the
      outcome of each call is read from a tape in the state.
    - Randomness ([random.randint], [random.shuffle], [random.choice]) is
      read from a tape of naturals in the state.
    - Writing a local file succeeds; the colour and the timestamp of an embed
      and the log lines are left out.
    - A periodic task is one run of its body; the scheduler that repeats it
      and [bot.wait_until_ready] are outside the model. *)

From Stdlib Require Import ZArith String Ascii List Lia Permutation.
From Stdlib Require Import DecimalString.
From stdpp Require Import base gmap list strings.

Set Warnings "-register-all".
Local Open Scope Z_scope.
Local Open Scope string_scope.

(** * Python values and text *)

Module Py.

(** The values a decoded JSON document or a feed entry can hold. *)
Inductive pyval :=
| VNone
| VBool (b : bool)
| VInt (z : Z)
| VStr (s : string)
| VList (l : list pyval)
| VDict (d : gmap string pyval).

(** Truth value of [if v:]. *)
Definition truthy (v : pyval) : bool :=
  match v with
  | VNone => false
  | VBool b => b
  | VInt z => negb (Z.eqb z 0)
  | VStr s => negb (String.eqb s "")
  | VList l => match l with [] => false | _ => true end
  | VDict d => negb (bool_decide (d = ∅))
  end.

(** [a or b] on values. *)
Definition por (a b : pyval) : pyval := if truthy a then a else b.

(** [d.get(k)]: a missing key reads as [None]. *)
Definition dict_get (d : gmap string pyval) (k : string) : pyval :=
  default VNone (d !! k).

(** [needle in hay] on text. *)
Fixpoint contains (needle hay : string) : bool :=
  String.prefix needle hay ||
  match hay with
  | EmptyString => false
  | String _ rest => contains needle rest
  end.

Definition is_digit (c : ascii) : bool :=
  (48 <=? nat_of_ascii c)%nat && (nat_of_ascii c <=? 57)%nat.

(** [s.isdigit()]: non-empty and made of digits. *)
Definition isdigit (s : string) : bool :=
  negb (String.eqb s "") && forallb is_digit (list_ascii_of_string s).

(** [int(s)] for a string of digits. *)
Definition int_of_digits (s : string) : Z :=
  fold_left (fun acc c => 10 * acc + (Z.of_nat (nat_of_ascii c) - 48))
            (list_ascii_of_string s) 0.

(** Thousands separators, on the digits listed from the least significant. *)
Fixpoint commas_rev (ds : list ascii) : list ascii :=
  match ds with
  | a :: b :: c :: ((_ :: _) as rest) =>
      a :: b :: c :: ","%char :: commas_rev rest
  | _ => ds
  end.

(** [f"{n:,}"]. *)
Definition fmt_num (n : Z) : string :=
  let digits := list_ascii_of_string (NilZero.string_of_uint (N.to_uint (Z.abs_N n))) in
  let body := string_of_list_ascii (rev (commas_rev (rev digits))) in
  if Z.ltb n 0 then "-" +:+ body else body.

End Py.
Export Py.

(** * Program state and the external world *)

(** Outcome of one call of the chat API. *)
Inductive api_outcome := ApiOk | ApiForbidden | ApiHTTPException.

(** Outcome of [requests.get(url, ...)] followed by [raise_for_status()]. *)
Inductive http_result :=
| ConnectionError            (* a [requests.RequestException] other than [HTTPError] *)
| HTTPError                  (* [raise_for_status] raised *)
| Body (text : string).

Inductive chan_kind := VoiceChannel | TextChannel | CategoryChannel | OtherChannel.

(** A guild channel with the permission overwrites of the default role. *)
Record channel := mkChannel {
  ch_id : Z;
  ch_kind : chan_kind;
  ch_name : string;
  ch_category_id : option Z;
  ow_view_channel : option bool;
  ow_connect : option bool;
}.

(** [discord.Embed] as the bot fills it. *)
Record Embed := mkEmbed {
  e_title : pyval;
  e_description : string;
  e_url : pyval;
  e_author_name : string;
  e_author_url : string;
  e_author_icon : option string;
  e_image : option string;
  e_thumbnail : pyval;
}.

(** External calls, in the order they are issued. *)
Inductive event :=
| EvEdit (id : Z) (name : string)                       (* [ch.edit(name=...)] *)
| EvSetPermissions (id : Z)                             (* [vc.set_permissions(...)] *)
| EvCreateCategory (name : string)
| EvCreateVoice (name : string) (category : option Z)
| EvSend (chan : Z) (content : option string) (embed : Embed) (button_url : option pyval)
| EvHttpGet (url : string)
| EvWriteFile (path : string).

(** A local JSON file. *)
Inductive file :=
| Missing                                  (* [os.path.exists] is false *)
| Unreadable                               (* [open] or [json.load] raises *)
| JsonObject (d : gmap string pyval)       (* a JSON object *)
| JsonOther (v : pyval).                   (* any other JSON document *)

(** The six voice channel ids. *)
Record VcIds := mkVcIds {
  VC_SUBS_ID : option Z;
  VC_VIEWS_ID : option Z;
  VC_VIDEOS_ID : option Z;
  VC_GOAL_ID : option Z;
  VC_MEMBERS_ID : option Z;
  VC_LIVE_ID : option Z;
}.

Record ChannelMeta := mkMeta {
  meta_title : option string;
  meta_avatar_url : option string;
  meta_banner_url : option string;
  meta_channel_url : option string;
}.

(** Environment variables read at start-up. *)
Record Config := mkConfig {
  GUILD_ID : Z;
  YOUTUBE_API_KEY : option string;
  YOUTUBE_CHANNEL_ID : option string;
  VOICE_CATEGORY_NAME : string;
  SUBS_GOAL : Z;
  LIVE_ALERT_CHANNEL_ID : Z;
  REMINDER_CHANNEL_ID : Z;
  RSS_CACHE_PATH : string;
  CHANNEL_ID_STORE : string;
}.

Record St := mkSt {
  (* module globals *)
  vc : VcIds;
  _last_stats : option (Z * Z * Z);
  _last_members : option Z;
  _last_live_state : option string;
  reminder_queue : list (gmap string pyval);
  _channel_meta : ChannelMeta;
  _id_cache : gmap string (option Z);
  _ready_once : bool;
  (* the guild; [bot.get_guild] answers [None] while [guild_known] is false *)
  guild_known : bool;
  channels : list channel;
  member_count : Z;
  next_channel_id : Z;
  (* the network and the tapes of outcomes and random draws *)
  web : string -> http_result;
  api_tape : list api_outcome;
  rng : list nat;
  (* local files *)
  id_store_file : file;
  rss_cache_file : file;
  debug_live_html : option string;
  (* external calls so far, oldest first *)
  trace : list event;
}.

Definition set_vc (v : VcIds) (s : St) : St :=
  mkSt v (_last_stats s) (_last_members s) (_last_live_state s) (reminder_queue s)
       (_channel_meta s) (_id_cache s) (_ready_once s) (guild_known s) (channels s)
       (member_count s) (next_channel_id s) (web s) (api_tape s) (rng s)
       (id_store_file s) (rss_cache_file s) (debug_live_html s) (trace s).

Definition set_last_stats (v : option (Z * Z * Z)) (s : St) : St :=
  mkSt (vc s) v (_last_members s) (_last_live_state s) (reminder_queue s)
       (_channel_meta s) (_id_cache s) (_ready_once s) (guild_known s) (channels s)
       (member_count s) (next_channel_id s) (web s) (api_tape s) (rng s)
       (id_store_file s) (rss_cache_file s) (debug_live_html s) (trace s).

Definition set_last_members (v : option Z) (s : St) : St :=
  mkSt (vc s) (_last_stats s) v (_last_live_state s) (reminder_queue s)
       (_channel_meta s) (_id_cache s) (_ready_once s) (guild_known s) (channels s)
       (member_count s) (next_channel_id s) (web s) (api_tape s) (rng s)
       (id_store_file s) (rss_cache_file s) (debug_live_html s) (trace s).

Definition set_last_live_state (v : option string) (s : St) : St :=
  mkSt (vc s) (_last_stats s) (_last_members s) v (reminder_queue s) (_channel_meta s)
       (_id_cache s) (_ready_once s) (guild_known s) (channels s) (member_count s)
       (next_channel_id s) (web s) (api_tape s) (rng s) (id_store_file s)
       (rss_cache_file s) (debug_live_html s) (trace s).

Definition set_reminder_queue (v : list (gmap string pyval)) (s : St) : St :=
  mkSt (vc s) (_last_stats s) (_last_members s) (_last_live_state s) v (_channel_meta s)
       (_id_cache s) (_ready_once s) (guild_known s) (channels s) (member_count s)
       (next_channel_id s) (web s) (api_tape s) (rng s) (id_store_file s)
       (rss_cache_file s) (debug_live_html s) (trace s).

Definition set_channel_meta (v : ChannelMeta) (s : St) : St :=
  mkSt (vc s) (_last_stats s) (_last_members s) (_last_live_state s) (reminder_queue s)
       v (_id_cache s) (_ready_once s) (guild_known s) (channels s) (member_count s)
       (next_channel_id s) (web s) (api_tape s) (rng s) (id_store_file s)
       (rss_cache_file s) (debug_live_html s) (trace s).

Definition set_id_cache (v : gmap string (option Z)) (s : St) : St :=
  mkSt (vc s) (_last_stats s) (_last_members s) (_last_live_state s) (reminder_queue s)
       (_channel_meta s) v (_ready_once s) (guild_known s) (channels s) (member_count s)
       (next_channel_id s) (web s) (api_tape s) (rng s) (id_store_file s)
       (rss_cache_file s) (debug_live_html s) (trace s).

Definition set_ready_once (v : bool) (s : St) : St :=
  mkSt (vc s) (_last_stats s) (_last_members s) (_last_live_state s) (reminder_queue s)
       (_channel_meta s) (_id_cache s) v (guild_known s) (channels s) (member_count s)
       (next_channel_id s) (web s) (api_tape s) (rng s) (id_store_file s)
       (rss_cache_file s) (debug_live_html s) (trace s).

Definition set_channels (v : list channel) (s : St) : St :=
  mkSt (vc s) (_last_stats s) (_last_members s) (_last_live_state s) (reminder_queue s)
       (_channel_meta s) (_id_cache s) (_ready_once s) (guild_known s) v
       (member_count s) (next_channel_id s) (web s) (api_tape s) (rng s)
       (id_store_file s) (rss_cache_file s) (debug_live_html s) (trace s).

Definition set_next_channel_id (v : Z) (s : St) : St :=
  mkSt (vc s) (_last_stats s) (_last_members s) (_last_live_state s) (reminder_queue s)
       (_channel_meta s) (_id_cache s) (_ready_once s) (guild_known s) (channels s)
       (member_count s) v (web s) (api_tape s) (rng s) (id_store_file s)
       (rss_cache_file s) (debug_live_html s) (trace s).

Definition set_api_tape (v : list api_outcome) (s : St) : St :=
  mkSt (vc s) (_last_stats s) (_last_members s) (_last_live_state s) (reminder_queue s)
       (_channel_meta s) (_id_cache s) (_ready_once s) (guild_known s) (channels s)
       (member_count s) (next_channel_id s) (web s) v (rng s) (id_store_file s)
       (rss_cache_file s) (debug_live_html s) (trace s).

Definition set_rng (v : list nat) (s : St) : St :=
  mkSt (vc s) (_last_stats s) (_last_members s) (_last_live_state s) (reminder_queue s)
       (_channel_meta s) (_id_cache s) (_ready_once s) (guild_known s) (channels s)
       (member_count s) (next_channel_id s) (web s) (api_tape s) v (id_store_file s)
       (rss_cache_file s) (debug_live_html s) (trace s).

Definition set_id_store_file (v : file) (s : St) : St :=
  mkSt (vc s) (_last_stats s) (_last_members s) (_last_live_state s) (reminder_queue s)
       (_channel_meta s) (_id_cache s) (_ready_once s) (guild_known s) (channels s)
       (member_count s) (next_channel_id s) (web s) (api_tape s) (rng s) v
       (rss_cache_file s) (debug_live_html s) (trace s).

Definition set_rss_cache_file (v : file) (s : St) : St :=
  mkSt (vc s) (_last_stats s) (_last_members s) (_last_live_state s) (reminder_queue s)
       (_channel_meta s) (_id_cache s) (_ready_once s) (guild_known s) (channels s)
       (member_count s) (next_channel_id s) (web s) (api_tape s) (rng s)
       (id_store_file s) v (debug_live_html s) (trace s).

Definition set_debug_live_html (v : option string) (s : St) : St :=
  mkSt (vc s) (_last_stats s) (_last_members s) (_last_live_state s) (reminder_queue s)
       (_channel_meta s) (_id_cache s) (_ready_once s) (guild_known s) (channels s)
       (member_count s) (next_channel_id s) (web s) (api_tape s) (rng s)
       (id_store_file s) (rss_cache_file s) v (trace s).

Definition set_trace (v : list event) (s : St) : St :=
  mkSt (vc s) (_last_stats s) (_last_members s) (_last_live_state s) (reminder_queue s)
       (_channel_meta s) (_id_cache s) (_ready_once s) (guild_known s) (channels s)
       (member_count s) (next_channel_id s) (web s) (api_tape s) (rng s)
       (id_store_file s) (rss_cache_file s) (debug_live_html s) v.

Definition set_web (v : string -> http_result) (s : St) : St :=
  mkSt (vc s) (_last_stats s) (_last_members s) (_last_live_state s) (reminder_queue s)
       (_channel_meta s) (_id_cache s) (_ready_once s) (guild_known s) (channels s)
       (member_count s) (next_channel_id s) v (api_tape s) (rng s)
       (id_store_file s) (rss_cache_file s) (debug_live_html s) (trace s).

(** ** The state monad *)

Definition M (A : Type) : Type := St -> A * St.

#[global] Instance M_ret : MRet M := fun A a s => (a, s).

#[global] Instance M_bind : MBind M :=
  fun A B k m s => let (a, s') := m s in k a s'.

Definition get_st : M St := fun s => (s, s).
Definition modify (f : St -> St) : M unit := fun s => (tt, f s).

(** [for x in xs: body(x)]. *)
Fixpoint for_each {A} (xs : list A) (body : A -> M unit) : M unit :=
  match xs with
  | [] => mret tt
  | x :: rest => body x ;; for_each rest body
  end.

Definition emit (e : event) : M unit :=
  modify (fun s => set_trace (trace s ++ [e]) s).

(** The next outcome on the tape; an exhausted tape answers [ApiOk]. *)
Definition next_outcome : M api_outcome :=
  fun s => match api_tape s with
           | [] => (ApiOk, s)
           | o :: rest => (o, set_api_tape rest s)
           end.

(** The next random draw; an exhausted tape answers [0]. *)
Definition next_random : M nat :=
  fun s => match rng s with
           | [] => (0%nat, s)
           | r :: rest => (r, set_rng rest s)
           end.

(** [random.randint(lo, lo + span)]. *)
Definition randint (lo span : nat) : M nat :=
  r ← next_random; mret (lo + r mod (S span))%nat.

(** [acc = f(acc, x)] for every [x] of [xs], in order. *)
Fixpoint fold_m {A B} (f : B -> A -> M B) (xs : list A) (acc : B) : M B :=
  match xs with
  | [] => mret acc
  | x :: rest => acc' ← f acc x; fold_m f rest acc'
  end.

(** * The chat guild *)

Module Discord.

Definition is_voice (c : channel) : bool :=
  match ch_kind c with VoiceChannel => true | _ => false end.

Definition is_text (c : channel) : bool :=
  match ch_kind c with TextChannel => true | _ => false end.

Definition is_category (c : channel) : bool :=
  match ch_kind c with CategoryChannel => true | _ => false end.

Definition lookup_channel (i : Z) (chs : list channel) : option channel :=
  List.find (fun c => Z.eqb (ch_id c) i) chs.

(** [guild.get_channel(i)]. *)
Definition get_channel (i : Z) : M (option channel) :=
  s ← get_st; mret (lookup_channel i (channels s)).

(** [guild.voice_channels]. *)
Definition voice_channels : M (list channel) :=
  s ← get_st; mret (List.filter is_voice (channels s)).

Definition update_channel (i : Z) (f : channel -> channel) : M unit :=
  modify (fun s =>
    set_channels (map (fun c => if Z.eqb (ch_id c) i then f c else c) (channels s)) s).

Definition with_name (name : string) (c : channel) : channel :=
  mkChannel (ch_id c) (ch_kind c) name (ch_category_id c)
            (ow_view_channel c) (ow_connect c).

Definition with_overwrites (view connect : option bool) (c : channel) : channel :=
  mkChannel (ch_id c) (ch_kind c) (ch_name c) (ch_category_id c) view connect.

(** [await ch.edit(name=name, reason=...)]; the outcome says which exception,
    if any, the call raised. *)
Definition edit_name (c : channel) (name : string) : M api_outcome :=
  emit (EvEdit (ch_id c) name);;
  o ← next_outcome;
  match o with
  | ApiOk => update_channel (ch_id c) (with_name name);; mret ApiOk
  | _ => mret o
  end.

(** [deny_connect_permissions(vc, guild)]: make the channel visible but not
    joinable; both exceptions are logged and swallowed. *)
Definition deny_connect_permissions (c : channel) : M unit :=
  let changed1 := negb (bool_decide (ow_view_channel c = Some true)) in
  let changed2 := negb (bool_decide (ow_connect c = Some false)) in
  if changed1 || changed2 then
    emit (EvSetPermissions (ch_id c));;
    o ← next_outcome;
    match o with
    | ApiOk => update_channel (ch_id c) (with_overwrites (Some true) (Some false))
    | _ => mret tt
    end
  else mret tt.

(** [await channel.send(content=..., embed=..., view=...)]. *)
Definition send (c : channel) (content : option string) (embed : Embed)
    (button_url : option pyval) : M api_outcome :=
  emit (EvSend (ch_id c) content embed button_url);;
  next_outcome.

(** A channel the guild creates: the next free id, no overwrites yet. *)
Definition create_channel (kind : chan_kind) (name : string)
    (category : option Z) : M channel :=
  s ← get_st;
  let c := mkChannel (next_channel_id s) kind name category None None in
  modify (fun s => set_next_channel_id (next_channel_id s + 1)
                     (set_channels (channels s ++ [c]) s));;
  mret c.

(** [await guild.create_category(name, ...)]: [None] when it raised. *)
Definition create_category (name : string) : M (option channel) :=
  emit (EvCreateCategory name);;
  o ← next_outcome;
  match o with
  | ApiOk => c ← create_channel CategoryChannel name None; mret (Some c)
  | _ => mret None
  end.

(** [await guild.create_voice_channel(name=..., category=..., ...)]. *)
Definition create_voice_channel (name : string) (category : option channel)
    : M (option channel) :=
  emit (EvCreateVoice name (ch_id <$> category));;
  o ← next_outcome;
  match o with
  | ApiOk => c ← create_channel VoiceChannel name (ch_id <$> category); mret (Some c)
  | _ => mret None
  end.

End Discord.
Export Discord.

(** * Statistics channels *)

Module Stats.

(** The list [updates] of [update_stats_channels]. *)
Definition stats_updates (cfg : Config) (ids : VcIds) (stats : Z * Z * Z)
    : list (option Z * string) :=
  let '(subs, views, videos) := stats in
  [ (VC_SUBS_ID ids,   "📊 Subs: " +:+ fmt_num subs);
    (VC_VIEWS_ID ids,  "👁️ Views: " +:+ fmt_num views);
    (VC_VIDEOS_ID ids, "🎞️ Videos: " +:+ fmt_num videos);
    (VC_GOAL_ID ids,   "🎯 Goal: " +:+ fmt_num (SUBS_GOAL cfg)) ].

(** The body of the loop over [updates]. *)
Definition edit_surface (update : option Z * string) : M unit :=
  let '(ch_id, name) := update in
  match ch_id with
  | None => mret tt
  | Some i =>
      if Z.eqb i 0 then mret tt
      else
        ch ← get_channel i;
        match ch with
        | Some c =>
            if is_voice c then
              o ← edit_name c name;
              match o with
              | ApiOk => deny_connect_permissions c
              | _ => mret tt
              end
            else mret tt
        | None => mret tt
        end
  end.

(** [update_stats_channels(guild, stats)]. *)
Definition update_stats_channels (cfg : Config) (stats : Z * Z * Z) : M unit :=
  s ← get_st;
  if bool_decide (Some stats = _last_stats s) then mret tt
  else
    modify (set_last_stats (Some stats));;
    for_each (stats_updates cfg (vc s) stats) edit_surface.

(** [refresh_members_channel(guild)]. *)
Definition refresh_members_channel : M unit :=
  s ← get_st;
  let count := member_count s in
  match VC_MEMBERS_ID (vc s) with
  | None => mret tt
  | Some i =>
      if bool_decide (_last_members s = Some count) then mret tt
      else
        modify (set_last_members (Some count));;
        ch ← get_channel i;
        match ch with
        | Some c =>
            if is_voice c then
              o ← edit_name c ("👥 Members: " +:+ fmt_num count);
              match o with
              | ApiOk => deny_connect_permissions c
              | _ => mret tt
              end
            else mret tt
        | None => mret tt
        end
  end.

End Stats.
Export Stats.

(** * The channel-id store *)

Module Ids.

(** The roles of [READ_ONLY_DEFAULTS], with the default channel names. *)
Definition READ_ONLY_DEFAULTS : list (string * string) :=
  [ ("subs",    "📊 Subs: 0");
    ("views",   "👁️ Views: 0");
    ("videos",  "🎞️ Videos: 0");
    ("goal",    "🎯 Goal: 0");
    ("members", "👥 Members: 0");
    ("live",    "🔴 OFFLINE") ].

Definition roles : gset string := list_to_set (READ_ONLY_DEFAULTS.*1).

(** One item of the comprehension of [load_ids]:
    [int(v)] when [isinstance(v, (int, str)) and str(v).isdigit()].
    A [bool] is an [int] whose [str] is no digit string. *)
Definition load_id_value (v : pyval) : option (option Z) :=
  match v with
  | VInt z => if Z.leb 0 z then Some (Some z) else None
  | VStr s => if isdigit s then Some (Some (int_of_digits s)) else None
  | _ => None
  end.

(** [load_ids()] on the content of [CHANNEL_ID_STORE]. *)
Definition load_ids (f : file) : gmap string (option Z) :=
  match f with
  | JsonObject data => omap load_id_value data
  | Missing | Unreadable | JsonOther _ => ∅
  end.

(** The dict [save_ids] serializes: [{k: int(v) for k, v in ids.items() if v}]. *)
Definition serializable (ids : gmap string (option Z)) : gmap string pyval :=
  omap (fun v => match v with
                 | Some z => if Z.eqb z 0 then None else Some (VInt z)
                 | None => None
                 end) ids.

(** [save_ids(ids)]. *)
Definition save_ids (cfg : Config) (ids : gmap string (option Z)) : M unit :=
  emit (EvWriteFile (CHANNEL_ID_STORE cfg));;
  modify (set_id_store_file (JsonObject (serializable ids))).

(** [d.get(k)] on the id cache. *)
Definition cache_get (d : gmap string (option Z)) (k : string) : option Z :=
  default None (d !! k).

(** The module-level statements that follow [save_ids]:
    [_id_cache = load_ids()] and the six [VC_..._ID = _id_cache.get(...)]. *)
Definition init_ids : M unit :=
  s ← get_st;
  let cache := load_ids (id_store_file s) in
  modify (set_id_cache cache);;
  modify (set_vc (mkVcIds (cache_get cache "subs") (cache_get cache "views")
                          (cache_get cache "videos") (cache_get cache "goal")
                          (cache_get cache "members") (cache_get cache "live"))).

(** [by_id(i)]. *)
Definition by_id (i : option Z) : M (option channel) :=
  match i with
  | None => mret None
  | Some z =>
      if Z.eqb z 0 then mret None
      else
        ch ← get_channel z;
        mret (match ch with
              | Some c => if is_voice c then Some c else None
              | None => None
              end)
  end.

(** [name.split(":", 1)[0]]. *)
Fixpoint before_colon (name : string) : string :=
  match name with
  | EmptyString => EmptyString
  | String c rest =>
      if Ascii.eqb c ":"%char then EmptyString else String c (before_colon rest)
  end.

(** [find_vc_by_name_or_prefix(default_name)], [category] being the one the
    enclosing function resolved. *)
Definition find_vc_by_name_or_prefix (category : option channel)
    (default_name : string) : M (option channel) :=
  let prefix :=
    if contains ":" default_name then before_colon default_name else default_name in
  let same_category (c : channel) : bool :=
    match category with
    | None => true
    | Some cat => bool_decide (ch_category_id c = Some (ch_id cat))
    end in
  vcs ← voice_channels;
  match List.find (fun c => same_category c && String.eqb (ch_name c) default_name) vcs with
  | Some c => mret (Some c)
  | None =>
      mret (List.find (fun c => same_category c && String.prefix prefix (ch_name c)) vcs)
  end.

Definition id_of_role (ids : VcIds) (key : string) : option Z :=
  if String.eqb key "subs" then VC_SUBS_ID ids
  else if String.eqb key "views" then VC_VIEWS_ID ids
  else if String.eqb key "videos" then VC_VIDEOS_ID ids
  else if String.eqb key "goal" then VC_GOAL_ID ids
  else if String.eqb key "members" then VC_MEMBERS_ID ids
  else if String.eqb key "live" then VC_LIVE_ID ids
  else None.

(** The search of the second loop for one role. *)
Definition find_existing (category : option channel) (key default_name : string)
    : M (option channel) :=
  if String.eqb key "live" then
    e1 ← find_vc_by_name_or_prefix category "🟢 LIVE";
    match e1 with
    | Some c => mret (Some c)
    | None =>
        e2 ← find_vc_by_name_or_prefix category "🔴 OFFLINE";
        match e2 with
        | Some c => mret (Some c)
        | None => find_vc_by_name_or_prefix category default_name
        end
    end
  else find_vc_by_name_or_prefix category default_name.

(** Resolve or create the category. *)
Definition resolve_category (cfg : Config) : M (option channel) :=
  if String.eqb (VOICE_CATEGORY_NAME cfg) "" then mret None
  else
    s ← get_st;
    match List.find (fun c => String.eqb (ch_name c) (VOICE_CATEGORY_NAME cfg))
                    (List.filter is_category (channels s)) with
    | Some c => mret (Some c)
    | None => create_category (VOICE_CATEGORY_NAME cfg)
    end.

(** The first loop: try the stored ids, to avoid duplicates. *)
Definition resolve_by_id (id_map : VcIds) : M (gmap string channel) :=
  fold_m (fun (resolved : gmap string channel) '(key, _) =>
      ch ← by_id (id_of_role id_map key);
      match ch with
      | Some c => deny_connect_permissions c;; mret (<[key := c]> resolved)
      | None => mret resolved
      end) READ_ONLY_DEFAULTS ∅.

(** The second loop: discover or create the missing ones. *)
Definition discover_or_create (category : option channel)
    (resolved : gmap string channel) : M (gmap string channel) :=
  fold_m (fun (resolved : gmap string channel) '(key, default_name) =>
      match resolved !! key with
      | Some _ => mret resolved
      | None =>
          existing ← find_existing category key default_name;
          match existing with
          | None =>
              created ← create_voice_channel default_name category;
              match created with
              | Some c => deny_connect_permissions c;; mret (<[key := c]> resolved)
              | None => mret resolved
              end
          | Some c => deny_connect_permissions c;; mret (<[key := c]> resolved)
          end
      end) READ_ONLY_DEFAULTS resolved.

(** [_id_cache.update({...})] with the six ids. *)
Definition update_id_cache (ids : VcIds) (cache : gmap string (option Z))
    : gmap string (option Z) :=
  <["live" := VC_LIVE_ID ids]> (<["members" := VC_MEMBERS_ID ids]>
  (<["goal" := VC_GOAL_ID ids]> (<["videos" := VC_VIDEOS_ID ids]>
  (<["views" := VC_VIEWS_ID ids]> (<["subs" := VC_SUBS_ID ids]> cache))))).

(** The end of [ensure_stats_voice_channels]: store the ids and persist. *)
Definition store_ids (cfg : Config) (resolved : gmap string channel) : M unit :=
  s ← get_st;
  let pick (key : string) (old : option Z) : option Z :=
    match resolved !! key with
    | Some c => Some (ch_id c)
    | None => old
    end in
  let ids := mkVcIds (pick "subs" (VC_SUBS_ID (vc s)))
                     (pick "views" (VC_VIEWS_ID (vc s)))
                     (pick "videos" (VC_VIDEOS_ID (vc s)))
                     (pick "goal" (VC_GOAL_ID (vc s)))
                     (pick "members" (VC_MEMBERS_ID (vc s)))
                     (pick "live" (VC_LIVE_ID (vc s))) in
  modify (set_vc ids);;
  let cache := update_id_cache ids (_id_cache s) in
  modify (set_id_cache cache);;
  save_ids cfg cache.

(** [ensure_stats_voice_channels(guild)]. *)
Definition ensure_stats_voice_channels (cfg : Config) : M unit :=
  category ← resolve_category cfg;
  s ← get_st;
  resolved1 ← resolve_by_id (vc s);
  resolved ← discover_or_create category resolved1;
  store_ids cfg resolved.

End Ids.
Export Ids.

(** * The upload feed and the entry cache *)

Module Rss.

(** An [xml.etree.ElementTree.Element]; tags are in Clark notation. *)
Inductive element :=
| Element (tag : string) (attrib : gmap string string) (text : option string)
          (children : list element).

Definition el_tag (e : element) : string := let 'Element t _ _ _ := e in t.
Definition el_attrib (e : element) : gmap string string := let 'Element _ a _ _ := e in a.
Definition el_text (e : element) : option string := let 'Element _ _ t _ := e in t.
Definition el_children (e : element) : list element := let 'Element _ _ _ c := e in c.

(** What the model takes from Python's library: [ET.fromstring], which
    answers [None] for [ParseError], and [str] on values other than text. *)
Record PyLib := mkPyLib {
  ET_fromstring : string -> option element;
  str_other : pyval -> string;
}.

(** [f"{v}"]. *)
Definition format (lib : PyLib) (v : pyval) : string :=
  match v with
  | VStr s => s
  | _ => str_other lib v
  end.

Definition ns_atom : string := "http://www.w3.org/2005/Atom".
Definition ns_media : string := "http://search.yahoo.com/mrss/".
Definition ns_yt : string := "http://www.youtube.com/xml/schemas/2015".

Definition qname (uri local : string) : string := "{" +:+ uri +:+ "}" +:+ local.

(** [e.findall("prefix:local", ns)]: the children with that tag. *)
Definition findall (uri local : string) (e : element) : list element :=
  List.filter (fun c => String.eqb (el_tag c) (qname uri local)) (el_children e).

(** [e.find("prefix:local", ns)]: the first such child. *)
Definition find (uri local : string) (e : element) : option element :=
  List.find (fun c => String.eqb (el_tag c) (qname uri local)) (el_children e).

Definition of_opt (o : option string) : pyval :=
  match o with Some s => VStr s | None => VNone end.

(** The dict [{"id": ..., "title": ..., "link": ..., "thumb": ...}]. *)
Definition mk_entry (video_id title link thumb : pyval) : gmap string pyval :=
  <["thumb" := thumb]> (<["link" := link]> (<["title" := title]>
    (<["id" := video_id]> ∅))).

(** [title_el.text if title_el is not None else "Video"]. *)
Definition entry_title (entry : element) : pyval :=
  match find ns_atom "title" entry with
  | Some t => of_opt (el_text t)
  | None => VStr "Video"
  end.

(** [link_el.attrib.get("href") if link_el is not None else None]. *)
Definition entry_link (entry : element) : pyval :=
  match find ns_atom "link" entry with
  | Some l => of_opt (el_attrib l !! "href")
  | None => VNone
  end.

(** [video_id_el.text if video_id_el is not None else None]. *)
Definition entry_video_id (entry : element) : pyval :=
  match find ns_yt "videoId" entry with
  | Some v => of_opt (el_text v)
  | None => VNone
  end.

(** The [url] of the last [media:thumbnail] of the [media:group], if any. *)
Definition entry_thumb (entry : element) : pyval :=
  match find ns_media "group" entry with
  | Some g =>
      match List.last (Some <$> findall ns_media "thumbnail" g) None with
      | Some t => of_opt (el_attrib t !! "url")
      | None => VNone
      end
  | None => VNone
  end.

(** The body of the loop of [parse_rss_entries] for one [atom:entry]:
    the dict appended to [out], if any. *)
Definition parse_entry (entry : element) : option (gmap string pyval) :=
  if truthy (entry_video_id entry) && truthy (entry_link entry)
  then Some (mk_entry (entry_video_id entry) (entry_title entry)
                      (entry_link entry) (entry_thumb entry))
  else None.

(** [parse_rss_entries] on the tree [ET.fromstring] built. *)
Definition parse_rss_entries (root : element) : list (gmap string pyval) :=
  omap parse_entry (findall ns_atom "entry" root).

(** [load_rss_cache(path)] on the content of the file. *)
Definition load_rss_cache (f : file) : gmap string (gmap string pyval) :=
  match f with
  | JsonObject data =>
      omap (fun v => match v with VDict d => Some d | _ => None end) data
  | Missing | Unreadable | JsonOther _ => ∅
  end.

(** [save_rss_cache(path, cache)]. *)
Definition save_rss_cache (cfg : Config) (cache : gmap string (gmap string pyval))
    : M unit :=
  emit (EvWriteFile (RSS_CACHE_PATH cfg));;
  modify (set_rss_cache_file (JsonObject (VDict <$> cache))).

(** [{k: v for k, v in e.items() if v}]. *)
Definition nonempty_fields (e : gmap string pyval) : gmap string pyval :=
  filter (fun kv => truthy kv.2 = true) e.

(** [stored.update(fields)]. *)
Definition dict_update (stored fields : gmap string pyval) : gmap string pyval :=
  fields ∪ stored.

(** [accumulate_from_rss(cache, entries)]: the cache after the loop and
    [added].  [None] stands for the [KeyError] of [e["id"]]; the model also
    answers [None] for an id that is no text, which no entry of the parser
    has. *)
Fixpoint accumulate_from_rss (cache : gmap string (gmap string pyval))
    (entries : list (gmap string pyval))
    : option (gmap string (gmap string pyval) * Z) :=
  match entries with
  | [] => Some (cache, 0)
  | e :: rest =>
      match e !! "id" with
      | Some (VStr vid) =>
          match cache !! vid with
          | None =>
              '(cache', added) ← accumulate_from_rss (<[vid := e]> cache) rest;
              Some (cache', added + 1)
          | Some stored =>
              accumulate_from_rss
                (<[vid := dict_update stored (nonempty_fields e)]> cache) rest
          end
      | _ => None
      end
  end.

Definition swap {A} (l : list A) (i j : nat) : list A :=
  match l !! i, l !! j with
  | Some a, Some b => <[i := b]> (<[j := a]> l)
  | _, _ => l
  end.

(** The loop of [random.shuffle]: for [i] from [i] down to [1], swap [x[i]]
    with [x[j]] for a random [j <= i]. *)
Fixpoint shuffle_from {A} (i : nat) (l : list A) : M (list A) :=
  match i with
  | O => mret l
  | S i' => r ← next_random; shuffle_from i' (swap l i (r mod (S i)))
  end.

(** [random.shuffle(x)]. *)
Definition shuffle {A} (l : list A) : M (list A) :=
  shuffle_from (length l - 1) l.

(** [requests.get(url, ...)] with [raise_for_status()]. *)
Definition http_get (url : string) : M http_result :=
  emit (EvHttpGet url);;
  s ← get_st; mret (web s url).

Definition channel_rss_url (channel_id : string) : string :=
  "https://www.youtube.com/feeds/videos.xml?channel_id=" +:+ channel_id.

(** How a task body ended. *)
Inductive ending := Returned | Raised (exc : string).

(** The statements from [cache = load_rss_cache(...)] to
    [random.shuffle(reminder_queue)], shared by [rss_refresh_loop] and
    [on_ready]. *)
Definition merge_and_requeue (cfg : Config) (entries : list (gmap string pyval))
    : M ending :=
  s ← get_st;
  let cache := load_rss_cache (rss_cache_file s) in
  match accumulate_from_rss cache entries with
  | None => mret (Raised "KeyError")
  | Some (cache', added) =>
      (if Z.eqb added 0 then mret tt else save_rss_cache cfg cache');;
      queue ← shuffle (map_to_list cache').*2;
      modify (set_reminder_queue queue);;
      mret Returned
  end.

(** [rss_refresh_loop()], one run of the task body. *)
Definition rss_refresh_loop (cfg : Config) (lib : PyLib) : M ending :=
  match YOUTUBE_CHANNEL_ID cfg with
  | None => mret Returned
  | Some channel_id =>
      if String.eqb channel_id "" then mret Returned
      else
        r ← http_get (channel_rss_url channel_id);
        match r with
        | HTTPError => mret Returned
        | ConnectionError => mret Returned
        | Body text =>
            match ET_fromstring lib text with
            | None => mret Returned
            | Some root => merge_and_requeue cfg (parse_rss_entries root)
            end
        end
  end.

End Rss.
Export Rss.

(** * The reminder queue *)

Module Reminder.

Definition REMINDER_CAPTIONS : list string :=
  [ "From the vault—give this a watch!";
    "Throwback upload you might have missed!";
    "ICYMI: a classic from the channel!";
    "Reminder: this video is worth revisiting!";
    "Rewatch time! Check this out!" ].

Definition youtube_watch_url (lib : PyLib) (video_id : pyval) : string :=
  "https://www.youtube.com/watch?v=" +:+ format lib video_id.

Definition default_thumb (lib : PyLib) (video_id : pyval) : string :=
  "https://i.ytimg.com/vi/" +:+ format lib video_id +:+ "/hqdefault.jpg".

Definition default_channel_url (cfg : Config) : string :=
  "https://www.youtube.com/channel/" +:+ default "None" (YOUTUBE_CHANNEL_ID cfg).

(** [o or d] on optional text. *)
Definition text_or (o : option string) (d : string) : string :=
  match o with
  | Some s => if String.eqb s "" then d else s
  | None => d
  end.

(** [o if o else None] on optional text. *)
Definition nonempty (o : option string) : option string :=
  match o with
  | Some s => if String.eqb s "" then None else Some s
  | None => None
  end.

(** [build_embed_for_entry(entry)], for an entry that has an id. *)
Definition build_embed_for_entry (cfg : Config) (lib : PyLib)
    (entry : gmap string pyval) (vid : pyval) : M Embed :=
  let title := por (dict_get entry "title") (VStr "Video") in
  let url := por (dict_get entry "link") (VStr (youtube_watch_url lib vid)) in
  let thumb := por (dict_get entry "thumb") (VStr (default_thumb lib vid)) in
  r ← next_random;
  let caption := default "" (REMINDER_CAPTIONS !! (r mod length REMINDER_CAPTIONS)%nat) in
  s ← get_st;
  let meta := _channel_meta s in
  mret (mkEmbed title caption url
          (text_or (meta_title meta) "YouTube Channel")
          (text_or (meta_channel_url meta) (default_channel_url cfg))
          (nonempty (meta_avatar_url meta))
          (nonempty (meta_banner_url meta))
          thumb).

(** [q.pop()] on a non-empty list: the last item and the rest. *)
Definition pop {A} (q : list A) : option (A * list A) :=
  match List.last (Some <$> q) None with
  | Some x => Some (x, List.removelast q)
  | None => None
  end.

(** [q.insert(i, x)] for [0 <= i]. *)
Definition insert_at {A} (i : nat) (x : A) (q : list A) : list A :=
  take i q ++ x :: drop i q.

(** The statements of [reminder_loop] from [entry = reminder_queue.pop()] on,
    for a non-empty queue. *)
Definition post_and_reinsert (cfg : Config) (lib : PyLib) (channel : channel)
    : M ending :=
  s ← get_st;
  match pop (reminder_queue s) with
  | None => mret (Raised "IndexError")
  | Some (entry, rest) =>
      modify (set_reminder_queue rest);;
      match entry !! "id" with
      | None => mret (Raised "KeyError")
      | Some vid =>
          let url := por (dict_get entry "link") (VStr (youtube_watch_url lib vid)) in
          embed ← build_embed_for_entry cfg lib entry vid;
          _ ← send channel None embed (Some url);
          s' ← get_st;
          i ← randint 0 (Nat.max 0 (length (reminder_queue s')));
          modify (fun s => set_reminder_queue (insert_at i entry (reminder_queue s)) s);;
          mret Returned
      end
  end.

(** [reminder_loop()], one run of the task body. *)
Definition reminder_loop (cfg : Config) (lib : PyLib) : M ending :=
  if Z.eqb (REMINDER_CHANNEL_ID cfg) 0 then mret Returned
  else
    s ← get_st;
    if negb (guild_known s) then mret Returned
    else
      ch ← get_channel (REMINDER_CHANNEL_ID cfg);
      match ch with
      | None => mret Returned
      | Some channel =>
          if negb (is_text channel) then mret Returned
          else
            match reminder_queue s with
            | [] =>
                let cache := load_rss_cache (rss_cache_file s) in
                queue ← shuffle (map_to_list cache).*2;
                modify (set_reminder_queue queue);;
                match queue with
                | [] => mret Returned
                | _ :: _ => post_and_reinsert cfg lib channel
                end
            | _ :: _ => post_and_reinsert cfg lib channel
            end
      end.

End Reminder.
Export Reminder.

(** * The live-state classifier *)

Module Live.

(** One item of a pattern: a character of a class, [[class]+], or the
    capturing [([class]+)]. *)
Inductive item :=
| Chr (p : ascii -> bool)
| Plus (p : ascii -> bool)
| Group (p : ascii -> bool).

(** Match the items at the start of [s], greedily and with backtracking as
    [re] does; the result is the text of the group. *)
Fixpoint match_at (its : list item) (s : string) : option string :=
  match its with
  | [] => Some ""
  | Chr p :: r =>
      match s with
      | String c s' => if p c then match_at r s' else None
      | EmptyString => None
      end
  | Plus p :: r =>
      (fix go (s : string) : option string :=
         match s with
         | String c s' =>
             if p c then
               match go s' with
               | Some g => Some g
               | None => match_at r s'
               end
             else None
         | EmptyString => None
         end) s
  | Group p :: r =>
      (fix go (s : string) : option string :=
         match s with
         | String c s' =>
             if p c then
               match go s' with
               | Some g => Some (String c g)
               | None =>
                   match match_at r s' with
                   | Some _ => Some (String c "")
                   | None => None
                   end
               end
             else None
         | EmptyString => None
         end) s
  end.

(** [pattern.search(s)]: the leftmost match. *)
Fixpoint search (its : list item) (s : string) : option string :=
  match match_at its s with
  | Some g => Some g
  | None =>
      match s with
      | String _ s' => search its s'
      | EmptyString => None
      end
  end.

Definition lower (c : ascii) : ascii :=
  let n := nat_of_ascii c in
  if (65 <=? n)%nat && (n <=? 90)%nat then ascii_of_nat (n + 32) else c.

(** A literal under [re.IGNORECASE]. *)
Definition lit_ci (s : string) : list item :=
  map (fun x => Chr (fun c => Ascii.eqb (lower c) (lower x))) (list_ascii_of_string s).

(** The double quote, character 34. *)
Definition dquote : ascii := Eval cbv in ascii_of_nat 34.

(** [s] between double quotes. *)
Definition quoted (s : string) : string := String dquote (s +:+ String dquote "").

Definition is_quote (c : ascii) : bool :=
  Ascii.eqb c dquote || Ascii.eqb c "'"%char.

Definition not_gt (c : ascii) : bool := negb (Ascii.eqb c ">"%char).

(** [<link[^>]+rel=Qcanonical Q[^>]+href=Q([^Q]+)Q] without the space, where
    [Q] is the class of the two quote characters; case is ignored. *)
Definition CANONICAL_RE : list item :=
  lit_ci "<link" ++ [Plus not_gt] ++ lit_ci "rel=" ++ [Chr is_quote] ++
  lit_ci "canonical" ++ [Chr is_quote; Plus not_gt] ++ lit_ci "href=" ++
  [Chr is_quote; Group (fun c => negb (is_quote c)); Chr is_quote].

Definition YTLIVE_URL (channel_id : string) : string :=
  "https://www.youtube.com/channel/" +:+ channel_id +:+ "/live".

Definition flag_live (html : string) : bool :=
  contains (quoted "isLiveBroadcast" +:+ ":true") html ||
  contains (quoted "status" +:+ ":" +:+ quoted "LIVE") html.

Definition flag_upcoming (html : string) : bool :=
  contains (quoted "isUpcoming" +:+ ":true") html ||
  contains (quoted "upcomingEventData") html.

Definition flag_offline (html : string) : bool :=
  contains (quoted "isLiveBroadcast" +:+ ":false") html ||
  contains (quoted "status" +:+ ":" +:+ quoted "OFFLINE") html.

(** The part of [yt_is_live_noapi] that follows a canonical watch link. *)
Definition follow_watch (href : string) : M (option string) :=
  r2 ← http_get href;
  match r2 with
  | Body html2 =>
      if flag_live html2 then mret (Some "live")
      else if flag_upcoming html2 then mret (Some "upcoming")
      else if flag_offline html2 then mret (Some "offline")
      else mret (Some "live")
  | _ => mret (Some "live")
  end.

(** Steps 2 and 3 of [yt_is_live_noapi], with the dump of the page. *)
Definition classify_page (html : string) : M (option string) :=
  if flag_live html then mret (Some "live")
  else if flag_offline html then mret (Some "offline")
  else if flag_upcoming html then mret (Some "upcoming")
  else
    emit (EvWriteFile "debug_live.html");;
    modify (set_debug_live_html (Some html));;
    mret None.

(** [yt_is_live_noapi(channel_id)]: ["live"], ["upcoming"], ["offline"] or
    [None]. *)
Definition yt_is_live_noapi (channel_id : string) : M (option string) :=
  r ← http_get (YTLIVE_URL channel_id);
  match r with
  | Body html =>
      match search CANONICAL_RE html with
      | Some href =>
          if contains "/watch" href then follow_watch href
          else if contains "/channel/" href then mret (Some "offline")
          else classify_page html
      | None => classify_page html
      end
  | _ => mret None
  end.

End Live.
Export Live.

(** * The periodic tasks *)

Module Tasks.

(** Channel name and notification title for a resolved live state. *)
Definition live_texts (state : string) : string * string :=
  if String.eqb state "live" then ("🟢 LIVE", "🔴 The channel is now LIVE!")
  else if String.eqb state "upcoming" then ("🟡 UPCOMING", "🟡 A stream is scheduled!")
  else ("🔴 OFFLINE", "⚫ The channel went offline.").

(** The embed of a live-state notification. *)
Definition live_embed (cfg : Config) (meta : ChannelMeta) (title : string) : Embed :=
  let url := text_or (meta_channel_url meta) (default_channel_url cfg) in
  mkEmbed (VStr title)
          ("[Click here to visit the channel](" +:+ url +:+ ")")
          VNone
          (text_or (meta_title meta) "YouTube Channel")
          url
          (nonempty (meta_avatar_url meta))
          None
          VNone.

(** The statements of [live_status_loop_noapi] that follow the call of the
    classifier. *)
Definition apply_live_state (cfg : Config) (ch : channel) (state : option string)
    : M unit :=
  match state with
  | None => mret tt
  | Some st =>
      s ← get_st;
      if bool_decide (_last_live_state s = Some st) then mret tt
      else
        modify (set_last_live_state (Some st));;
        let '(target_name, notification_title) := live_texts st in
        (if negb (String.eqb (ch_name ch) target_name) then
           o ← edit_name ch target_name;
           match o with
           | ApiOk => deny_connect_permissions ch
           | _ => mret tt
           end
         else mret tt);;
        if Z.eqb (LIVE_ALERT_CHANNEL_ID cfg) 0 then mret tt
        else
          notif ← get_channel (LIVE_ALERT_CHANNEL_ID cfg);
          match notif with
          | Some n =>
              if is_text n then
                s' ← get_st;
                _ ← send n (Some "@everyone")
                      (live_embed cfg (_channel_meta s') notification_title) None;
                mret tt
              else mret tt
          | None => mret tt
          end
  end.

(** [live_status_loop_noapi()], one run of the task body. *)
Definition live_status_loop_noapi (cfg : Config) : M unit :=
  match YOUTUBE_CHANNEL_ID cfg with
  | None => mret tt
  | Some channel_id =>
      if String.eqb channel_id "" then mret tt
      else
        s ← get_st;
        if negb (guild_known s) then mret tt
        else
          match VC_LIVE_ID (vc s) with
          | None => mret tt
          | Some live_id =>
              ch ← get_channel live_id;
              match ch with
              | Some c =>
                  if is_voice c then
                    state ← yt_is_live_noapi channel_id;
                    apply_live_state cfg c state
                  else mret tt
              | None => mret tt
              end
          end
  end.

Definition any_id_missing (ids : VcIds) : bool :=
  bool_decide (VC_SUBS_ID ids = None) || bool_decide (VC_VIEWS_ID ids = None) ||
  bool_decide (VC_VIDEOS_ID ids = None) || bool_decide (VC_GOAL_ID ids = None) ||
  bool_decide (VC_MEMBERS_ID ids = None) || bool_decide (VC_LIVE_ID ids = None).

Definition is_set (o : option string) : bool :=
  match o with Some s => negb (String.eqb s "") | None => false end.

(** [stats_loop()], one run of the task body.  [stats] and [meta] are the
    answers of [yt_channels_statistics] and [yt_channel_metadata], the two
    reads of the Data API; [None] is a failed read. *)
Definition stats_loop (cfg : Config) (stats : option (Z * Z * Z))
    (meta : option ChannelMeta) : M unit :=
  s ← get_st;
  if negb (guild_known s) then mret tt
  else
    (if any_id_missing (vc s) then ensure_stats_voice_channels cfg else mret tt);;
    if negb (is_set (YOUTUBE_API_KEY cfg) && is_set (YOUTUBE_CHANNEL_ID cfg))
    then mret tt
    else
      match stats with
      | Some st => update_stats_channels cfg st;; refresh_members_channel
      | None => mret tt
      end;;
      match meta with
      | Some m => modify (set_channel_meta m)
      | None => mret tt
      end.

(** [on_ready()]; the presence update and the start of the four loops are
    left to the scheduler. *)
Definition on_ready (cfg : Config) (lib : PyLib) : M unit :=
  s ← get_st;
  if _ready_once s then mret tt
  else
    modify (set_ready_once true);;
    (if guild_known s
     then ensure_stats_voice_channels cfg;; refresh_members_channel
     else mret tt);;
    (* initial RSS load; every exception is logged and swallowed *)
    match YOUTUBE_CHANNEL_ID cfg with
    | None => mret tt
    | Some channel_id =>
        if String.eqb channel_id "" then mret tt
        else
          r ← http_get (channel_rss_url channel_id);
          match r with
          | Body text =>
              match ET_fromstring lib text with
              | Some root =>
                  _ ← merge_and_requeue cfg (parse_rss_entries root); mret tt
              | None => mret tt
              end
          | _ => mret tt
          end
    end.

End Tasks.
Export Tasks.

(** * Observations on a run *)

(** The state a computation leaves. *)
Definition run {A} (m : M A) (s : St) : St := (m s).2.

(** The renames among some events: channel id and new name. *)
Definition edits_of (evs : list event) : list (Z * string) :=
  omap (fun e => match e with EvEdit i name => Some (i, name) | _ => None end) evs.

(** The messages among some events: the channel each went to. *)
Definition sends_of (evs : list event) : list Z :=
  omap (fun e => match e with EvSend c _ _ _ => Some c | _ => None end) evs.

(** The URLs fetched among some events. *)
Definition fetches_of (evs : list event) : list string :=
  omap (fun e => match e with EvHttpGet u => Some u | _ => None end) evs.

(** The files written among some events. *)
Definition writes_of (evs : list event) : list string :=
  omap (fun e => match e with EvWriteFile p => Some p | _ => None end) evs.

(** The id [i] when it is set and names a voice channel of the guild. *)
Definition voice_id (chs : list channel) (i : option Z) : option Z :=
  match i with
  | Some z =>
      if Z.eqb z 0 then None
      else match lookup_channel z chs with
           | Some c => if is_voice c then Some z else None
           | None => None
           end
  | None => None
  end.

(** One rename for each of the four statistics surfaces that resolves to a
    voice channel, in the order subs, views, videos, goal. *)
Definition stats_edits (cfg : Config) (s : St) (stats : Z * Z * Z)
    : list (Z * string) :=
  omap (fun '(i, name) => (fun z => (z, name)) <$> voice_id (channels s) i)
       (stats_updates cfg (vc s) stats).

(** Channel ids and kinds, which no rename and no overwrite changes. *)
Definition skeleton (chs : list channel) : list (Z * chan_kind) :=
  map (fun c => (ch_id c, ch_kind c)) chs.

(** A computation that leaves a part of the state as it was. *)
Definition keeps {A B} (proj : St -> B) (m : M A) : Prop :=
  forall s, proj (m s).2 = proj s.

(** What a computation adds to the log. *)
Definition emits {A} (m : M A) (s : St) (evs : list event) : Prop :=
  trace (m s).2 = (trace s ++ evs)%list.

(** The JSON object a file holds, empty when it holds none. *)
Definition file_object (f : file) : gmap string pyval :=
  match f with
  | JsonObject d => d
  | Missing | Unreadable | JsonOther _ => ∅
  end.

(** The keys of a pre-existing store that name no role. *)
Definition extra_keys (f : file) : gset string := dom (file_object f) ∖ roles.

(** The states the channel-id store goes through: the module is loaded on
    the file [f], then the channels are resolved and saved any number of
    times, while the other tasks and the guild change the rest of the state. *)
Inductive id_store_run (f : file) : St -> Prop :=
| run_load s :
    id_store_file s = f -> id_store_run f (run init_ids s)
| run_resolve cfg s :
    id_store_run f s -> id_store_run f (run (ensure_stats_voice_channels cfg) s)
| run_other s s' :
    id_store_run f s ->
    _id_cache s' = _id_cache s -> id_store_file s' = id_store_file s ->
    id_store_run f s'.

(** No status marker of [yt_is_live_noapi] matches the page: no canonical
    link to a watch or channel resource, and none of the flags. *)
Definition no_marker (html : string) : bool :=
  match search CANONICAL_RE html with
  | Some href => negb (contains "/watch" href) && negb (contains "/channel/" href)
  | None => true
  end
  && negb (flag_live html) && negb (flag_offline html) && negb (flag_upcoming html).

(** The number of entries the merge of a feed-refresh cycle adds, when the
    cycle gets as far as the merge: the channel is configured, the feed is
    fetched and it parses. *)
Definition cycle_added (cfg : Config) (lib : PyLib) (s : St) : option Z :=
  match YOUTUBE_CHANNEL_ID cfg with
  | None => None
  | Some channel_id =>
      if String.eqb channel_id "" then None
      else
        match web s (channel_rss_url channel_id) with
        | Body text =>
            match ET_fromstring lib text with
            | Some root =>
                snd <$> accumulate_from_rss (load_rss_cache (rss_cache_file s))
                                            (parse_rss_entries root)
            | None => None
            end
        | _ => None
        end
  end.

(** A feed entry carries an id. *)
Definition has_id (e : gmap string pyval) : Prop := is_Some (e !! "id").

(** The data-model invariant of the cache and the queue: every entry of the
    persisted cache and every entry of the queue carries an id. *)
Definition entries_have_ids (s : St) : Prop :=
  (forall k e, load_rss_cache (rss_cache_file s) !! k = Some e -> has_id e) /\
  Forall has_id (reminder_queue s).

(** ** Sample configurations and states *)

Definition no_web : string -> http_result := fun _ => ConnectionError.

(** Nothing loaded yet, an empty guild, no files. *)
Definition empty_state : St :=
  mkSt (mkVcIds None None None None None None) None None None []
       (mkMeta None None None None) ∅ false true [] 0 100 no_web [] []
       Missing Missing None [].

Definition demo_cfg : Config :=
  mkConfig 1 (Some "key") (Some "UCdemo") "YouTube Stats" 1000 7 8
           "rss_cache.json" "channel_ids.json".

Definition demo_voice (i : Z) (name : string) : channel :=
  mkChannel i VoiceChannel name None (Some true) (Some false).

Definition demo_channels : list channel :=
  [ demo_voice 1 "📊 Subs: 100"; demo_voice 2 "👁️ Views: 200";
    demo_voice 3 "🎞️ Videos: 5"; demo_voice 4 "🎯 Goal: 1,000";
    demo_voice 5 "👥 Members: 3"; demo_voice 6 "🔴 OFFLINE";
    mkChannel 7 TextChannel "alerts" None None None;
    mkChannel 8 TextChannel "reminders" None None None ].

Definition demo_ids : VcIds :=
  mkVcIds (Some 1) (Some 2) (Some 3) (Some 4) (Some 5) (Some 6).

(** Statistics (100, 200, 5) were broadcast last; all six surfaces exist. *)
Definition demo_state : St :=
  set_channels demo_channels
    (set_vc demo_ids (set_last_stats (Some (100, 200, 5)) empty_state)).

(** Every call of the chat API is refused. *)
Definition refusing_state : St :=
  set_api_tape [ApiForbidden; ApiHTTPException; ApiForbidden; ApiForbidden] demo_state.

(** A store file with the six roles and one more key. *)
Definition seven_key_store : file :=
  JsonObject (list_to_map
    [ ("subs", VInt 1); ("views", VInt 2); ("videos", VInt 3); ("goal", VInt 4);
      ("members", VInt 5); ("live", VInt 6); ("backup", VInt 7) ]).

(** Two sightings of the video [a]: the first with a thumbnail, the second
    without one and with a new title. *)
Definition demo_entry_full : gmap string pyval :=
  mk_entry (VStr "a") (VStr "T1") (VStr "L1") (VStr "https://i.ytimg.com/vi/a/hq.jpg").

Definition demo_entry_bare : gmap string pyval :=
  mk_entry (VStr "a") (VStr "T1 (edited)") (VStr "L1") VNone.

Definition demo_lib : PyLib := mkPyLib (fun _ => None) (fun _ => "None").

(** The queue holds one entry; the reminder channel is the text channel 8. *)
Definition one_entry_state : St :=
  set_reminder_queue [demo_entry_full] (set_rng [3; 5]%nat demo_state).

(** A network that serves one page at [YTLIVE_URL "UCdemo"] and nothing else. *)
Definition serve_live_page (html : string) : string -> http_result :=
  fun url => if String.eqb url (YTLIVE_URL "UCdemo") then Body html else ConnectionError.

(** The channel was last seen offline; the live page is [html]. *)
Definition live_state (html : string) : St :=
  set_web (serve_live_page html) (set_last_live_state (Some "offline") demo_state).

Definition page_without_markers : string := "<html><body>consent</body></html>".

Definition page_canonical_watch : string :=
  "<link rel='canonical' href='https://www.youtube.com/watch?v=abc'>".

Definition page_canonical_channel : string :=
  "<link rel='canonical' href='https://www.youtube.com/channel/UCdemo'>".

(** A feed of four candidates: a full one with two thumbnails, one without
    title, one without link, and one whose id is empty. *)
Definition leaf (uri local : string) (text : option string) : element :=
  Element (qname uri local) ∅ text [].

Definition link_to (href : string) : element :=
  Element (qname ns_atom "link") {["rel" := "alternate"; "href" := href]} None [].

Definition thumbnail (url : string) : element :=
  Element (qname ns_media "thumbnail") {["url" := url]} None [].

Definition demo_feed : element :=
  Element (qname ns_atom "feed") ∅ None
    [ leaf ns_atom "title" (Some "Channel");
      Element (qname ns_atom "entry") ∅ None
        [ leaf ns_yt "videoId" (Some "a"); leaf ns_atom "title" (Some "T1");
          link_to "L1";
          Element (qname ns_media "group") ∅ None
            [ thumbnail "small.jpg"; thumbnail "large.jpg" ] ];
      Element (qname ns_atom "entry") ∅ None
        [ leaf ns_yt "videoId" (Some "b"); link_to "L2" ];
      Element (qname ns_atom "entry") ∅ None
        [ leaf ns_yt "videoId" (Some "c"); leaf ns_atom "title" (Some "T3") ];
      Element (qname ns_atom "entry") ∅ None
        [ leaf ns_yt "videoId" None; leaf ns_atom "title" (Some "T4");
          link_to "L4" ] ].

Definition demo_entry_a : gmap string pyval :=
  mk_entry (VStr "a") (VStr "T1") (VStr "L1") (VStr "large.jpg").

Definition demo_entry_b : gmap string pyval :=
  mk_entry (VStr "b") (VStr "Video") (VStr "L2") VNone.

(** [ET.fromstring] answers [demo_feed] for every text. *)
Definition feed_lib : PyLib := mkPyLib (fun _ => Some demo_feed) (fun _ => "None").

(** The feed is served, and no cache file exists yet. *)
Definition feed_state : St := set_web (fun _ => Body "<feed/>") demo_state.

(** * Member events *)

(** [on_member_join(member)] for a member of the guild [guild_id]. *)
Definition on_member_join (cfg : Config) (guild_id : Z) : M unit :=
  if Z.eqb guild_id (GUILD_ID cfg) then refresh_members_channel else mret tt.

(** [on_member_remove(member)] for a member of the guild [guild_id]. *)
Definition on_member_remove (cfg : Config) (guild_id : Z) : M unit :=
  if Z.eqb guild_id (GUILD_ID cfg) then refresh_members_channel else mret tt.

(** * More observations *)

(** A triple: from a state that satisfies [pre], the computation ends with a
    result and a state that satisfy [post]. *)
Definition hoare {A} (pre : St -> Prop) (m : M A) (post : A -> St -> Prop) : Prop :=
  forall s, pre s -> post (m s).1 (m s).2.

(** The computation only adds events that satisfy [P] to the log. *)
Definition emits_only {A} (P : event -> Prop) (m : M A) : Prop :=
  forall s, exists evs, trace (m s).2 = (trace s ++ evs)%list /\ Forall P evs.

(** The names of the voice channels created among some events. *)
Definition creates_of (evs : list event) : list string :=
  omap (fun e => match e with EvCreateVoice name _ => Some name | _ => None end) evs.

(** Ids are unique, positive and below the next id the guild hands out. *)
Definition guild_wf (s : St) : Prop :=
  NoDup (ch_id <$> channels s) /\
  Forall (fun c => 0 < ch_id c < next_channel_id s) (channels s) /\
  0 < next_channel_id s.

(** The guild is well formed and every call of the chat API succeeds. *)
Definition sound (s : St) : Prop := guild_wf s /\ api_tape s = [].

(** The channels of [chs'] are those of [chs], ids and kinds unchanged and
    in the same order, followed by new ones. *)
Definition ext (chs chs' : list channel) : Prop :=
  exists more, skeleton chs' = (skeleton chs ++ more)%list.

(** A step that changes no stored id, creates no voice channel and renames
    none. *)
Definition quiet_step (s s' : St) : Prop :=
  vc s' = vc s /\ ext (channels s) (channels s') /\
  exists evs, trace s' = (trace s ++ evs)%list /\
              creates_of evs = [] /\ edits_of evs = [].

(** A step that keeps a sound guild sound and removes no channel. *)
Definition grow_step (s s' : St) : Prop :=
  (sound s -> sound s') /\ ext (channels s) (channels s').

(** Every run of the computation is a step of the relation. *)
Definition moves {A} (R : St -> St -> Prop) (m : M A) : Prop :=
  forall s, R s (m s).2.

(** The roles of [keys] are resolved to channels that bear the stored ids. *)
Definition resolved_by (ids : VcIds) (keys : list (string * string))
    (resolved : gmap string channel) : Prop :=
  forall key d, (key, d) ∈ keys ->
    exists c, resolved !! key = Some c /\ id_of_role ids key = Some (ch_id c).

(** Every channel of [resolved] is a voice channel of the guild, with an id
    [by_id] accepts. *)
Definition all_voice (resolved : gmap string channel) (s : St) : Prop :=
  forall key c, resolved !! key = Some c ->
    voice_id (channels s) (Some (ch_id c)) = Some (ch_id c).

(** The id names a voice channel of the guild. *)
Definition names_voice (chs : list channel) (z : Z) : Prop :=
  exists c, lookup_channel z chs = Some c /\ is_voice c = true.

(** The prefix [find_vc_by_name_or_prefix] searches for. *)
Definition name_prefix (default_name : string) : string :=
  if contains ":" default_name then before_colon default_name else default_name.

(** The category test of [find_vc_by_name_or_prefix]. *)
Definition same_category (category : option channel) (c : channel) : bool :=
  match category with
  | None => true
  | Some cat => bool_decide (ch_category_id c = Some (ch_id cat))
  end.

(** The ids of the entries of a feed. *)
Definition entry_ids (entries : list (gmap string pyval)) : gset string :=
  list_to_set (omap (fun e => match e !! "id" with
                              | Some (VStr vid) => Some vid
                              | _ => None
                              end) entries).

(** The cache the merge of a feed-refresh cycle builds, when the cycle gets
    as far as the merge. *)
Definition cycle_cache (cfg : Config) (lib : PyLib) (s : St)
    : option (gmap string (gmap string pyval)) :=
  match YOUTUBE_CHANNEL_ID cfg with
  | None => None
  | Some channel_id =>
      if String.eqb channel_id "" then None
      else
        match web s (channel_rss_url channel_id) with
        | Body text =>
            match ET_fromstring lib text with
            | Some root =>
                fst <$> accumulate_from_rss (load_rss_cache (rss_cache_file s))
                                            (parse_rss_entries root)
            | None => None
            end
        | _ => None
        end
  end.

(** [s] without the thousands separators. *)
Definition strip_commas (s : string) : string :=
  string_of_list_ascii
    (List.filter (fun c => negb (Ascii.eqb c ","%char)) (list_ascii_of_string s)).

(** The queue is empty and the cache file holds the entry [a]. *)
Definition refill_state : St :=
  set_rss_cache_file (JsonObject {["a" := VDict demo_entry_full]}) demo_state.

(** The id names a text channel of the guild. *)
Definition text_id (chs : list channel) (i : Z) : bool :=
  match lookup_channel i chs with
  | Some n => is_text n
  | None => false
  end.

(** The computation only adds events to the log, among them no rename, no
    message, no fetch and no file write, and at most [n] creations of a voice
    channel. *)
Definition adds (n : nat) {A} (m : M A) : Prop :=
  forall s, exists evs,
    trace (m s).2 = (trace s ++ evs)%list /\
    edits_of evs = [] /\ sends_of evs = [] /\ fetches_of evs = [] /\
    writes_of evs = [] /\ (length (creates_of evs) <= n)%nat.

(** The channel bears the name and is visible but not joinable. *)
Definition shown (name : string) (c : channel) : Prop :=
  ch_name c = name /\ ow_view_channel c = Some true /\ ow_connect c = Some false.

(** The voice channels a list of renames resolves to. *)
Definition surfaces (chs : list channel) (us : list (option Z * string)) : list Z :=
  omap (fun u => voice_id chs u.1) us.

(** A feed whose one candidate has an id, a link and a title element without
    text, [<title/>]. *)
Definition untitled_feed : element :=
  Element (qname ns_atom "feed") ∅ None
    [ Element (qname ns_atom "entry") ∅ None
        [ leaf ns_yt "videoId" (Some "u"); leaf ns_atom "title" None;
          link_to "LU" ] ].

(** The queue ends with an entry that carries no id, as [load_rss_cache]
    hands out for a cache file that holds an empty object under some key. *)
Definition id_less_state : St :=
  set_reminder_queue [demo_entry_full; ∅] one_entry_state.

(** * Proofs *)

Local Open Scope list_scope.
Local Open Scope Z_scope.

Lemma lookup_channel_skeleton chs1 chs2 i :
  skeleton chs1 = skeleton chs2 ->
  is_voice <$> lookup_channel i chs1 = is_voice <$> lookup_channel i chs2.
Proof.
  revert chs2. induction chs1 as [|c l IH]; intros [|c2 l2] H; simpl in *; try done.
  injection H as Hid Hk Hl.
  rewrite Hid. destruct (Z.eqb (ch_id c2) i); simpl.
  - unfold is_voice. by rewrite Hk.
  - by apply IH.
Qed.

Lemma voice_id_skeleton chs1 chs2 i :
  skeleton chs1 = skeleton chs2 -> voice_id chs1 i = voice_id chs2 i.
Proof.
  intros H. destruct i as [z|]; simpl; [|done].
  destruct (Z.eqb z 0); [done|].
  pose proof (lookup_channel_skeleton _ _ z H) as E.
  destruct (lookup_channel z chs1), (lookup_channel z chs2); simpl in E; try done.
  injection E as ->. done.
Qed.

Lemma skeleton_update i f chs :
  (forall c, ch_id (f c) = ch_id c /\ ch_kind (f c) = ch_kind c) ->
  skeleton (map (fun c => if Z.eqb (ch_id c) i then f c else c) chs) = skeleton chs.
Proof.
  intros Hf. unfold skeleton. rewrite map_map. apply map_ext. intros c.
  destruct (Z.eqb (ch_id c) i); [|done]. destruct (Hf c) as [-> ->]. done.
Qed.



(** ** Computations that leave a part of the state alone *)

Section Keeps.
Context {B : Type} (proj : St -> B).

Lemma keeps_ret {A} (a : A) : keeps proj (mret a).
Proof. done. Qed.

Lemma keeps_bind {A C} (m : M A) (k : A -> M C) :
  keeps proj m -> (forall a, keeps proj (k a)) -> keeps proj (m ≫= k).
Proof.
  intros Hm Hk s. unfold mbind, M_bind.
  specialize (Hm s). destruct (m s) as [a s1]. simpl in *.
  by rewrite Hk.
Qed.

Lemma keeps_get_st : keeps proj get_st.
Proof. done. Qed.

Lemma keeps_modify f : (forall s, proj (f s) = proj s) -> keeps proj (modify f).
Proof. intros H s. apply H. Qed.

Lemma keeps_for_each {A} (xs : list A) body :
  (forall x, keeps proj (body x)) -> keeps proj (for_each xs body).
Proof.
  intros H. induction xs as [|x xs IH]; simpl; [apply keeps_ret|].
  apply keeps_bind; [apply H|]. intros _. apply IH.
Qed.

Lemma keeps_fold_m {A C} (f : C -> A -> M C) xs acc :
  (forall acc x, keeps proj (f acc x)) -> keeps proj (fold_m f xs acc).
Proof.
  intros H. revert acc. induction xs as [|x xs IH]; intros acc; simpl;
    [apply keeps_ret|].
  apply keeps_bind; [apply H|]. intros acc'. apply IH.
Qed.

(** The projections the lemmas below are used with do not read the part
    of the state a primitive writes. *)
Hypothesis proj_trace : forall v s, proj (set_trace v s) = proj s.
Hypothesis proj_tape : forall v s, proj (set_api_tape v s) = proj s.
Hypothesis proj_channels : forall v s, proj (set_channels v s) = proj s.
Hypothesis proj_next_id : forall v s, proj (set_next_channel_id v s) = proj s.

Lemma keeps_emit e : keeps proj (emit e).
Proof. intros s. apply proj_trace. Qed.

Lemma keeps_next_outcome : keeps proj next_outcome.
Proof. intros s. unfold next_outcome. destruct (api_tape s); [done|apply proj_tape]. Qed.

Lemma keeps_get_channel i : keeps proj (get_channel i).
Proof. done. Qed.

Lemma keeps_voice_channels : keeps proj voice_channels.
Proof. done. Qed.

Lemma keeps_update_channel i f : keeps proj (update_channel i f).
Proof. intros s. apply proj_channels. Qed.

Lemma keeps_edit_name c name : keeps proj (edit_name c name).
Proof.
  unfold edit_name. apply keeps_bind; [apply keeps_emit|]. intros _.
  apply keeps_bind; [apply keeps_next_outcome|]. intros [];
    try apply keeps_ret.
  apply keeps_bind; [apply keeps_update_channel|]. intros _. apply keeps_ret.
Qed.

Lemma keeps_deny_connect_permissions c : keeps proj (deny_connect_permissions c).
Proof.
  unfold deny_connect_permissions. destruct (_ || _); [|apply keeps_ret].
  apply keeps_bind; [apply keeps_emit|]. intros _.
  apply keeps_bind; [apply keeps_next_outcome|]. intros [];
    try apply keeps_ret.
  apply keeps_update_channel.
Qed.

Lemma keeps_send c content embed url : keeps proj (send c content embed url).
Proof.
  unfold send. apply keeps_bind; [apply keeps_emit|]. intros _.
  apply keeps_next_outcome.
Qed.

Lemma keeps_create_channel kind name cat : keeps proj (create_channel kind name cat).
Proof.
  unfold create_channel. apply keeps_bind; [apply keeps_get_st|]. intros s0.
  apply keeps_bind; [|intros; apply keeps_ret].
  apply keeps_modify. intros s. by rewrite proj_next_id, proj_channels.
Qed.

Lemma keeps_create_category name : keeps proj (create_category name).
Proof.
  unfold create_category. apply keeps_bind; [apply keeps_emit|]. intros _.
  apply keeps_bind; [apply keeps_next_outcome|]. intros [];
    try apply keeps_ret.
  apply keeps_bind; [apply keeps_create_channel|]. intros; apply keeps_ret.
Qed.

Lemma keeps_create_voice_channel name cat : keeps proj (create_voice_channel name cat).
Proof.
  unfold create_voice_channel. apply keeps_bind; [apply keeps_emit|]. intros _.
  apply keeps_bind; [apply keeps_next_outcome|]. intros [];
    try apply keeps_ret.
  apply keeps_bind; [apply keeps_create_channel|]. intros; apply keeps_ret.
Qed.
End Keeps.

#[local] Arguments lookup_channel : simpl never.

Ltac munfold :=
  unfold run, mbind, M_bind, mret, M_ret, get_st, modify, emit, next_outcome,
         get_channel, update_channel in *.

Lemma edits_of_app a b : edits_of (a ++ b) = edits_of a ++ edits_of b.
Proof. unfold edits_of. apply omap_app. Qed.

(** A rename or a change of overwrites moves no channel and changes no kind. *)
Lemma keeps_skeleton_edit_name c name :
  keeps (fun s => skeleton (channels s)) (edit_name c name).
Proof.
  intros s. unfold edit_name. munfold. simpl.
  destruct (api_tape s) as [|[] tape]; simpl; try done; by apply skeleton_update.
Qed.

Lemma keeps_skeleton_deny c :
  keeps (fun s => skeleton (channels s)) (deny_connect_permissions c).
Proof.
  intros s. unfold deny_connect_permissions. destruct (_ || _); [|done].
  munfold. simpl.
  destruct (api_tape s) as [|[] tape]; simpl; try done; by apply skeleton_update.
Qed.

Lemma emits_bind {A C} (m : M A) (k : A -> M C) s e1 e2 :
  emits m s e1 -> emits (k (m s).1) (m s).2 e2 -> emits (m ≫= k) s (e1 ++ e2).
Proof.
  unfold emits, mbind, M_bind. destruct (m s) as [a s1]; simpl.
  intros -> ->. by rewrite app_assoc.
Qed.

Lemma emits_edit_name c name s : emits (edit_name c name) s [EvEdit (ch_id c) name].
Proof.
  unfold emits, edit_name. munfold. simpl.
  destruct (api_tape s) as [|[] tape]; done.
Qed.

Lemma emits_deny c s :
  exists evs, emits (deny_connect_permissions c) s evs /\ edits_of evs = [].
Proof.
  unfold emits, deny_connect_permissions. destruct (_ || _).
  2:{ exists []. simpl. by rewrite app_nil_r. }
  exists [EvSetPermissions (ch_id c)]. munfold. simpl.
  destruct (api_tape s) as [|[] tape]; done.
Qed.

Lemma lookup_channel_id i chs c : lookup_channel i chs = Some c -> ch_id c = i.
Proof.
  unfold lookup_channel. intros H. apply find_some in H as [_ H]. by apply Z.eqb_eq.
Qed.

Lemma emits_edit_surface u s :
  exists evs,
    emits (edit_surface u) s evs /\
    edits_of evs = match voice_id (channels s) u.1 with
                   | Some z => [(z, u.2)]
                   | None => []
                   end.
Proof.
  assert (Hnil : forall m : M unit, m s = (tt, s) -> exists evs,
             emits m s evs /\ edits_of evs = []).
  { intros m Hm. exists []. unfold emits. rewrite Hm. simpl. by rewrite app_nil_r. }
  destruct u as [[i|] name]; simpl; [|by apply Hnil].
  destruct (Z.eqb i 0) eqn:Hi; [by apply Hnil|].
  destruct (lookup_channel i (channels s)) as [c|] eqn:Hc.
  2:{ apply Hnil. munfold. simpl. by rewrite Hc. }
  destruct (is_voice c) eqn:Hv.
  2:{ apply Hnil. munfold. simpl. by rewrite Hc, Hv. }
  pose proof (lookup_channel_id _ _ _ Hc) as <-.
  assert (E : (get_channel (ch_id c) ≫= (fun ch : option channel =>
                 match ch with
                 | Some c0 =>
                     if is_voice c0 then
                       edit_name c0 name ≫= (fun o : api_outcome =>
                         match o with
                         | ApiOk => deny_connect_permissions c0
                         | _ => mret tt
                         end)
                     else mret tt
                 | None => mret tt
                 end)) s
              = (edit_name c name ≫= (fun o : api_outcome =>
                         match o with
                         | ApiOk => deny_connect_permissions c
                         | _ => mret tt
                         end)) s).
  { unfold mbind at 1, M_bind at 1, get_channel. munfold. simpl. by rewrite Hc, Hv. }
  unfold emits. rewrite E. fold (emits (edit_name c name ≫= (fun o : api_outcome =>
                         match o with
                         | ApiOk => deny_connect_permissions c
                         | _ => mret tt
                         end)) s).
  destruct ((edit_name c name s).1) eqn:Ho.
  - destruct (emits_deny c (edit_name c name s).2) as (evs & Hd & Hed).
    exists ([EvEdit (ch_id c) name] ++ evs). split.
    + apply emits_bind; [apply emits_edit_name|]. by rewrite Ho.
    + rewrite edits_of_app, Hed. done.
  - exists ([EvEdit (ch_id c) name] ++ []). split; [|done].
    apply emits_bind; [apply emits_edit_name|]. rewrite Ho.
    unfold emits. simpl. by rewrite app_nil_r.
  - exists ([EvEdit (ch_id c) name] ++ []). split; [|done].
    apply emits_bind; [apply emits_edit_name|]. rewrite Ho.
    unfold emits. simpl. by rewrite app_nil_r.
Qed.

Lemma keeps_edit_surface {B} (proj : St -> B) u :
  (forall v s, proj (set_trace v s) = proj s) ->
  (forall v s, proj (set_api_tape v s) = proj s) ->
  (forall v s, proj (set_channels v s) = proj s) ->
  keeps proj (edit_surface u).
Proof.
  intros H1 H2 H3. destruct u as [[i|] name]; simpl; [|apply keeps_ret].
  destruct (Z.eqb i 0); [apply keeps_ret|].
  apply keeps_bind; [apply keeps_get_channel|]. intros [c|]; [|apply keeps_ret].
  destruct (is_voice c); [|apply keeps_ret].
  apply keeps_bind; [by apply keeps_edit_name|].
  intros []; try apply keeps_ret. by apply keeps_deny_connect_permissions.
Qed.

Lemma keeps_skeleton_edit_surface u :
  keeps (fun s => skeleton (channels s)) (edit_surface u).
Proof.
  destruct u as [[i|] name]; simpl; [|apply keeps_ret].
  destruct (Z.eqb i 0); [apply keeps_ret|].
  apply keeps_bind; [apply keeps_get_channel|]. intros [c|]; [|apply keeps_ret].
  destruct (is_voice c); [|apply keeps_ret].
  apply keeps_bind; [by apply keeps_skeleton_edit_name|].
  intros []; try apply keeps_ret. by apply keeps_skeleton_deny.
Qed.

Lemma omap_voice_id_skeleton chs1 chs2 (us : list (option Z * string)) :
  skeleton chs1 = skeleton chs2 ->
  omap (fun '(i, name) => (fun z => (z, name)) <$> voice_id chs1 i) us =
  omap (fun '(i, name) => (fun z => (z, name)) <$> voice_id chs2 i) us.
Proof.
  intros H. apply list_omap_ext, Forall2_same_length_lookup_2; [done|].
  intros k [i name] [i' name'] H1 H2. rewrite H1 in H2. injection H2 as <- <-.
  by rewrite (voice_id_skeleton chs1 chs2 i H).
Qed.

Lemma emits_for_each_edit_surface us s :
  exists evs,
    emits (for_each us edit_surface) s evs /\
    edits_of evs =
      omap (fun '(i, name) => (fun z => (z, name)) <$> voice_id (channels s) i) us.
Proof.
  revert s. induction us as [|u us IH]; intros s.
  { exists []. unfold emits. simpl. by rewrite app_nil_r. }
  destruct (emits_edit_surface u s) as (e1 & H1 & E1).
  destruct (IH (edit_surface u s).2) as (e2 & H2 & E2).
  exists (e1 ++ e2). split.
  - simpl. apply emits_bind; [done|]. done.
  - rewrite edits_of_app, E1, E2. simpl.
    pose proof (keeps_skeleton_edit_surface u s) as Hsk. simpl in Hsk.
    rewrite (omap_voice_id_skeleton _ _ us Hsk).
    destruct u as [i name]; simpl.
    destruct (voice_id (channels s) i); done.
Qed.

(** ** The statistics change detector *)

Lemma update_same cfg stats s :
  _last_stats s = Some stats -> update_stats_channels cfg stats s = (tt, s).
Proof.
  intros H. unfold update_stats_channels. munfold.
  rewrite H, bool_decide_eq_true_2; done.
Qed.

Lemma update_changed cfg stats s :
  _last_stats s <> Some stats ->
  exists evs,
    trace (run (update_stats_channels cfg stats) s) = trace s ++ evs /\
    edits_of evs = stats_edits cfg s stats /\
    _last_stats (run (update_stats_channels cfg stats) s) = Some stats /\
    vc (run (update_stats_channels cfg stats) s) = vc s.
Proof.
  intros H.
  assert (E : update_stats_channels cfg stats s =
              for_each (stats_updates cfg (vc s) stats) edit_surface
                       (set_last_stats (Some stats) s)).
  { unfold update_stats_channels. munfold.
    rewrite bool_decide_eq_false_2; [done|congruence]. }
  unfold run. rewrite E.
  destruct (emits_for_each_edit_surface (stats_updates cfg (vc s) stats)
              (set_last_stats (Some stats) s)) as (evs & He & Hed).
  exists evs. repeat split.
  - apply He.
  - apply Hed.
  - assert (K : keeps _last_stats
                  (for_each (stats_updates cfg (vc s) stats) edit_surface))
      by (apply keeps_for_each; intros u; by apply keeps_edit_surface).
    by rewrite K.
  - assert (K : keeps vc (for_each (stats_updates cfg (vc s) stats) edit_surface))
      by (apply keeps_for_each; intros u; by apply keeps_edit_surface).
    by rewrite K.
Qed.

(** C1, as stated, fails: the statistics (100, 200, 5) were broadcast last and
    (101, 200, 5) are fetched, so only the subscriber count changed, yet the
    four statistics surfaces are all renamed, the one of the views among them. *)
Lemma stats_one_component_counterexample :
  _last_stats demo_state = Some (100, 200, 5) /\
  edits_of (trace (run (update_stats_channels demo_cfg (101, 200, 5)) demo_state)) =
    [ (1, "📊 Subs: 101"); (2, "👁️ Views: 200");
      (3, "🎞️ Videos: 5"); (4, "🎯 Goal: 1,000") ] /\
  ~ (forall i name,
       (i, name) ∈ edits_of (trace (run (update_stats_channels demo_cfg (101, 200, 5))
                                        demo_state)) ->
       Some i = VC_SUBS_ID (vc demo_state)).
Proof.
  assert (E : edits_of (trace (run (update_stats_channels demo_cfg (101, 200, 5))
                                   demo_state)) =
    [ (1, "📊 Subs: 101"); (2, "👁️ Views: 200");
      (3, "🎞️ Videos: 5"); (4, "🎯 Goal: 1,000") ]) by (vm_compute; reflexivity).
  split; [reflexivity|]. split; [exact E|].
  rewrite E. intros H. specialize (H 2 "👁️ Views: 200").
  assert (Some 2 = VC_SUBS_ID (vc demo_state)) as Hbad.
  { apply H. apply list_elem_of_In. right. left. reflexivity. }
  discriminate Hbad.
Qed.

(** C1, amended: when the fetched statistics differ from the stored ones,
    whichever component changed, the update issues one rename for each of the
    four statistics surfaces (subs, views, videos, goal) whose stored id names
    a voice channel of the guild, in that order, and the stored previous value
    becomes the new tuple. *)
Theorem update_edits_every_stats_surface cfg s prev new :
  _last_stats s = Some prev -> new <> prev ->
  exists evs,
    trace (run (update_stats_channels cfg new) s) = trace s ++ evs /\
    edits_of evs = stats_edits cfg s new /\
    _last_stats (run (update_stats_channels cfg new) s) = Some new.
Proof.
  intros Hp Hne.
  destruct (update_changed cfg new s) as (evs & H1 & H2 & H3 & _); [congruence|].
  by exists evs.
Qed.

Lemma update_edits_every_stats_surface_witness :
  exists evs,
    trace (run (update_stats_channels demo_cfg (101, 200, 5)) demo_state)
      = trace demo_state ++ evs /\
    edits_of evs = stats_edits demo_cfg demo_state (101, 200, 5) /\
    _last_stats (run (update_stats_channels demo_cfg (101, 200, 5)) demo_state)
      = Some (101, 200, 5).
Proof.
  apply (update_edits_every_stats_surface demo_cfg demo_state (100, 200, 5) (101, 200, 5)).
  - reflexivity.
  - discriminate.
Defined.

(** C4: the update is decided by comparing the whole tuple with the stored
    one.  Equal tuples: nothing is issued and the state is unchanged.  A
    different tuple, or no stored tuple yet: the update goes ahead, the new
    tuple is stored and the surfaces are renamed.  Hence a second update with
    the same tuple does nothing. *)
Theorem stats_change_detector cfg stats s :
  (_last_stats s = Some stats -> update_stats_channels cfg stats s = (tt, s)) /\
  (_last_stats s <> Some stats ->
   exists evs,
     trace (run (update_stats_channels cfg stats) s) = trace s ++ evs /\
     edits_of evs = stats_edits cfg s stats /\
     _last_stats (run (update_stats_channels cfg stats) s) = Some stats) /\
  (_last_stats s = None ->
   _last_stats (run (update_stats_channels cfg stats) s) = Some stats) /\
  update_stats_channels cfg stats (run (update_stats_channels cfg stats) s)
    = (tt, run (update_stats_channels cfg stats) s).
Proof.
  assert (Hch : _last_stats s <> Some stats ->
     exists evs,
       trace (run (update_stats_channels cfg stats) s) = trace s ++ evs /\
       edits_of evs = stats_edits cfg s stats /\
       _last_stats (run (update_stats_channels cfg stats) s) = Some stats).
  { intros H. destruct (update_changed cfg stats s H) as (evs & H1 & H2 & H3 & _).
    by exists evs. }
  split; [apply update_same|]. split; [exact Hch|]. split.
  - intros Hn. destruct Hch as (evs & _ & _ & H); [congruence|exact H].
  - apply update_same.
    destruct (decide (_last_stats s = Some stats)) as [Heq|Hne].
    + unfold run. by rewrite (update_same cfg stats s Heq).
    + destruct (Hch Hne) as (evs & _ & _ & H). exact H.
Qed.

Lemma stats_change_detector_witness :
  update_stats_channels demo_cfg (100, 200, 5) demo_state = (tt, demo_state) /\
  _last_stats (run (update_stats_channels demo_cfg (7, 8, 9)) empty_state)
    = Some (7, 8, 9).
Proof.
  split.
  - apply (proj1 (stats_change_detector demo_cfg (100, 200, 5) demo_state)).
    reflexivity.
  - apply (proj1 (proj2 (proj2 (stats_change_detector demo_cfg (7, 8, 9) empty_state)))).
    reflexivity.
Defined.

(** While every call of the chat API is refused, no channel changes. *)
Lemma refused_edit_surface u s :
  Forall (fun o => o <> ApiOk) (api_tape s) ->
  (0 < length (api_tape s))%nat ->
  channels (run (edit_surface u) s) = channels s /\
  Forall (fun o => o <> ApiOk) (api_tape (run (edit_surface u) s)) /\
  (length (api_tape s) <= S (length (api_tape (run (edit_surface u) s))))%nat.
Proof.
  intros Hf Hlen. destruct u as [[i|] name]; simpl; munfold; simpl.
  2:{ split; [done|]. split; [done|lia]. }
  destruct (Z.eqb i 0); simpl.
  { split; [done|]. split; [done|lia]. }
  destruct (lookup_channel i (channels s)) as [c|]; simpl.
  2:{ split; [done|]. split; [done|lia]. }
  destruct (is_voice c); simpl.
  2:{ split; [done|]. split; [done|lia]. }
  unfold edit_name. munfold. simpl.
  destruct (api_tape s) as [|o tape] eqn:Ht; simpl in *; [lia|].
  apply Forall_cons in Hf as [Ho Hf].
  destruct o; simpl; try done; (split; [done|]; split; [done|lia]).
Qed.

Lemma refused_for_each us s :
  Forall (fun o => o <> ApiOk) (api_tape s) ->
  (length us <= length (api_tape s))%nat ->
  channels (run (for_each us edit_surface) s) = channels s.
Proof.
  revert s. induction us as [|u us IH]; intros s Hf Hlen; [done|].
  simpl in Hlen.
  destruct (refused_edit_surface u s Hf) as (Hc & Hf' & Hl); [lia|].
  unfold run in *. simpl. munfold.
  destruct (edit_surface u s) as [[] s1] eqn:E. simpl in *.
  rewrite IH; [done|done|lia].
Qed.

(** C10: a changed tuple is stored before the loop over the surfaces runs, so
    it is stored whatever the chat API answers; when every call is refused no
    channel is renamed, and still a later update with the same tuple, in any
    state that holds the stored tuple, issues nothing. *)
Theorem failed_broadcast_not_retried cfg stats s :
  _last_stats s <> Some stats ->
  update_stats_channels cfg stats s
    = for_each (stats_updates cfg (vc s) stats) edit_surface
               (set_last_stats (Some stats) s) /\
  _last_stats (run (update_stats_channels cfg stats) s) = Some stats /\
  (Forall (fun o => o <> ApiOk) (api_tape s) ->
   (4 <= length (api_tape s))%nat ->
   channels (run (update_stats_channels cfg stats) s) = channels s) /\
  (forall s2, _last_stats s2 = _last_stats (run (update_stats_channels cfg stats) s) ->
     update_stats_channels cfg stats s2 = (tt, s2)).
Proof.
  intros H.
  assert (E : update_stats_channels cfg stats s =
              for_each (stats_updates cfg (vc s) stats) edit_surface
                       (set_last_stats (Some stats) s)).
  { unfold update_stats_channels. munfold.
    rewrite bool_decide_eq_false_2; [done|congruence]. }
  destruct (update_changed cfg stats s H) as (evs & _ & _ & Hl & _).
  split; [exact E|]. split; [exact Hl|]. split.
  - intros Hf Hlen. unfold run. rewrite E.
    apply (refused_for_each _ (set_last_stats (Some stats) s)); [exact Hf|].
    destruct stats as [[a b] c]. simpl. exact Hlen.
  - intros s2 H2. apply update_same. by rewrite H2.
Qed.

Lemma failed_broadcast_not_retried_witness :
  channels (run (update_stats_channels demo_cfg (101, 200, 5)) refusing_state)
    = channels refusing_state /\
  update_stats_channels demo_cfg (101, 200, 5)
      (run (update_stats_channels demo_cfg (101, 200, 5)) refusing_state)
    = (tt, run (update_stats_channels demo_cfg (101, 200, 5)) refusing_state).
Proof.
  assert (Hne : _last_stats refusing_state <> Some (101, 200, 5)) by discriminate.
  destruct (failed_broadcast_not_retried demo_cfg (101, 200, 5) refusing_state Hne)
    as (_ & _ & Hc & Hs).
  split.
  - apply Hc; [|simpl; lia].
    repeat constructor; discriminate.
  - apply Hs. reflexivity.
Defined.

Section KeepsIds.
Context {B : Type} (proj : St -> B).
Hypothesis proj_trace : forall v s, proj (set_trace v s) = proj s.
Hypothesis proj_tape : forall v s, proj (set_api_tape v s) = proj s.
Hypothesis proj_channels : forall v s, proj (set_channels v s) = proj s.
Hypothesis proj_next_id : forall v s, proj (set_next_channel_id v s) = proj s.

Lemma keeps_by_id i : keeps proj (by_id i).
Proof.
  destruct i as [z|]; simpl; [|apply keeps_ret].
  destruct (Z.eqb z 0); [apply keeps_ret|].
  apply keeps_bind; [apply keeps_get_channel|]. intros; apply keeps_ret.
Qed.

Lemma keeps_find_vc_by_name_or_prefix cat name :
  keeps proj (find_vc_by_name_or_prefix cat name).
Proof.
  unfold find_vc_by_name_or_prefix.
  apply keeps_bind; [apply keeps_voice_channels|]. intros vcs.
  destruct (List.find _ vcs); apply keeps_ret.
Qed.

Lemma keeps_find_existing cat key name : keeps proj (find_existing cat key name).
Proof.
  unfold find_existing. destruct (String.eqb key "live").
  - apply keeps_bind; [apply keeps_find_vc_by_name_or_prefix|].
    intros [c|]; [apply keeps_ret|].
    apply keeps_bind; [apply keeps_find_vc_by_name_or_prefix|].
    intros [c|]; [apply keeps_ret|]. apply keeps_find_vc_by_name_or_prefix.
  - apply keeps_find_vc_by_name_or_prefix.
Qed.

Lemma keeps_resolve_category cfg : keeps proj (resolve_category cfg).
Proof.
  unfold resolve_category. destruct (String.eqb _ ""); [apply keeps_ret|].
  apply keeps_bind; [apply keeps_get_st|]. intros s.
  destruct (List.find _ _); [apply keeps_ret|].
  by apply keeps_create_category.
Qed.

Lemma keeps_resolve_by_id ids : keeps proj (resolve_by_id ids).
Proof.
  unfold resolve_by_id. apply keeps_fold_m. intros acc [key name].
  apply keeps_bind; [apply keeps_by_id|]. intros [c|]; [|apply keeps_ret].
  apply keeps_bind; [by apply keeps_deny_connect_permissions|].
  intros; apply keeps_ret.
Qed.

Lemma keeps_discover_or_create cat resolved :
  keeps proj (discover_or_create cat resolved).
Proof.
  unfold discover_or_create. apply keeps_fold_m. intros acc [key name].
  destruct (acc !! key); [apply keeps_ret|].
  apply keeps_bind; [apply keeps_find_existing|]. intros [c|].
  - apply keeps_bind; [by apply keeps_deny_connect_permissions|].
    intros; apply keeps_ret.
  - apply keeps_bind; [by apply keeps_create_voice_channel|]. intros [c|].
    + apply keeps_bind; [by apply keeps_deny_connect_permissions|].
      intros; apply keeps_ret.
    + apply keeps_ret.
Qed.
End KeepsIds.

(** ** The channel-id store *)

Lemma dom_update_id_cache ids cache :
  dom (update_id_cache ids cache) = dom cache ∪ roles.
Proof.
  unfold update_id_cache. rewrite !dom_insert_L.
  unfold roles. simpl. apply set_eq. intros x.
  rewrite !elem_of_union, !elem_of_singleton, elem_of_empty. tauto.
Qed.

Lemma dom_serializable ids : dom (serializable ids) ⊆ dom ids.
Proof. unfold serializable. apply dom_omap_subseteq. Qed.

Lemma dom_load_ids f : dom (load_ids f) ⊆ dom (file_object f).
Proof.
  destruct f; simpl; try (rewrite dom_empty_L; done). apply dom_omap_subseteq.
Qed.

Lemma store_ids_spec cfg resolved s :
  exists ids,
    _id_cache (run (store_ids cfg resolved) s) = update_id_cache ids (_id_cache s) /\
    id_store_file (run (store_ids cfg resolved) s)
      = JsonObject (serializable (update_id_cache ids (_id_cache s))).
Proof. eexists. unfold run, store_ids, save_ids. munfold. simpl. done. Qed.

Lemma ensure_ends_in_store_ids cfg s :
  exists resolved s3,
    run (ensure_stats_voice_channels cfg) s = run (store_ids cfg resolved) s3 /\
    _id_cache s3 = _id_cache s.
Proof.
  unfold run, ensure_stats_voice_channels.
  unfold mbind, M_bind, get_st.
  pose proof (keeps_resolve_category _id_cache ltac:(done) ltac:(done)
                ltac:(done) ltac:(done) cfg s) as K1.
  destruct (resolve_category cfg s) as [cat s1]. simpl in K1.
  pose proof (keeps_resolve_by_id _id_cache ltac:(done) ltac:(done)
                ltac:(done) (vc s1) s1) as K2.
  destruct (resolve_by_id (vc s1) s1) as [r1 s2]. simpl in K2.
  pose proof (keeps_discover_or_create _id_cache ltac:(done) ltac:(done)
                ltac:(done) ltac:(done) cat r1 s2) as K3.
  destruct (discover_or_create cat r1 s2) as [r2 s3]. simpl in K3.
  exists r2, s3. split; [done|]. by rewrite K3, K2, K1.
Qed.

Lemma ensure_spec cfg s :
  exists ids,
    _id_cache (run (ensure_stats_voice_channels cfg) s)
      = update_id_cache ids (_id_cache s) /\
    id_store_file (run (ensure_stats_voice_channels cfg) s)
      = JsonObject (serializable (update_id_cache ids (_id_cache s))).
Proof.
  destruct (ensure_ends_in_store_ids cfg s) as (r & s3 & -> & <-).
  apply store_ids_spec.
Qed.

Lemma size_roles : size roles = 6%nat.
Proof. vm_compute. reflexivity. Qed.

(** Both the cache and the saved store only hold keys of the file the
    module was loaded on and the six roles. *)
Lemma id_store_run_keys f s :
  id_store_run f s ->
  dom (_id_cache s) ⊆ dom (file_object f) ∪ roles /\
  dom (file_object (id_store_file s)) ⊆ dom (file_object f) ∪ roles.
Proof.
  induction 1 as [s Hf | cfg s Hrun [IH1 IH2] | s s' Hrun [IH1 IH2] Hc Hs].
  - unfold run, init_ids. munfold. simpl. rewrite Hf. split.
    + etrans; [apply dom_load_ids|]. apply union_subseteq_l.
    + apply union_subseteq_l.
  - destruct (ensure_spec cfg s) as (ids & -> & ->). simpl.
    assert (H : dom (update_id_cache ids (_id_cache s)) ⊆ dom (file_object f) ∪ roles).
    { rewrite dom_update_id_cache. apply union_least; [done|apply union_subseteq_r]. }
    split; [done|]. etrans; [apply dom_serializable|done].
  - by rewrite Hc, Hs.
Qed.

Lemma size_within_roles (d : gmap string pyval) (keys : gset string) :
  dom d ⊆ keys ∪ roles -> (size d <= 6 + size (keys ∖ roles))%nat.
Proof.
  intros H. rewrite <- size_dom.
  assert (H' : dom d ⊆ roles ∪ keys ∖ roles).
  { intros x Hx. apply H in Hx. apply elem_of_union.
    destruct (decide (x ∈ roles)); [by left|right].
    apply elem_of_difference. split; [|done].
    apply elem_of_union in Hx as [|]; done. }
  apply subseteq_size in H'.
  rewrite size_union in H'; [rewrite size_roles in H'; lia|].
  intros x H1 H2. apply elem_of_difference in H2 as [_ H2]. done.
Qed.

(** C2, as stated, fails: loaded on a store file that holds the six roles and
    the key [backup], the module keeps that key in its cache, and the store
    saved after the channels are resolved has seven entries. *)
Lemma store_beyond_six_roles_counterexample :
  let s := run (ensure_stats_voice_channels demo_cfg)
             (run init_ids (set_id_store_file seven_key_store
                              (set_channels demo_channels empty_state))) in
  id_store_run seven_key_store s /\
  size (file_object (id_store_file s)) = 7%nat /\
  file_object (id_store_file s) !! "backup" = Some (VInt 7).
Proof.
  split; [|split].
  - apply run_resolve, run_load. reflexivity.
  - vm_compute. reflexivity.
  - vm_compute. reflexivity.
Qed.

(** C2, amended: in every state reached by loading the store and resolving
    and saving any number of times, the saved store holds at most the six
    roles and the other keys of the file that was loaded; so it holds at most
    six entries when that file had no key besides the roles. *)
Theorem store_holds_roles_and_loaded_keys f s :
  id_store_run f s ->
  (size (file_object (id_store_file s)) <= 6 + size (extra_keys f))%nat /\
  (dom (file_object f) ⊆ roles -> (size (file_object (id_store_file s)) <= 6)%nat).
Proof.
  intros Hrun. destruct (id_store_run_keys f s Hrun) as [_ H].
  pose proof (size_within_roles _ _ H) as Hsz. split; [exact Hsz|].
  intros Hsub. unfold extra_keys in *.
  assert (E : dom (file_object f) ∖ roles = ∅).
  { apply set_eq. intros x. rewrite elem_of_difference, elem_of_empty.
    split; [|done]. intros [H1 H2]. apply H2, Hsub, H1. }
  rewrite E, size_empty in Hsz. lia.
Qed.

Lemma store_holds_roles_and_loaded_keys_witness :
  (size (file_object (id_store_file
      (run (ensure_stats_voice_channels demo_cfg)
           (run init_ids (set_id_store_file seven_key_store
                            (set_channels demo_channels empty_state))))))
   <= 6 + size (extra_keys seven_key_store))%nat.
Proof.
  apply (store_holds_roles_and_loaded_keys seven_key_store).
  apply run_resolve, run_load. reflexivity.
Defined.

(** ** The entry cache *)

Lemma lookup_dict_update stored (e : gmap string pyval) k :
  dict_update stored (nonempty_fields e) !! k =
    match e !! k with
    | Some v => if truthy v then Some v else stored !! k
    | None => stored !! k
    end.
Proof.
  unfold dict_update, nonempty_fields.
  destruct (e !! k) as [v|] eqn:E; [destruct (truthy v) eqn:T|].
  - apply lookup_union_Some_l. by apply map_lookup_filter_Some_2.
  - apply lookup_union_r. apply map_lookup_filter_None_2. right.
    intros x Hx. simpl. congruence.
  - apply lookup_union_r. apply map_lookup_filter_None_2. by left.
Qed.

Lemma accumulate_present cache (e : gmap string pyval) vid stored :
  e !! "id" = Some (VStr vid) -> cache !! vid = Some stored ->
  accumulate_from_rss cache [e]
    = Some (<[vid := dict_update stored (nonempty_fields e)]> cache, 0).
Proof. intros Hid Hc. simpl. by rewrite Hid, Hc. Qed.

Lemma accumulate_absent_then_present cache (e1 e2 : gmap string pyval) vid :
  e1 !! "id" = Some (VStr vid) -> e2 !! "id" = Some (VStr vid) ->
  cache !! vid = None ->
  accumulate_from_rss cache [e1; e2]
    = Some (<[vid := dict_update e1 (nonempty_fields e2)]> cache, 1).
Proof.
  intros H1 H2 Hc. simpl. rewrite H1, Hc, H2, lookup_insert_eq. simpl.
  by rewrite insert_insert_eq.
Qed.

(** C3: merging an entry whose id is in the cache adds nothing and sets, in
    the stored entry, exactly the fields for which the incoming entry has a
    non-empty value; every other field keeps its stored value.  So a stored
    thumbnail survives an incoming entry whose thumbnail is empty or absent,
    and merging an entry and then a second sighting of it without thumbnail
    keeps the thumbnail of the first. *)
Theorem merge_updates_only_nonempty_fields :
  (forall cache (e : gmap string pyval) vid stored,
     e !! "id" = Some (VStr vid) -> cache !! vid = Some stored ->
     exists merged,
       accumulate_from_rss cache [e] = Some (<[vid := merged]> cache, 0) /\
       (forall k, merged !! k =
                    match e !! k with
                    | Some v => if truthy v then Some v else stored !! k
                    | None => stored !! k
                    end) /\
       (forall t, stored !! "thumb" = Some t -> truthy t = true ->
                  truthy (dict_get e "thumb") = false ->
                  merged !! "thumb" = Some t)) /\
  (forall cache (e1 e2 : gmap string pyval) vid t,
     e1 !! "id" = Some (VStr vid) -> e2 !! "id" = Some (VStr vid) ->
     cache !! vid = None ->
     e1 !! "thumb" = Some t -> truthy t = true ->
     truthy (dict_get e2 "thumb") = false ->
     exists cache' merged,
       accumulate_from_rss cache [e1; e2] = Some (cache', 1) /\
       cache' !! vid = Some merged /\ merged !! "thumb" = Some t).
Proof.
  split.
  - intros cache e vid stored Hid Hc.
    exists (dict_update stored (nonempty_fields e)).
    split; [by apply accumulate_present|]. split; [apply lookup_dict_update|].
    intros t Ht Htt Hf. rewrite lookup_dict_update.
    unfold dict_get in Hf. destruct (e !! "thumb") as [v|]; simpl in Hf; [|done].
    by rewrite Hf.
  - intros cache e1 e2 vid t H1 H2 Hc Ht Htt Hf.
    exists (<[vid := dict_update e1 (nonempty_fields e2)]> cache),
           (dict_update e1 (nonempty_fields e2)).
    split; [by apply accumulate_absent_then_present|].
    split; [apply lookup_insert_eq|].
    rewrite lookup_dict_update.
    unfold dict_get in Hf. destruct (e2 !! "thumb") as [v|]; simpl in Hf; [|done].
    by rewrite Hf.
Qed.

Lemma merge_updates_only_nonempty_fields_witness :
  exists merged,
    accumulate_from_rss {["a" := demo_entry_full]} [demo_entry_bare]
      = Some (<["a" := merged]> {["a" := demo_entry_full]}, 0) /\
    merged !! "thumb" = Some (VStr "https://i.ytimg.com/vi/a/hq.jpg").
Proof.
  destruct (proj1 merge_updates_only_nonempty_fields
              {["a" := demo_entry_full]} demo_entry_bare "a" demo_entry_full)
    as (merged & Hacc & _ & Hthumb).
  - reflexivity.
  - reflexivity.
  - exists merged. split; [exact Hacc|].
    apply Hthumb; reflexivity.
Defined.

(** ** The feed parser *)

Lemma truthy_of_opt_inv v :
  truthy v = true -> (exists o, v = of_opt o) -> exists s, v = VStr s /\ s <> "".
Proof.
  intros Ht [[s|] ->]; simpl in *; [|done].
  exists s. split; [done|]. intros ->. done.
Qed.

Lemma entry_video_id_of_opt entry : exists o, entry_video_id entry = of_opt o.
Proof.
  unfold entry_video_id. destruct (find ns_yt "videoId" entry) as [v|].
  - by exists (el_text v).
  - by exists None.
Qed.

Lemma entry_link_of_opt entry : exists o, entry_link entry = of_opt o.
Proof.
  unfold entry_link. destruct (find ns_atom "link" entry) as [l|].
  - by exists (el_attrib l !! "href").
  - by exists None.
Qed.

Lemma parse_entry_Some entry e :
  parse_entry entry = Some e <->
  truthy (entry_video_id entry) = true /\ truthy (entry_link entry) = true /\
  e = mk_entry (entry_video_id entry) (entry_title entry)
               (entry_link entry) (entry_thumb entry).
Proof.
  unfold parse_entry.
  destruct (truthy (entry_video_id entry)), (truthy (entry_link entry)); simpl;
    split; try (intros [= <-]; done); try (intros (? & ? & ?); done).
  intros (_ & _ & ->). done.
Qed.

Lemma parse_entry_None entry :
  parse_entry entry = None <->
  truthy (entry_video_id entry) = false \/ truthy (entry_link entry) = false.
Proof.
  unfold parse_entry.
  destruct (truthy (entry_video_id entry)), (truthy (entry_link entry)); simpl;
    split; try done; try (by left); try (by right); intros [|]; done.
Qed.

(** C8, as stated, fails: a candidate with an id, a link and a title element
    without text is kept, and its title is [None]: the parser puts the
    placeholder only where the title element is absent. *)
Lemma title_without_text_counterexample :
  parse_rss_entries untitled_feed = [mk_entry (VStr "u") VNone (VStr "LU") VNone] /\
  ~ (forall e, e ∈ parse_rss_entries untitled_feed ->
       exists title, e !! "title" = Some (VStr title)).
Proof.
  assert (E : parse_rss_entries untitled_feed
              = [mk_entry (VStr "u") VNone (VStr "LU") VNone])
    by (vm_compute; reflexivity).
  split; [exact E|]. intros H.
  destruct (H (mk_entry (VStr "u") VNone (VStr "LU") VNone)) as [title Ht].
  - rewrite E. by left.
  - vm_compute in Ht. discriminate Ht.
Qed.

(** C8, amended: every entry the parser returns has a non-empty id and a
    non-empty link; the output is what the [atom:entry] candidates yield, in
    order, a candidate yielding nothing exactly when its id or its link is
    missing or empty; a candidate without title element is kept, with the
    placeholder title; a candidate with a title element is kept with the
    text of that element as title, which is [None] when the element has no
    text. *)
Theorem parser_keeps_entries_with_id_and_link root :
  (* every entry of the output has a non-empty id and a non-empty link *)
  (forall e, e ∈ parse_rss_entries root ->
     exists vid link,
       e !! "id" = Some (VStr vid) /\ vid <> "" /\
       e !! "link" = Some (VStr link) /\ link <> "") /\
  (* the output is what the candidates yield, in order, and a candidate
     yields nothing exactly when its id or its link is missing or empty *)
  parse_rss_entries root = omap parse_entry (findall ns_atom "entry" root) /\
  (forall entry,
     parse_entry entry = None <->
     truthy (entry_video_id entry) = false \/ truthy (entry_link entry) = false) /\
  (* a candidate without a title element is kept, with the placeholder *)
  (forall entry e,
     find ns_atom "title" entry = None -> parse_entry entry = Some e ->
     e !! "title" = Some (VStr "Video")) /\
  (forall entry,
     truthy (entry_video_id entry) = true -> truthy (entry_link entry) = true ->
     is_Some (parse_entry entry)) /\
  (* a title element is read as it is: its text, or [None] when it has
     none; the candidate is kept and the parser puts no placeholder *)
  (forall entry t e,
     find ns_atom "title" entry = Some t -> parse_entry entry = Some e ->
     e !! "title" = Some (of_opt (el_text t))).
Proof.
  split; [|split; [done|split; [apply parse_entry_None|split; [|split]]]].
  - intros e He. unfold parse_rss_entries in He.
    apply list_elem_of_omap in He as (entry & _ & He).
    apply parse_entry_Some in He as (Hid & Hlink & ->).
    destruct (truthy_of_opt_inv _ Hid (entry_video_id_of_opt entry)) as (vid & Ev & Hv).
    destruct (truthy_of_opt_inv _ Hlink (entry_link_of_opt entry)) as (link & El & Hl).
    exists vid, link. rewrite Ev, El. unfold mk_entry.
    repeat split; try done.
  - intros entry e Ht He. apply parse_entry_Some in He as (_ & _ & ->).
    unfold entry_title. rewrite Ht. reflexivity.
  - intros entry H1 H2. unfold parse_entry. rewrite H1, H2. by eexists.
  - intros entry t e Ht He. apply parse_entry_Some in He as (_ & _ & ->).
    unfold entry_title. rewrite Ht. reflexivity.
Qed.

Example parse_demo_feed : parse_rss_entries demo_feed = [demo_entry_a; demo_entry_b].
Proof. vm_compute. reflexivity. Qed.

Lemma parser_keeps_entries_with_id_and_link_witness :
  (exists vid link,
     demo_entry_b !! "id" = Some (VStr vid) /\ vid <> "" /\
     demo_entry_b !! "link" = Some (VStr link) /\ link <> "") /\
  demo_entry_b !! "title" = Some (VStr "Video").
Proof.
  destruct (parser_keeps_entries_with_id_and_link demo_feed)
    as (Hout & _ & _ & Htitle & _ & _).
  split.
  - apply Hout. rewrite parse_demo_feed. apply list_elem_of_In. right. by left.
  - apply (Htitle (Element (qname ns_atom "entry") ∅ None
                     [ leaf ns_yt "videoId" (Some "b"); link_to "L2" ])).
    + reflexivity.
    + vm_compute. reflexivity.
Defined.

(** ** The feed-refresh cycle *)

Section KeepsRandom.
Context {B : Type} (proj : St -> B).
Hypothesis proj_rng : forall v s, proj (set_rng v s) = proj s.

Lemma keeps_next_random : keeps proj next_random.
Proof. intros s. unfold next_random. destruct (rng s); [done|apply proj_rng]. Qed.

Lemma keeps_randint lo span : keeps proj (randint lo span).
Proof.
  unfold randint. apply keeps_bind; [apply keeps_next_random|].
  intros; apply keeps_ret.
Qed.

Lemma keeps_shuffle_from {A} i (l : list A) : keeps proj (shuffle_from i l).
Proof.
  revert l. induction i as [|i IH]; intros l; simpl; [apply keeps_ret|].
  apply keeps_bind; [apply keeps_next_random|]. intros r. apply IH.
Qed.

Lemma keeps_shuffle {A} (l : list A) : keeps proj (shuffle l).
Proof. apply keeps_shuffle_from. Qed.
End KeepsRandom.

Lemma accumulate_added_nonneg entries cache cache' added :
  accumulate_from_rss cache entries = Some (cache', added) -> 0 <= added.
Proof.
  revert cache cache' added.
  induction entries as [|e rest IH]; intros cache cache' added H; simpl in H.
  { injection H as _ <-. lia. }
  destruct (e !! "id") as [[]|]; try done.
  destruct (cache !! s) as [stored|].
  - by apply IH in H.
  - destruct (accumulate_from_rss (<[s:=e]> cache) rest) as [[c n]|] eqn:E;
      simpl in H; [|done].
    injection H as _ <-. apply IH in E. lia.
Qed.

Lemma run_bind {A B} (m : M A) (k : A -> M B) s :
  run (m ≫= k) s = run (k (m s).1) (m s).2.
Proof. unfold run, mbind, M_bind. by destruct (m s). Qed.

Lemma requeue_keeps {B} (proj : St -> B) (l : list (gmap string pyval)) :
  (forall v s, proj (set_rng v s) = proj s) ->
  (forall v s, proj (set_reminder_queue v s) = proj s) ->
  keeps proj (shuffle l ≫= (fun queue =>
                modify (set_reminder_queue queue) ;; mret Returned)).
Proof.
  intros H1 H2. apply keeps_bind; [by apply keeps_shuffle|]. intros q.
  apply keeps_bind; [by apply keeps_modify|]. intros; apply keeps_ret.
Qed.

Lemma merge_and_requeue_spec cfg entries s cache' added :
  accumulate_from_rss (load_rss_cache (rss_cache_file s)) entries
    = Some (cache', added) ->
  (added <> 0 ->
   trace (run (merge_and_requeue cfg entries) s)
     = trace s ++ [EvWriteFile (RSS_CACHE_PATH cfg)] /\
   rss_cache_file (run (merge_and_requeue cfg entries) s)
     = JsonObject (VDict <$> cache')) /\
  (added = 0 ->
   trace (run (merge_and_requeue cfg entries) s) = trace s /\
   rss_cache_file (run (merge_and_requeue cfg entries) s) = rss_cache_file s).
Proof.
  intros Hacc. unfold merge_and_requeue.
  rewrite run_bind. unfold get_st at 1 2. simpl. rewrite Hacc.
  rewrite run_bind.
  pose proof (requeue_keeps trace (map_to_list cache').*2 ltac:(done) ltac:(done)) as Kt.
  pose proof (requeue_keeps rss_cache_file (map_to_list cache').*2
                ltac:(done) ltac:(done)) as Kf.
  unfold keeps in Kt, Kf. unfold run. rewrite !Kt, !Kf.
  split.
  - intros Hne. apply Z.eqb_neq in Hne. rewrite Hne.
    unfold save_rss_cache. munfold. simpl. done.
  - intros ->. simpl. done.
Qed.

Lemma writes_of_app a b : writes_of (a ++ b) = writes_of a ++ writes_of b.
Proof. unfold writes_of. apply omap_app. Qed.

(** C9: a run of the feed-refresh task writes the cache file, once, if and
    only if its merge added at least one entry; otherwise it writes no file
    and the cache file is as it was.  The same holds for the merge step
    itself, which [on_ready] shares. *)
Theorem cache_written_iff_entry_added cfg lib s :
  (exists evs,
     trace (run (rss_refresh_loop cfg lib) s) = trace s ++ evs /\
     (writes_of evs = [RSS_CACHE_PATH cfg] <->
      exists n, cycle_added cfg lib s = Some n /\ 0 < n) /\
     (writes_of evs = [] <->
      ~ exists n, cycle_added cfg lib s = Some n /\ 0 < n) /\
     ((~ exists n, cycle_added cfg lib s = Some n /\ 0 < n) ->
      rss_cache_file (run (rss_refresh_loop cfg lib) s) = rss_cache_file s)) /\
  (forall entries cache' added,
     accumulate_from_rss (load_rss_cache (rss_cache_file s)) entries
       = Some (cache', added) ->
     (0 < added ->
      trace (run (merge_and_requeue cfg entries) s)
        = trace s ++ [EvWriteFile (RSS_CACHE_PATH cfg)] /\
      rss_cache_file (run (merge_and_requeue cfg entries) s)
        = JsonObject (VDict <$> cache')) /\
     (added = 0 ->
      trace (run (merge_and_requeue cfg entries) s) = trace s /\
      rss_cache_file (run (merge_and_requeue cfg entries) s) = rss_cache_file s)).
Proof.
  split.
  2:{ intros entries cache' added Hacc.
      destruct (merge_and_requeue_spec cfg entries s cache' added Hacc) as [H1 H2].
      split; [|exact H2]. intros Hpos. apply H1. lia. }
  (* the cycles that stop before the merge write nothing *)
  assert (Hquiet : forall evs,
    cycle_added cfg lib s = None ->
    writes_of evs = [] ->
    trace (run (rss_refresh_loop cfg lib) s) = trace s ++ evs ->
    rss_cache_file (run (rss_refresh_loop cfg lib) s) = rss_cache_file s ->
    exists evs,
     trace (run (rss_refresh_loop cfg lib) s) = trace s ++ evs /\
     (writes_of evs = [RSS_CACHE_PATH cfg] <->
      exists n, cycle_added cfg lib s = Some n /\ 0 < n) /\
     (writes_of evs = [] <->
      ~ exists n, cycle_added cfg lib s = Some n /\ 0 < n) /\
     ((~ exists n, cycle_added cfg lib s = Some n /\ 0 < n) ->
      rss_cache_file (run (rss_refresh_loop cfg lib) s) = rss_cache_file s)).
  { intros evs Hc Hw Ht Hf. exists evs. rewrite Hc, Hw.
    split; [exact Ht|]. split; [|split].
    - split; [done|]. intros (n & Hn & _). done.
    - split; [|done]. intros _ (n & Hn & _). done.
    - intros _. exact Hf. }
  unfold cycle_added in *. unfold run, rss_refresh_loop in *.
  destruct (YOUTUBE_CHANNEL_ID cfg) as [cid|].
  2:{ apply (Hquiet []); try done. simpl. by rewrite app_nil_r. }
  destruct (String.eqb cid "").
  { apply (Hquiet []); try done. simpl. by rewrite app_nil_r. }
  unfold http_get in *. munfold. simpl in *.
  destruct (web s (channel_rss_url cid)) as [| |text].
  1,2: by apply (Hquiet [EvHttpGet (channel_rss_url cid)]).
  destruct (ET_fromstring lib text) as [root|].
  2: by apply (Hquiet [EvHttpGet (channel_rss_url cid)]).
  clear Hquiet.
  set (s1 := set_trace (trace s ++ [EvHttpGet (channel_rss_url cid)]) s).
  destruct (accumulate_from_rss (load_rss_cache (rss_cache_file s))
              (parse_rss_entries root)) as [[cache' added]|] eqn:Hacc.
  2:{ exists [EvHttpGet (channel_rss_url cid)].
      unfold merge_and_requeue. munfold. simpl. rewrite Hacc. simpl.
      split; [done|]. split; [|split]; try done.
      - split; [done|]. intros (n & Hn & _). done.
      - split; [|done]. intros _ (n & Hn & _). done. }
  pose proof (accumulate_added_nonneg _ _ _ _ Hacc) as Hnn.
  destruct (merge_and_requeue_spec cfg (parse_rss_entries root) s1 cache' added Hacc)
    as [Hpos Hzero].
  unfold run in Hpos, Hzero. simpl.
  destruct (decide (added = 0)) as [->|Hne].
  - destruct (Hzero eq_refl) as [Ht Hf].
    exists [EvHttpGet (channel_rss_url cid)]. rewrite Ht, Hf. simpl.
    split; [done|]. split; [|split]; try done.
    + split; [done|]. intros (n & [= <-] & Hn). lia.
    + split; [|done]. intros _ (n & [= <-] & Hn). lia.
  - destruct (Hpos Hne) as [Ht Hf].
    exists [EvHttpGet (channel_rss_url cid); EvWriteFile (RSS_CACHE_PATH cfg)].
    rewrite Ht. simpl. split; [by rewrite <- app_assoc|]. split; [|split].
    + split; [|done]. intros _. exists added. split; [done|lia].
    + split; [done|]. intros H. exfalso. apply H. exists added. split; [done|lia].
    + intros H. exfalso. apply H. exists added. split; [done|lia].
Qed.

Lemma cache_written_iff_entry_added_witness :
  exists evs,
    trace (run (rss_refresh_loop demo_cfg feed_lib) feed_state)
      = trace feed_state ++ evs /\
    writes_of evs = ["rss_cache.json"].
Proof.
  destruct (proj1 (cache_written_iff_entry_added demo_cfg feed_lib feed_state))
    as (evs & Ht & Hiff & _).
  exists evs. split; [exact Ht|].
  apply Hiff. exists 2. split; [vm_compute; reflexivity|lia].
Defined.

(** ** The reminder queue *)

Lemma last_Some_app {A} (l : list A) x :
  List.last (Some <$> (l ++ [x])) None = Some x.
Proof.
  rewrite fmap_app. simpl. apply last_last.
Qed.

Lemma pop_app {A} (l : list A) x : pop (l ++ [x]) = Some (x, l).
Proof. unfold pop. by rewrite last_Some_app, removelast_last. Qed.

Lemma pop_nonempty {A} (q : list A) :
  q <> [] -> exists x rest, q = rest ++ [x] /\ pop q = Some (x, rest).
Proof.
  intros H. destruct (exists_last H) as (rest & x & ->).
  exists x, rest. split; [done|apply pop_app].
Qed.

Lemma insert_at_length {A} i (x : A) q : length (insert_at i x q) = S (length q).
Proof.
  unfold insert_at. rewrite length_app. simpl.
  rewrite Nat.add_succ_r. f_equal. by rewrite <- length_app, take_drop.
Qed.

Lemma insert_at_perm {A} i (x : A) q : insert_at i x q ≡ₚ q ++ [x].
Proof.
  unfold insert_at. rewrite <- Permutation_middle.
  rewrite take_drop. apply Permutation_cons_append.
Qed.

#[local] Arguments Nat.modulo : simpl never.

Lemma post_and_reinsert_result cfg lib ch s entry rest vid :
  reminder_queue s = rest ++ [entry] -> entry !! "id" = Some vid ->
  exists i s', (i <= length rest)%nat /\
    post_and_reinsert cfg lib ch s = (Returned, s') /\
    reminder_queue s' = insert_at i entry rest /\
    rss_cache_file s' = rss_cache_file s.
Proof.
  intros Hq Hid. unfold post_and_reinsert.
  unfold build_embed_for_entry, send, randint, next_random.
  munfold. rewrite Hq, pop_app. simpl. rewrite Hid.
  assert (Hb : forall r, (r mod S (length rest) <= length rest)%nat).
  { intros r. pose proof (Nat.mod_upper_bound r (S (length rest))). lia. }
  repeat (simpl;
    match goal with
    | |- context [match rng ?x with _ => _ end] => destruct (rng x)
    | |- context [match api_tape ?x with _ => _ end] => destruct (api_tape x)
    | |- context [match ?x with [] => _ | _ :: _ => _ end] => is_var x; destruct x
    end);
  simpl; eexists _, _; (split; [|repeat split; reflexivity]); apply Hb.
Qed.

Lemma post_and_reinsert_spec cfg lib ch s entry rest vid :
  reminder_queue s = rest ++ [entry] -> entry !! "id" = Some vid ->
  exists i, (i <= length rest)%nat /\
    (post_and_reinsert cfg lib ch s).1 = Returned /\
    reminder_queue (run (post_and_reinsert cfg lib ch) s) = insert_at i entry rest.
Proof.
  intros Hq Hid.
  destruct (post_and_reinsert_result cfg lib ch s entry rest vid Hq Hid)
    as (i & s' & Hi & E & Hs & _).
  exists i. unfold run. rewrite E. done.
Qed.

(** C7, as stated, fails: on a queue of two entries whose last entry carries
    no id, the run pops that entry, raises [KeyError] on reading the id and
    leaves a queue of one entry. *)
Lemma reminder_loses_entry_without_id_counterexample :
  reminder_queue id_less_state <> [] /\
  (reminder_loop demo_cfg demo_lib id_less_state).1 = Raised "KeyError" /\
  reminder_queue (run (reminder_loop demo_cfg demo_lib) id_less_state)
    = [demo_entry_full] /\
  length (reminder_queue (run (reminder_loop demo_cfg demo_lib) id_less_state))
    <> length (reminder_queue id_less_state).
Proof.
  assert (E : reminder_loop demo_cfg demo_lib id_less_state
              = (Raised "KeyError", set_reminder_queue [demo_entry_full] id_less_state))
    by reflexivity.
  unfold run. rewrite E. simpl. repeat split; done.
Qed.

(** C7, amended: on a non-empty queue whose last entry, the one the run
    pops, carries an id, one run of the reminder task returns without
    raising and leaves a queue of the same length that is a permutation of
    the old one, whatever the random draws and the answer of the chat API;
    a queue of one entry is left as it was.  When the task posts, the last
    entry is the one taken out, and it is put back at a position between 0
    and the length of the shorter queue. *)
Theorem reminder_cycle_preserves_queue cfg lib s :
  reminder_queue s <> [] ->
  (forall rest entry, reminder_queue s = rest ++ [entry] -> has_id entry) ->
  (reminder_loop cfg lib s).1 = Returned /\
  length (reminder_queue (run (reminder_loop cfg lib) s)) = length (reminder_queue s) /\
  reminder_queue (run (reminder_loop cfg lib) s) ≡ₚ reminder_queue s /\
  (forall e, reminder_queue s = [e] ->
     reminder_queue (run (reminder_loop cfg lib) s) = [e]) /\
  (run (reminder_loop cfg lib) s = s \/
   exists entry rest i,
     reminder_queue s = rest ++ [entry] /\ (i <= length rest)%nat /\
     reminder_queue (run (reminder_loop cfg lib) s) = insert_at i entry rest).
Proof.
  intros Hne Hids.
  assert (Hsame : (reminder_loop cfg lib s).1 = Returned ->
                  run (reminder_loop cfg lib) s = s ->
    (reminder_loop cfg lib s).1 = Returned /\
    length (reminder_queue (run (reminder_loop cfg lib) s)) = length (reminder_queue s) /\
    reminder_queue (run (reminder_loop cfg lib) s) ≡ₚ reminder_queue s /\
    (forall e, reminder_queue s = [e] ->
       reminder_queue (run (reminder_loop cfg lib) s) = [e]) /\
    (run (reminder_loop cfg lib) s = s \/
     exists entry rest i,
       reminder_queue s = rest ++ [entry] /\ (i <= length rest)%nat /\
       reminder_queue (run (reminder_loop cfg lib) s) = insert_at i entry rest)).
  { intros H1 H2. rewrite H2. repeat split; try done. by left. }
  unfold reminder_loop in *. unfold run in *.
  destruct (Z.eqb (REMINDER_CHANNEL_ID cfg) 0); [by apply Hsame|].
  munfold. simpl in *.
  destruct (guild_known s); simpl in *; [|by apply Hsame].
  destruct (lookup_channel (REMINDER_CHANNEL_ID cfg) (channels s)) as [ch|];
    [|by apply Hsame].
  destruct (is_text ch); simpl in *; [|by apply Hsame].
  clear Hsame.
  destruct (reminder_queue s) as [|e0 q0] eqn:Hq; [done|].
  destruct (pop_nonempty (e0 :: q0) ltac:(done)) as (entry & rest & Hsplit & _).
  destruct (Hids rest entry Hsplit) as [vid Hvid].
  rewrite <- Hq in Hsplit.
  destruct (post_and_reinsert_spec cfg lib ch s entry rest vid Hsplit Hvid)
    as (i & Hi & Hret & Hqueue).
  unfold run in Hqueue. rewrite Hret, Hqueue.
  rewrite Hq in Hsplit. rewrite Hsplit.
  split; [done|]. split; [|split; [|split]].
  - rewrite insert_at_length, length_app. simpl. lia.
  - apply insert_at_perm.
  - intros e He. destruct rest as [|x rest]; simpl in *.
    + injection He as <-. unfold insert_at. by rewrite take_nil, drop_nil.
    + destruct rest; simpl in He; discriminate.
  - right. by exists entry, rest, i.
Qed.

Lemma reminder_cycle_preserves_queue_witness :
  (reminder_loop demo_cfg demo_lib one_entry_state).1 = Returned /\
  reminder_queue (run (reminder_loop demo_cfg demo_lib) one_entry_state)
    = [demo_entry_full].
Proof.
  destruct (reminder_cycle_preserves_queue demo_cfg demo_lib one_entry_state)
    as (H1 & _ & _ & H4 & _).
  - discriminate.
  - intros rest entry H. destruct rest as [|x [|y rest]]; simpl in H.
    + injection H as <-. by eexists.
    + discriminate H.
    + discriminate H.
  - split; [exact H1|]. apply H4. reflexivity.
Defined.

(** ** The live-state classifier *)

Lemma sends_of_app a b : sends_of (a ++ b) = sends_of a ++ sends_of b.
Proof. unfold sends_of. apply omap_app. Qed.

Lemma fetches_of_app a b : fetches_of (a ++ b) = fetches_of a ++ fetches_of b.
Proof. unfold fetches_of. apply omap_app. Qed.

Lemma classify_page_unknown html s :
  flag_live html = false -> flag_offline html = false -> flag_upcoming html = false ->
  classify_page html s
    = (None, set_debug_live_html (Some html)
               (set_trace (trace s ++ [EvWriteFile "debug_live.html"]) s)).
Proof.
  intros H1 H2 H3. unfold classify_page. rewrite H1, H2, H3. munfold. done.
Qed.

Lemma classifier_unknown channel_id html s :
  web s (YTLIVE_URL channel_id) = Body html -> no_marker html = true ->
  yt_is_live_noapi channel_id s
    = (None, set_debug_live_html (Some html)
               (set_trace (trace s ++ [EvHttpGet (YTLIVE_URL channel_id);
                                       EvWriteFile "debug_live.html"]) s)).
Proof.
  intros Hweb Hno. unfold no_marker in Hno.
  apply andb_prop in Hno as [Hno H3]. apply andb_prop in Hno as [Hno H2].
  apply andb_prop in Hno as [Hc H1].
  apply negb_true_iff in H1, H2, H3.
  unfold yt_is_live_noapi, http_get. munfold. simpl. rewrite Hweb.
  assert (E : classify_page html
                (set_trace (trace s ++ [EvHttpGet (YTLIVE_URL channel_id)]) s)
              = (None, set_debug_live_html (Some html)
                   (set_trace (trace s ++ [EvHttpGet (YTLIVE_URL channel_id);
                                           EvWriteFile "debug_live.html"]) s))).
  { rewrite classify_page_unknown by done. simpl. by rewrite <- app_assoc. }
  destruct (search CANONICAL_RE html) as [href|]; [|exact E].
  apply andb_prop in Hc as [Hw Hch]. apply negb_true_iff in Hw, Hch.
  rewrite Hw, Hch. exact E.
Qed.

(** Whenever the classifier answers [None], the polling cycle ends there. *)
Lemma live_loop_unknown cfg s :
  (forall channel_id, YOUTUBE_CHANNEL_ID cfg = Some channel_id ->
     (yt_is_live_noapi channel_id s).1 = None) ->
  run (live_status_loop_noapi cfg) s = s \/
  exists channel_id, YOUTUBE_CHANNEL_ID cfg = Some channel_id /\
    run (live_status_loop_noapi cfg) s = run (yt_is_live_noapi channel_id) s.
Proof.
  intros Hnone. unfold run, live_status_loop_noapi.
  destruct (YOUTUBE_CHANNEL_ID cfg) as [cid|]; [|by left].
  destruct (String.eqb cid ""); [by left|].
  munfold. simpl.
  destruct (guild_known s); simpl; [|by left].
  destruct (VC_LIVE_ID (vc s)) as [live_id|]; [|by left].
  destruct (lookup_channel live_id (channels s)) as [c|]; [|by left].
  destruct (is_voice c); [|by left].
  right. exists cid. split; [done|].
  specialize (Hnone cid eq_refl).
  destruct (yt_is_live_noapi cid s) as [st s1]. simpl in *. subst st. done.
Qed.

(** C5: when no status marker matches the live page, the classifier answers
    [None], and the polling cycle keeps the stored live state, renames no
    channel and sends no notification. *)
Theorem unknown_keeps_live_state cfg channel_id html s :
  YOUTUBE_CHANNEL_ID cfg = Some channel_id ->
  web s (YTLIVE_URL channel_id) = Body html ->
  no_marker html = true ->
  (yt_is_live_noapi channel_id s).1 = None /\
  _last_live_state (run (live_status_loop_noapi cfg) s) = _last_live_state s /\
  channels (run (live_status_loop_noapi cfg) s) = channels s /\
  exists evs,
    trace (run (live_status_loop_noapi cfg) s) = trace s ++ evs /\
    edits_of evs = [] /\ sends_of evs = [].
Proof.
  intros Hcfg Hweb Hno.
  pose proof (classifier_unknown channel_id html s Hweb Hno) as E.
  split; [by rewrite E|].
  destruct (live_loop_unknown cfg s) as [->|(cid & Hcid & ->)].
  - intros cid Hcid. rewrite Hcfg in Hcid. injection Hcid as <-. by rewrite E.
  - split; [done|]. split; [done|]. exists []. by rewrite app_nil_r.
  - rewrite Hcfg in Hcid. injection Hcid as <-. unfold run. rewrite E. simpl.
    split; [done|]. split; [done|]. by eexists.
Qed.

(** C6: when the canonical link of the live page targets a watch resource
    and fetching that resource fails, the classifier answers live; when it
    targets a channel resource instead, the classifier answers offline and
    the live page is the only page fetched. *)
Theorem canonical_link_decides channel_id html href s :
  web s (YTLIVE_URL channel_id) = Body html ->
  search CANONICAL_RE html = Some href ->
  (contains "/watch" href = true ->
   (forall html2, web s href <> Body html2) ->
   (yt_is_live_noapi channel_id s).1 = Some "live") /\
  (contains "/watch" href = false -> contains "/channel/" href = true ->
   (yt_is_live_noapi channel_id s).1 = Some "offline" /\
   trace (run (yt_is_live_noapi channel_id) s)
     = trace s ++ [EvHttpGet (YTLIVE_URL channel_id)]).
Proof.
  intros Hweb Hre. unfold run, yt_is_live_noapi, http_get. munfold. simpl.
  rewrite Hweb, Hre. split.
  - intros Hw Hfail. rewrite Hw. unfold follow_watch, http_get. munfold. simpl.
    destruct (web s href) as [| |html2]; try done. by destruct (Hfail html2).
  - intros Hw Hc. rewrite Hw, Hc. done.
Qed.

Lemma unknown_keeps_live_state_witness :
  (yt_is_live_noapi "UCdemo" (live_state page_without_markers)).1 = None /\
  _last_live_state (run (live_status_loop_noapi demo_cfg)
                        (live_state page_without_markers)) = Some "offline".
Proof.
  destruct (unknown_keeps_live_state demo_cfg "UCdemo" page_without_markers
              (live_state page_without_markers)) as (H1 & H2 & _).
  - reflexivity.
  - reflexivity.
  - reflexivity.
  - split; [exact H1|exact H2].
Defined.

Lemma canonical_link_decides_witness :
  (yt_is_live_noapi "UCdemo" (live_state page_canonical_watch)).1 = Some "live" /\
  (yt_is_live_noapi "UCdemo" (live_state page_canonical_channel)).1 = Some "offline".
Proof.
  split.
  - apply (proj1 (canonical_link_decides "UCdemo" page_canonical_watch
                    "https://www.youtube.com/watch?v=abc"
                    (live_state page_canonical_watch) eq_refl eq_refl)).
    + reflexivity.
    + intros html2. vm_compute. discriminate.
  - apply (proj2 (canonical_link_decides "UCdemo" page_canonical_channel
                    "https://www.youtube.com/channel/UCdemo"
                    (live_state page_canonical_channel) eq_refl eq_refl)).
    + reflexivity.
    + reflexivity.
Defined.

(** ** The cache and the queue hold feed entries *)

Lemma swap_perm {A} (l : list A) i j : swap l i j ≡ₚ l.
Proof.
  unfold swap. destruct (l !! i) as [a|] eqn:Hi; [|done].
  destruct (l !! j) as [b|] eqn:Hj; [|done].
  by apply Permutation_insert_swap.
Qed.

Lemma shuffle_from_perm {A} i (l : list A) s : (shuffle_from i l s).1 ≡ₚ l.
Proof.
  revert l s. induction i as [|i IH]; intros l s; simpl; [done|].
  unfold mbind, M_bind. destruct (next_random s) as [r s1].
  rewrite IH. apply swap_perm.
Qed.

Lemma shuffle_perm {A} (l : list A) s : (shuffle l s).1 ≡ₚ l.
Proof. apply shuffle_from_perm. Qed.

Lemma load_saved_cache (cache : gmap string (gmap string pyval)) :
  load_rss_cache (JsonObject (VDict <$> cache)) = cache.
Proof.
  simpl. apply map_eq. intros k. rewrite lookup_omap, lookup_fmap.
  by destruct (cache !! k).
Qed.

Lemma parse_entry_has_id entry e : parse_entry entry = Some e -> has_id e.
Proof.
  intros H. apply parse_entry_Some in H as (_ & _ & ->). by eexists.
Qed.

Lemma dict_update_has_id stored fields : has_id stored -> has_id (dict_update stored fields).
Proof.
  intros [v Hv]. unfold has_id, dict_update.
  destruct (fields !! "id") as [w|] eqn:E.
  - exists w. by apply lookup_union_Some_l.
  - exists v. by rewrite lookup_union_r.
Qed.

Lemma accumulate_has_ids entries cache cache' added :
  (forall k e, cache !! k = Some e -> has_id e) ->
  accumulate_from_rss cache entries = Some (cache', added) ->
  forall k e, cache' !! k = Some e -> has_id e.
Proof.
  revert cache cache' added.
  induction entries as [|e0 rest IH]; intros cache cache' added Hc H; simpl in H.
  { by injection H as <- _. }
  destruct (e0 !! "id") as [[| | |vid| |]|] eqn:Hid; try done.
  destruct (cache !! vid) as [stored|] eqn:Hs.
  - eapply IH; [|exact H]. intros k e Hk.
    destruct (decide (k = vid)) as [->|Hne].
    + rewrite lookup_insert_eq in Hk. injection Hk as <-.
      apply dict_update_has_id. by eapply Hc.
    + rewrite lookup_insert_ne in Hk by done. by eapply Hc.
  - destruct (accumulate_from_rss (<[vid:=e0]> cache) rest) as [[c n]|] eqn:E;
      simpl in H; [|done].
    injection H as <- _. eapply IH; [|exact E]. intros k e Hk.
    destruct (decide (k = vid)) as [->|Hne].
    + rewrite lookup_insert_eq in Hk. injection Hk as <-. by eexists.
    + rewrite lookup_insert_ne in Hk by done. by eapply Hc.
Qed.

Lemma values_have_ids (cache : gmap string (gmap string pyval)) :
  (forall k e, cache !! k = Some e -> has_id e) ->
  Forall has_id (map_to_list cache).*2.
Proof.
  intros H. apply Forall_forall. intros e He.
  apply list_elem_of_fmap in He as ([k e'] & -> & He). simpl.
  apply elem_of_map_to_list in He. by eapply H.
Qed.

(** What [merge_and_requeue] leaves: the queue is a shuffle of the merged
    cache, and the file holds the merged cache if it was written. *)
Lemma merge_and_requeue_queue cfg entries s cache' added :
  accumulate_from_rss (load_rss_cache (rss_cache_file s)) entries
    = Some (cache', added) ->
  reminder_queue (run (merge_and_requeue cfg entries) s) ≡ₚ (map_to_list cache').*2.
Proof.
  intros Hacc. unfold merge_and_requeue.
  rewrite run_bind. unfold get_st at 1 2. simpl. rewrite Hacc.
  rewrite run_bind, run_bind.
  set (s1 := ((if added =? 0 then mret () else save_rss_cache cfg cache') s).2).
  pose proof (shuffle_perm (map_to_list cache').*2 s1) as Hp.
  destruct (shuffle (map_to_list cache').*2 s1) as [q s2]. simpl in *.
  unfold run. munfold. simpl. exact Hp.
Qed.

Lemma merge_and_requeue_has_ids cfg entries s :
  entries_have_ids s -> entries_have_ids (run (merge_and_requeue cfg entries) s).
Proof.
  intros [Hc Hq].
  destruct (accumulate_from_rss (load_rss_cache (rss_cache_file s)) entries)
    as [[cache' added]|] eqn:Hacc.
  2:{ unfold run, merge_and_requeue. munfold. simpl. rewrite Hacc. by split. }
  pose proof (accumulate_has_ids _ _ _ _ Hc Hacc) as Hc'.
  split.
  - destruct (merge_and_requeue_spec cfg entries s cache' added Hacc) as [H1 H2].
    destruct (decide (added = 0)) as [Hz|Hnz].
    + destruct (H2 Hz) as [_ ->]. exact Hc.
    + destruct (H1 Hnz) as [_ ->]. rewrite load_saved_cache. exact Hc'.
  - rewrite (merge_and_requeue_queue cfg entries s cache' added Hacc).
    by apply values_have_ids.
Qed.

Lemma rss_refresh_loop_has_ids cfg lib s :
  entries_have_ids s -> entries_have_ids (run (rss_refresh_loop cfg lib) s).
Proof.
  intros H. unfold rss_refresh_loop.
  destruct (YOUTUBE_CHANNEL_ID cfg) as [cid|]; [|done].
  destruct (String.eqb cid ""); [done|].
  rewrite run_bind. unfold http_get at 1 2. munfold. simpl.
  set (s1 := set_trace _ s).
  assert (H1 : entries_have_ids s1) by done.
  destruct (web s (channel_rss_url cid)); try done.
  destruct (ET_fromstring lib text); [|done].
  by apply (merge_and_requeue_has_ids cfg _ s1).
Qed.

Lemma post_and_reinsert_has_ids cfg lib ch s :
  reminder_queue s <> [] -> entries_have_ids s ->
  entries_have_ids (run (post_and_reinsert cfg lib ch) s).
Proof.
  intros Hne [Hc Hq].
  destruct (pop_nonempty (reminder_queue s) Hne) as (entry & rest & Hsplit & _).
  assert (Hentry : has_id entry).
  { rewrite Hsplit in Hq. apply Forall_app in Hq as [_ Hq].
    by apply Forall_cons in Hq as [Hq _]. }
  destruct Hentry as [vid Hvid].
  destruct (post_and_reinsert_result cfg lib ch s entry rest vid Hsplit Hvid)
    as (i & s' & _ & E & Hqueue & Hfile).
  unfold run. rewrite E. simpl. split.
  - by rewrite Hfile.
  - rewrite Hqueue, insert_at_perm, <- Hsplit. exact Hq.
Qed.

Lemma reminder_loop_has_ids cfg lib s :
  entries_have_ids s -> entries_have_ids (run (reminder_loop cfg lib) s).
Proof.
  intros H. unfold reminder_loop.
  destruct (Z.eqb (REMINDER_CHANNEL_ID cfg) 0); [done|].
  rewrite run_bind. unfold get_st at 1 2. simpl.
  destruct (guild_known s); simpl; [|done].
  rewrite run_bind. unfold get_channel at 1 2. munfold. simpl.
  destruct (lookup_channel (REMINDER_CHANNEL_ID cfg) (channels s)) as [ch|]; [|done].
  destruct (is_text ch); simpl; [|done].
  destruct (reminder_queue s) as [|e0 q0] eqn:Hq.
  2:{ apply post_and_reinsert_has_ids; [by rewrite Hq|done]. }
  pose proof (shuffle_perm (map_to_list (load_rss_cache (rss_cache_file s))).*2 s) as Hp.
  pose proof (keeps_shuffle rss_cache_file ltac:(done)
                (map_to_list (load_rss_cache (rss_cache_file s))).*2 s) as Kf.
  destruct (shuffle (map_to_list (load_rss_cache (rss_cache_file s))).*2 s)
    as [queue s1]. simpl in *.
  assert (H1 : entries_have_ids (set_reminder_queue queue s1)).
  { destruct H as [Hc _]. split; simpl.
    - rewrite Kf. exact Hc.
    - rewrite Hp. by apply values_have_ids. }
  destruct queue as [|e1 q1]; [done|].
  by apply post_and_reinsert_has_ids.
Qed.

(** ** The model on sample inputs *)

Example fmt_num_samples :
  fmt_num 0 = "0" /\ fmt_num 999 = "999" /\ fmt_num 1000 = "1,000" /\
  fmt_num 1234567 = "1,234,567" /\ fmt_num (-1000) = "-1,000".
Proof. repeat split; reflexivity. Qed.

Example contains_samples :
  contains "/watch" "https://www.youtube.com/watch?v=abc" = true /\
  contains "/channel/" "https://www.youtube.com/watch?v=abc" = false /\
  contains "" "" = true.
Proof. repeat split; reflexivity. Qed.

Example load_id_samples :
  load_id_value (VInt 7) = Some (Some 7) /\
  load_id_value (VStr "0042") = Some (Some 42) /\
  load_id_value (VInt (-1)) = None /\
  load_id_value (VStr "12a") = None /\
  load_id_value (VStr "") = None /\
  load_id_value (VBool true) = None /\
  load_id_value VNone = None.
Proof. repeat split; reflexivity. Qed.

(** The pattern on link elements: the leftmost match wins, each [[^>]+]
    gives back as little as it must, and the group stops at the first quote. *)
Example canonical_samples :
  search CANONICAL_RE page_canonical_watch
    = Some "https://www.youtube.com/watch?v=abc" /\
  search CANONICAL_RE "<LINK REL='canonical' HREF='/channel/UCx'>"
    = Some "/channel/UCx" /\
  search CANONICAL_RE "<link rel='canonical' href='/a'><link rel='canonical' href='/b'>"
    = Some "/a" /\
  search CANONICAL_RE "<link x rel='canonical' y href='u' href='v'>" = Some "v" /\
  search CANONICAL_RE "<link rel='canonical' href=''>" = None /\
  search CANONICAL_RE "<linkrel='canonical' href='x'>" = None /\
  search CANONICAL_RE "<link rel='x' > rel='canonical' href='zz'" = None /\
  search CANONICAL_RE ("<link rel=" +:+ quoted "canonical" +:+ " href="
                         +:+ quoted "/watch?v=1" +:+ ">") = Some "/watch?v=1".
Proof. repeat split; vm_compute; reflexivity. Qed.

(** With an empty guild, [ensure_stats_voice_channels] creates the category
    and the six channels and saves their ids. *)
Example ensure_on_empty_guild :
  vc (run (ensure_stats_voice_channels demo_cfg) empty_state)
    = mkVcIds (Some 101) (Some 102) (Some 103) (Some 104) (Some 105) (Some 106) /\
  file_object (id_store_file (run (ensure_stats_voice_channels demo_cfg) empty_state))
    = list_to_map [ ("subs", VInt 101); ("views", VInt 102); ("videos", VInt 103);
                    ("goal", VInt 104); ("members", VInt 105); ("live", VInt 106) ].
Proof. split; vm_compute; reflexivity. Qed.

(** The first refresh on an empty cache: both entries of the feed are added
    and persisted. *)
Example first_refresh :
  load_rss_cache (rss_cache_file (run (rss_refresh_loop demo_cfg feed_lib) feed_state))
    = {["a" := demo_entry_a; "b" := demo_entry_b]} /\
  cycle_added demo_cfg feed_lib feed_state = Some 2.
Proof. split; vm_compute; reflexivity. Qed.

(** A canonical watch link whose page cannot be fetched: the channel goes
    from offline to live, the surface is renamed and the alert is sent. *)
Example live_transition :
  let s := run (live_status_loop_noapi demo_cfg) (live_state page_canonical_watch) in
  _last_live_state s = Some "live" /\
  edits_of (trace s) = [(6, "🟢 LIVE")] /\
  sends_of (trace s) = [7].
Proof. repeat split; vm_compute; reflexivity. Qed.

Example empty_state_has_ids : entries_have_ids empty_state.
Proof. split; [intros k e H; vm_compute in H; discriminate|constructor]. Qed.

(** ** The channel-id store: what survives a save and a load *)

Lemma lookup_load_saved (ids : gmap string (option Z)) k :
  load_ids (JsonObject (serializable ids)) !! k =
    match ids !! k with
    | Some (Some z) => if Z.ltb 0 z then Some (Some z) else None
    | _ => None
    end.
Proof.
  simpl. unfold serializable. rewrite !lookup_omap.
  destruct (ids !! k) as [[z|]|]; simpl; try done.
  destruct (Z.eqb_spec z 0) as [->|Hz]; simpl; [done|].
  destruct (Z.leb_spec 0 z), (Z.ltb_spec 0 z); try done; lia.
Qed.

Lemma int_of_digits_fold l acc :
  forallb is_digit l = true -> 0 <= acc ->
  0 <= fold_left (fun a c => 10 * a + (Z.of_nat (nat_of_ascii c) - 48)) l acc.
Proof.
  revert acc. induction l as [|c l IH]; intros acc Hd Hacc; simpl; [done|].
  simpl in Hd. apply andb_prop in Hd as [Hc Hl]. apply IH; [done|].
  unfold is_digit in Hc. apply andb_prop in Hc as [H1 _].
  apply Nat.leb_le in H1. lia.
Qed.

Lemma load_id_value_nonneg v r :
  load_id_value v = Some r -> exists z, r = Some z /\ 0 <= z.
Proof.
  destruct v as [| |z|s| |]; simpl; try done.
  - destruct (Z.leb_spec 0 z); [|done]. intros [= <-]. by exists z.
  - destruct (isdigit s) eqn:Hd; [|done]. intros [= <-].
    eexists. split; [done|]. unfold int_of_digits.
    unfold isdigit in Hd. apply andb_prop in Hd as [_ Hd].
    by apply int_of_digits_fold.
Qed.

(** X1: whatever the store file holds, every id [load_ids] returns is a
    non-negative integer filed under a key of the file's object; a file that
    is missing, unreadable or no object gives no id at all. *)
Theorem load_ids_yields_nonnegative_ids f :
  (forall k v, load_ids f !! k = Some v ->
     exists z raw, v = Some z /\ 0 <= z /\ file_object f !! k = Some raw) /\
  ((forall d, f <> JsonObject d) -> load_ids f = ∅).
Proof.
  split.
  - intros k v H. destruct f as [| |d|]; simpl in *; try by rewrite lookup_empty in H.
    rewrite lookup_omap in H. destruct (d !! k) as [raw|] eqn:Hk; simpl in H; [|done].
    destruct (load_id_value_nonneg raw v H) as (z & -> & Hz). by exists z, raw.
  - intros H. destruct f as [| |d|]; try done. by destruct (H d).
Qed.

(** X2: loading what [save_ids] wrote gives back exactly the entries whose id
    is a positive integer: an unset id, the id 0 and a negative id are lost.
    So a cache of positive ids survives the round trip unchanged. *)
Theorem saved_ids_load_back cfg (ids : gmap string (option Z)) s :
  (forall k,
     load_ids (id_store_file (run (save_ids cfg ids) s)) !! k =
       match ids !! k with
       | Some (Some z) => if Z.ltb 0 z then Some (Some z) else None
       | _ => None
       end) /\
  ((forall k v, ids !! k = Some v -> exists z, v = Some z /\ 0 < z) ->
   load_ids (id_store_file (run (save_ids cfg ids) s)) = ids).
Proof.
  assert (E : id_store_file (run (save_ids cfg ids) s) = JsonObject (serializable ids))
    by done.
  rewrite E. split; [apply lookup_load_saved|].
  intros H. apply map_eq. intros k. rewrite lookup_load_saved.
  destruct (ids !! k) as [v|] eqn:Hk; [|done].
  destruct (H k v Hk) as (z & -> & Hz).
  destruct (Z.ltb_spec 0 z); [done|lia].
Qed.

Lemma saved_ids_load_back_witness :
  load_ids (id_store_file (run (save_ids demo_cfg {["subs" := Some 41; "live" := Some 7]})
                               empty_state))
    = {["subs" := Some 41; "live" := Some 7]}.
Proof.
  apply (proj2 (saved_ids_load_back demo_cfg {["subs" := Some 41; "live" := Some 7]}
                  empty_state)).
  intros k v H.
  apply lookup_insert_Some in H as [[_ <-]|[_ H]]; [exists 41; split; [done|lia]|].
  apply lookup_singleton_Some in H as [_ <-]. exists 7. split; [done|lia].
Defined.

(** ** Restart: the ids saved by [ensure_stats_voice_channels] come back *)

Lemma store_ids_state cfg resolved s :
  let ids := vc (run (store_ids cfg resolved) s) in
  _id_cache (run (store_ids cfg resolved) s) = update_id_cache ids (_id_cache s) /\
  id_store_file (run (store_ids cfg resolved) s)
    = JsonObject (serializable (update_id_cache ids (_id_cache s))).
Proof. unfold run, store_ids, save_ids. munfold. simpl. done. Qed.

Lemma ensure_state cfg s :
  let ids := vc (run (ensure_stats_voice_channels cfg) s) in
  _id_cache (run (ensure_stats_voice_channels cfg) s)
    = update_id_cache ids (_id_cache s) /\
  id_store_file (run (ensure_stats_voice_channels cfg) s)
    = JsonObject (serializable (update_id_cache ids (_id_cache s))).
Proof.
  destruct (ensure_ends_in_store_ids cfg s) as (r & s3 & -> & <-).
  apply store_ids_state.
Qed.

Lemma lookup_update_id_cache ids cache :
  update_id_cache ids cache !! "subs" = Some (VC_SUBS_ID ids) /\
  update_id_cache ids cache !! "views" = Some (VC_VIEWS_ID ids) /\
  update_id_cache ids cache !! "videos" = Some (VC_VIDEOS_ID ids) /\
  update_id_cache ids cache !! "goal" = Some (VC_GOAL_ID ids) /\
  update_id_cache ids cache !! "members" = Some (VC_MEMBERS_ID ids) /\
  update_id_cache ids cache !! "live" = Some (VC_LIVE_ID ids).
Proof.
  unfold update_id_cache.
  repeat split; repeat (rewrite lookup_insert_ne by done); apply lookup_insert_eq.
Qed.

Lemma reload_id (o : option Z) (cache : gmap string (option Z)) k :
  cache !! k = Some o -> (forall z, o = Some z -> 0 < z) ->
  cache_get (load_ids (JsonObject (serializable cache))) k = o.
Proof.
  intros Hk Hpos. unfold cache_get. rewrite lookup_load_saved, Hk.
  destruct o as [z|]; [|done].
  specialize (Hpos z eq_refl). destruct (Z.ltb_spec 0 z); [done|lia].
Qed.

(** X3: after [ensure_stats_voice_channels] has saved the ids, the
    module-level load of a restart finds the same six ids again, provided
    each id that is set is positive. *)
Theorem restart_restores_ids cfg s :
  let s1 := run (ensure_stats_voice_channels cfg) s in
  (forall key z, id_of_role (vc s1) key = Some z -> 0 < z) ->
  vc (run init_ids s1) = vc s1.
Proof.
  intros s1 Hpos.
  destruct (ensure_state cfg s) as [Hc Hf]. fold s1 in Hc, Hf. simpl in Hc, Hf.
  unfold run, init_ids. munfold. simpl. rewrite Hf.
  set (cache := update_id_cache (vc s1) (_id_cache s)) in *.
  destruct (lookup_update_id_cache (vc s1) (_id_cache s))
    as (L1 & L2 & L3 & L4 & L5 & L6). fold cache in L1, L2, L3, L4, L5, L6.
  assert (Hsubs := reload_id _ cache "subs" L1 (Hpos "subs")).
  assert (Hviews := reload_id _ cache "views" L2 (Hpos "views")).
  assert (Hvideos := reload_id _ cache "videos" L3 (Hpos "videos")).
  assert (Hgoal := reload_id _ cache "goal" L4 (Hpos "goal")).
  assert (Hmembers := reload_id _ cache "members" L5 (Hpos "members")).
  assert (Hlive := reload_id _ cache "live" L6 (Hpos "live")).
  rewrite Hsubs, Hviews, Hvideos, Hgoal, Hmembers, Hlive.
  by destruct (vc s1).
Qed.

Lemma restart_restores_ids_witness :
  vc (run init_ids (run (ensure_stats_voice_channels demo_cfg) empty_state))
    = mkVcIds (Some 101) (Some 102) (Some 103) (Some 104) (Some 105) (Some 106).
Proof.
  rewrite (restart_restores_ids demo_cfg empty_state).
  - vm_compute. reflexivity.
  - intros key z. vm_compute.
    repeat (match goal with
            | |- context [match ?x with _ => _ end] => destruct x
            end); intros [= <-]; reflexivity.
Defined.

(** ** The entry cache: what a merge keeps and counts *)

(** X4: what [save_rss_cache] wrote, [load_rss_cache] reads back unchanged,
    entry by entry and field by field. *)
Theorem saved_cache_loads_back cfg (cache : gmap string (gmap string pyval)) s :
  load_rss_cache (rss_cache_file (run (save_rss_cache cfg cache) s)) = cache /\
  trace (run (save_rss_cache cfg cache) s)
    = trace s ++ [EvWriteFile (RSS_CACHE_PATH cfg)].
Proof.
  split; [|done].
  change (rss_cache_file (run (save_rss_cache cfg cache) s))
    with (JsonObject (VDict <$> cache)).
  apply load_saved_cache.
Qed.

Lemma entry_ids_cons_text e vid rest :
  e !! "id" = Some (VStr vid) -> entry_ids (e :: rest) = {[vid]} ∪ entry_ids rest.
Proof. intros H. unfold entry_ids. simpl. by rewrite H. Qed.

Lemma accumulate_cons_inv cache e rest cache' added :
  accumulate_from_rss cache (e :: rest) = Some (cache', added) ->
  exists vid, e !! "id" = Some (VStr vid) /\
    ((cache !! vid = None /\
      accumulate_from_rss (<[vid := e]> cache) rest = Some (cache', added - 1)) \/
     (exists stored, cache !! vid = Some stored /\
        accumulate_from_rss (<[vid := dict_update stored (nonempty_fields e)]> cache) rest
          = Some (cache', added))).
Proof.
  simpl. destruct (e !! "id") as [[| | |vid| |]|]; try done.
  intros H. exists vid. split; [done|].
  destruct (cache !! vid) as [stored|].
  - right. by exists stored.
  - left. split; [done|].
    destruct (accumulate_from_rss (<[vid:=e]> cache) rest) as [[c n]|]; simpl in H; [|done].
    injection H as <- <-. f_equal. f_equal. lia.
Qed.

Lemma accumulate_growth entries cache cache' added :
  accumulate_from_rss cache entries = Some (cache', added) ->
  dom cache' = dom cache ∪ entry_ids entries /\
  Z.of_nat (size cache') = Z.of_nat (size cache) + added /\
  (forall k, k ∉ entry_ids entries -> cache' !! k = cache !! k).
Proof.
  revert cache cache' added.
  induction entries as [|e rest IH]; intros cache cache' added H.
  { simpl in H. injection H as <- <-. unfold entry_ids. simpl.
    split; [|split; [lia|done]].
    apply set_eq. intros x. rewrite elem_of_union, elem_of_empty. tauto. }
  apply accumulate_cons_inv in H as (vid & Hid & [[Hnone H]|(stored & Hsome & H)]);
    rewrite (entry_ids_cons_text e vid rest Hid);
    apply IH in H as (Hdom & Hsize & Hframe).
  - split; [|split].
    + rewrite Hdom, dom_insert_L. apply set_eq. intros x.
      rewrite !elem_of_union. tauto.
    + rewrite map_size_insert_None in Hsize by done. lia.
    + intros k Hk. apply not_elem_of_union in Hk as [Hk1 Hk2].
      rewrite Hframe by done. apply lookup_insert_ne.
      intros ->. apply Hk1. by apply elem_of_singleton.
  - split; [|split].
    + rewrite Hdom, dom_insert_L. apply set_eq. intros x.
      rewrite !elem_of_union, elem_of_singleton. split; [tauto|].
      intros [Hx|[->|Hx]]; tauto.
    + rewrite map_size_insert_Some in Hsize by done. lia.
    + intros k Hk. apply not_elem_of_union in Hk as [Hk1 Hk2].
      rewrite Hframe by done. apply lookup_insert_ne.
      intros ->. apply Hk1. by apply elem_of_singleton.
Qed.

(** X5: a merge never drops an entry.  The keys of the cache afterwards are
    the old keys and the ids of the feed, the cache has grown by exactly
    [added] entries, and an entry whose id is not in the feed is untouched. *)
Theorem merge_grows_cache_by_added entries cache cache' added :
  accumulate_from_rss cache entries = Some (cache', added) ->
  dom cache' = dom cache ∪ entry_ids entries /\
  Z.of_nat (size cache') = Z.of_nat (size cache) + added /\
  0 <= added <= Z.of_nat (length entries) /\
  (forall k, k ∉ entry_ids entries -> cache' !! k = cache !! k).
Proof.
  intros H. destruct (accumulate_growth _ _ _ _ H) as (Hdom & Hsize & Hframe).
  split; [done|]. split; [done|]. split; [|done].
  split; [by eapply accumulate_added_nonneg|].
  clear Hdom Hsize Hframe. revert cache cache' added H.
  induction entries as [|e rest IH]; intros cache cache' added H.
  { simpl in H. injection H as _ <-. simpl. lia. }
  apply accumulate_cons_inv in H as (vid & _ & [[_ H]|(stored & _ & H)]);
    apply IH in H; simpl length; lia.
Qed.

Lemma merge_grows_cache_by_added_witness :
  Z.of_nat (size (<["a" := dict_update demo_entry_full (nonempty_fields demo_entry_bare)]>
                    (∅ : gmap string (gmap string pyval))))
    = Z.of_nat (size (∅ : gmap string (gmap string pyval))) + 1.
Proof.
  apply (merge_grows_cache_by_added [demo_entry_full; demo_entry_bare] ∅).
  apply accumulate_absent_then_present; reflexivity.
Defined.

(** A merge succeeds exactly on feeds whose entries all carry a text id. *)
Lemma accumulate_total entries cache :
  Forall (fun e => exists vid, e !! "id" = Some (VStr vid)) entries ->
  is_Some (accumulate_from_rss cache entries).
Proof.
  revert cache. induction entries as [|e rest IH]; intros cache H; simpl; [by eexists|].
  apply Forall_cons in H as [[vid Hid] Hrest]. rewrite Hid.
  destruct (cache !! vid) as [stored|]; [by apply IH|].
  destruct (IH (<[vid:=e]> cache) Hrest) as [[c n] ->]. by eexists.
Qed.

Lemma accumulate_text_ids entries cache r :
  accumulate_from_rss cache entries = Some r ->
  Forall (fun e => exists vid, e !! "id" = Some (VStr vid)) entries.
Proof.
  revert cache r. induction entries as [|e rest IH]; intros cache [c n] H; [constructor|].
  apply accumulate_cons_inv in H as (vid & Hid & [[_ H]|(stored & _ & H)]);
    (constructor; [by exists vid|by eapply IH]).
Qed.

Lemma accumulate_all_present entries cache :
  Forall (fun e => exists vid, e !! "id" = Some (VStr vid)) entries ->
  entry_ids entries ⊆ dom cache ->
  exists cache', accumulate_from_rss cache entries = Some (cache', 0).
Proof.
  revert cache. induction entries as [|e rest IH]; intros cache H Hsub; simpl;
    [by eexists|].
  apply Forall_cons in H as [[vid Hid] Hrest]. rewrite Hid.
  rewrite (entry_ids_cons_text e vid rest Hid) in Hsub.
  assert (Hin : vid ∈ dom cache).
  { apply Hsub, elem_of_union. left. by apply elem_of_singleton. }
  apply elem_of_dom in Hin as [stored Hs]. rewrite Hs.
  apply IH; [done|]. rewrite dom_insert_L. intros x Hx.
  apply elem_of_union. right. apply Hsub, elem_of_union. by right.
Qed.

Lemma parse_entries_text_ids root :
  Forall (fun e => exists vid, e !! "id" = Some (VStr vid)) (parse_rss_entries root).
Proof.
  apply Forall_forall. intros e He. unfold parse_rss_entries in He.
  apply list_elem_of_omap in He as (entry & _ & He).
  apply parse_entry_Some in He as (Hid & _ & ->).
  destruct (truthy_of_opt_inv _ Hid (entry_video_id_of_opt entry)) as (vid & Ev & _).
  exists vid. by rewrite Ev.
Qed.

(** ** The feed-refresh task as a whole *)

Lemma result_bind {A B} (m : M A) (k : A -> M B) s :
  ((m ≫= k) s).1 = (k (m s).1 (m s).2).1.
Proof. unfold mbind, M_bind. by destruct (m s). Qed.

Lemma merge_and_requeue_returns cfg entries s :
  is_Some (accumulate_from_rss (load_rss_cache (rss_cache_file s)) entries) ->
  (merge_and_requeue cfg entries s).1 = Returned.
Proof.
  intros [[c n] H]. unfold merge_and_requeue.
  rewrite result_bind. unfold get_st at 1 2. simpl. rewrite H.
  by rewrite !result_bind.
Qed.

Lemma merge_and_requeue_raises cfg entries s :
  accumulate_from_rss (load_rss_cache (rss_cache_file s)) entries = None ->
  merge_and_requeue cfg entries s = (Raised "KeyError", s).
Proof.
  intros H. unfold merge_and_requeue. unfold mbind, M_bind, get_st. by rewrite H.
Qed.

(** The two ways a run of [rss_refresh_loop] goes: it stops before the merge
    and changes at most the log, or it is the merge of the parsed feed. *)
Lemma rss_refresh_loop_cases cfg lib s :
  (cycle_cache cfg lib s = None /\ cycle_added cfg lib s = None /\
   (rss_refresh_loop cfg lib s).1 = Returned /\
   (run (rss_refresh_loop cfg lib) s = s \/
    exists url, run (rss_refresh_loop cfg lib) s
                  = set_trace (trace s ++ [EvHttpGet url]) s)) \/
  (exists cid text root,
     YOUTUBE_CHANNEL_ID cfg = Some cid /\ String.eqb cid "" = false /\
     web s (channel_rss_url cid) = Body text /\
     ET_fromstring lib text = Some root /\
     rss_refresh_loop cfg lib s
       = merge_and_requeue cfg (parse_rss_entries root)
           (set_trace (trace s ++ [EvHttpGet (channel_rss_url cid)]) s)).
Proof.
  unfold cycle_cache, cycle_added, run, rss_refresh_loop.
  destruct (YOUTUBE_CHANNEL_ID cfg) as [cid|]; [|left; repeat split; by left].
  destruct (String.eqb cid "") eqn:Hcid; [left; repeat split; by left|].
  unfold http_get. munfold. simpl.
  destruct (web s (channel_rss_url cid)) as [| |text] eqn:Hweb;
    try (left; repeat split; right; by eexists).
  destruct (ET_fromstring lib text) as [root|] eqn:Hxml;
    [|left; repeat split; right; by eexists].
  right. by exists cid, text, root.
Qed.

(** What [cycle_cache] and [cycle_added] are for a cycle that merges. *)
Lemma cycle_of_merge cfg lib s cid text root :
  YOUTUBE_CHANNEL_ID cfg = Some cid -> String.eqb cid "" = false ->
  web s (channel_rss_url cid) = Body text -> ET_fromstring lib text = Some root ->
  cycle_cache cfg lib s
    = fst <$> accumulate_from_rss (load_rss_cache (rss_cache_file s))
                                  (parse_rss_entries root) /\
  cycle_added cfg lib s
    = snd <$> accumulate_from_rss (load_rss_cache (rss_cache_file s))
                                  (parse_rss_entries root).
Proof.
  intros H1 H2 H3 H4. unfold cycle_cache, cycle_added. by rewrite H1, H2, H3, H4.
Qed.

(** X6: a run of [rss_refresh_loop] never raises: a failed fetch and a feed
    that does not parse end the run quietly, and the merge cannot meet an
    entry without id, since the parser returns none. *)
Theorem rss_refresh_loop_returns cfg lib s :
  (rss_refresh_loop cfg lib s).1 = Returned /\
  (forall root cache, is_Some (accumulate_from_rss cache (parse_rss_entries root))).
Proof.
  split.
  - destruct (rss_refresh_loop_cases cfg lib s)
      as [(_ & _ & H & _)|(cid & text & root & _ & _ & _ & _ & ->)]; [done|].
    apply merge_and_requeue_returns, accumulate_total, parse_entries_text_ids.
  - intros root cache. apply accumulate_total, parse_entries_text_ids.
Qed.

(** X7: after a refresh that got as far as the merge, the queue is a shuffle
    of the merged cache, each entry once, whatever the queue held before;
    a refresh that stopped earlier leaves the queue as it was. *)
Theorem refresh_rebuilds_queue cfg lib s :
  match cycle_cache cfg lib s with
  | Some cache' =>
      reminder_queue (run (rss_refresh_loop cfg lib) s) ≡ₚ (map_to_list cache').*2 /\
      length (reminder_queue (run (rss_refresh_loop cfg lib) s)) = size cache'
  | None => reminder_queue (run (rss_refresh_loop cfg lib) s) = reminder_queue s
  end.
Proof.
  destruct (rss_refresh_loop_cases cfg lib s)
    as [(-> & _ & _ & [->|[url ->]])|(cid & text & root & H1 & H2 & H3 & H4 & E)];
    try done.
  destruct (cycle_of_merge cfg lib s cid text root H1 H2 H3 H4) as [-> _].
  unfold run. rewrite E.
  set (s1 := set_trace (trace s ++ [EvHttpGet (channel_rss_url cid)]) s).
  change (rss_cache_file s) with (rss_cache_file s1).
  destruct (accumulate_from_rss (load_rss_cache (rss_cache_file s1))
              (parse_rss_entries root)) as [[cache' added]|] eqn:Hacc; simpl.
  - pose proof (merge_and_requeue_queue cfg _ s1 cache' added Hacc) as Hp.
    unfold run in Hp. split; [exact Hp|].
    rewrite Hp, length_fmap. apply length_map_to_list.
  - by rewrite (merge_and_requeue_raises cfg _ s1 Hacc).
Qed.

Lemma keeps_web_merge_and_requeue cfg entries :
  keeps web (merge_and_requeue cfg entries).
Proof.
  unfold merge_and_requeue. apply keeps_bind; [apply keeps_get_st|]. intros s0.
  destruct (accumulate_from_rss _ entries) as [[c n]|]; [|apply keeps_ret].
  apply keeps_bind.
  - destruct (n =? 0); [apply keeps_ret|]. unfold save_rss_cache.
    apply keeps_bind; [by apply keeps_emit|]. intros _. by apply keeps_modify.
  - intros _. by apply requeue_keeps.
Qed.

(** X8: refreshing again on the same feed adds nothing: once a cycle has
    merged a feed, the next cycle on that feed counts no new entry, whether
    or not the first one wrote the cache file. *)
Theorem second_refresh_adds_nothing cfg lib s n :
  cycle_added cfg lib s = Some n ->
  cycle_added cfg lib (run (rss_refresh_loop cfg lib) s) = Some 0.
Proof.
  intros Hn.
  destruct (rss_refresh_loop_cases cfg lib s)
    as [(_ & Hnone & _)|(cid & text & root & H1 & H2 & H3 & H4 & E)]; [congruence|].
  destruct (cycle_of_merge cfg lib s cid text root H1 H2 H3 H4) as [_ Hadd].
  rewrite Hn in Hadd.
  set (s1 := set_trace (trace s ++ [EvHttpGet (channel_rss_url cid)]) s) in *.
  change (rss_cache_file s) with (rss_cache_file s1) in Hadd.
  destruct (accumulate_from_rss (load_rss_cache (rss_cache_file s1))
              (parse_rss_entries root)) as [[cache' added]|] eqn:Hacc; [|done].
  simpl in Hadd. injection Hadd as ->.
  (* the file after the first cycle holds every id of the feed *)
  assert (Hsub : entry_ids (parse_rss_entries root)
                 ⊆ dom (load_rss_cache (rss_cache_file (run (rss_refresh_loop cfg lib) s)))).
  { unfold run. rewrite E.
    destruct (merge_and_requeue_spec cfg _ s1 cache' added Hacc) as [Hpos Hzero].
    destruct (accumulate_growth _ _ _ _ Hacc) as (Hdom & Hsize & _).
    unfold run in Hpos, Hzero.
    destruct (decide (added = 0)) as [->|Hne].
    - destruct (Hzero eq_refl) as [_ ->].
      assert (Heq : dom (load_rss_cache (rss_cache_file s1)) = dom cache').
      { apply set_subseteq_size_eq.
        - rewrite Hdom. apply union_subseteq_l.
        - rewrite !size_dom. lia. }
      rewrite Heq, Hdom. apply union_subseteq_r.
    - destruct (Hpos Hne) as [_ ->]. rewrite load_saved_cache, Hdom.
      apply union_subseteq_r. }
  (* the second cycle fetches and parses the same feed *)
  assert (Hweb : web (run (rss_refresh_loop cfg lib) s) = web s).
  { unfold run. rewrite E. by rewrite keeps_web_merge_and_requeue. }
  destruct (accumulate_all_present (parse_rss_entries root)
              (load_rss_cache (rss_cache_file (run (rss_refresh_loop cfg lib) s)))
              (parse_entries_text_ids root) Hsub) as [c2 Hc2].
  rewrite <- Hweb in H3.
  destruct (cycle_of_merge cfg lib _ cid text root H1 H2 H3 H4) as [_ ->].
  by rewrite Hc2.
Qed.

Lemma second_refresh_adds_nothing_witness :
  cycle_added demo_cfg feed_lib (run (rss_refresh_loop demo_cfg feed_lib) feed_state)
    = Some 0.
Proof.
  apply (second_refresh_adds_nothing demo_cfg feed_lib feed_state 2).
  vm_compute. reflexivity.
Defined.

(** ** The reminder task: what is posted, and the refill of an empty queue *)

#[local] Arguments Nat.modulo : simpl never.

Lemma caption_listed r :
  default "" (REMINDER_CAPTIONS !! (r mod length REMINDER_CAPTIONS)%nat)
    ∈ REMINDER_CAPTIONS.
Proof.
  assert (Hlt : (r mod length REMINDER_CAPTIONS < length REMINDER_CAPTIONS)%nat)
    by (apply Nat.mod_upper_bound; simpl; lia).
  destruct (lookup_lt_is_Some_2 _ _ Hlt) as [x Hx]. rewrite Hx. simpl.
  by eapply list_elem_of_lookup_2.
Qed.

(** The message [post_and_reinsert] sends for the last entry of the queue. *)
Lemma post_and_reinsert_message cfg lib ch s entry rest vid :
  reminder_queue s = rest ++ [entry] -> entry !! "id" = Some vid ->
  exists i s' embed,
    (i <= length rest)%nat /\
    post_and_reinsert cfg lib ch s = (Returned, s') /\
    reminder_queue s' = insert_at i entry rest /\
    trace s' = trace s ++
      [EvSend (ch_id ch) None embed
         (Some (por (dict_get entry "link") (VStr (youtube_watch_url lib vid))))] /\
    e_title embed = por (dict_get entry "title") (VStr "Video") /\
    e_url embed = por (dict_get entry "link") (VStr (youtube_watch_url lib vid)) /\
    e_thumbnail embed = por (dict_get entry "thumb") (VStr (default_thumb lib vid)) /\
    e_description embed ∈ REMINDER_CAPTIONS.
Proof.
  intros Hq Hid. unfold post_and_reinsert.
  unfold build_embed_for_entry, send, randint, next_random.
  munfold. rewrite Hq, pop_app. simpl. rewrite Hid.
  assert (Hb : forall r, (r mod S (length rest) <= length rest)%nat).
  { intros r. pose proof (Nat.mod_upper_bound r (S (length rest))). lia. }
  pose proof caption_listed as Hcap. simpl length in Hcap.
  repeat (simpl;
    match goal with
    | |- context [match rng ?x with _ => _ end] => destruct (rng x)
    | |- context [match api_tape ?x with _ => _ end] => destruct (api_tape x)
    | |- context [match ?x with [] => _ | _ :: _ => _ end] => is_var x; destruct x
    end);
  simpl; eexists _, _, _;
    (split; [apply Hb|]); (split; [reflexivity|]); (split; [reflexivity|]);
    (split; [reflexivity|]); simpl; repeat (split; [reflexivity|]);
    first [apply Hcap | exact (Hcap 0%nat)].
Qed.

Lemma reminder_loop_posts cfg lib s ch :
  REMINDER_CHANNEL_ID cfg <> 0 -> guild_known s = true ->
  lookup_channel (REMINDER_CHANNEL_ID cfg) (channels s) = Some ch ->
  is_text ch = true -> reminder_queue s <> [] ->
  reminder_loop cfg lib s = post_and_reinsert cfg lib ch s.
Proof.
  intros Hcfg Hg Hch Ht Hq. unfold reminder_loop.
  apply Z.eqb_neq in Hcfg. rewrite Hcfg. munfold. simpl. rewrite Hg. simpl.
  rewrite Hch, Ht. simpl. by destruct (reminder_queue s).
Qed.

Lemma sends_of_singleton c content embed url :
  sends_of [EvSend c content embed url] = [c].
Proof. done. Qed.

(** X9: when the reminder channel is a text channel of the known guild and
    the queue is not empty, one run of [reminder_loop] sends exactly one
    message, to that channel, for the entry at the end of the queue: its link
    (or the watch URL of its id) is the URL of the embed and of the button,
    its title (or the placeholder) is the title, and the caption is one of
    the five of [REMINDER_CAPTIONS].  With the channel id 0 nothing happens. *)
Theorem reminder_posts_last_entry cfg lib s ch entry rest vid :
  REMINDER_CHANNEL_ID cfg <> 0 -> guild_known s = true ->
  lookup_channel (REMINDER_CHANNEL_ID cfg) (channels s) = Some ch ->
  is_text ch = true ->
  reminder_queue s = rest ++ [entry] -> entry !! "id" = Some vid ->
  exists embed,
    trace (run (reminder_loop cfg lib) s) = trace s ++
      [EvSend (REMINDER_CHANNEL_ID cfg) None embed
         (Some (por (dict_get entry "link") (VStr (youtube_watch_url lib vid))))] /\
    e_title embed = por (dict_get entry "title") (VStr "Video") /\
    e_url embed = por (dict_get entry "link") (VStr (youtube_watch_url lib vid)) /\
    e_thumbnail embed = por (dict_get entry "thumb") (VStr (default_thumb lib vid)) /\
    e_description embed ∈ REMINDER_CAPTIONS.
Proof.
  intros Hcfg Hg Hch Ht Hq Hid.
  destruct (post_and_reinsert_message cfg lib ch s entry rest vid Hq Hid)
    as (i & s' & embed & _ & E & _ & Htr & H1 & H2 & H3 & H4).
  exists embed. rewrite <- (lookup_channel_id _ _ _ Hch). split; [|done].
  rewrite <- Htr. unfold run.
  rewrite (reminder_loop_posts cfg lib s ch Hcfg Hg Hch Ht); [by rewrite E|].
  rewrite Hq. by destruct rest.
Qed.

Lemma reminder_posts_last_entry_witness :
  exists embed,
    trace (run (reminder_loop demo_cfg demo_lib) one_entry_state)
      = [EvSend 8 None embed (Some (VStr "L1"))] /\
    e_title embed = VStr "T1".
Proof.
  destruct (reminder_posts_last_entry demo_cfg demo_lib one_entry_state
              (mkChannel 8 TextChannel "reminders" None None None)
              demo_entry_full [] (VStr "a"))
    as (embed & Htr & Htitle & _); try reflexivity.
  - discriminate.
  - exists embed. split; [exact Htr|exact Htitle].
Defined.

(** X10: [reminder_loop] does nothing at all, not even a refill of the queue,
    when the reminder channel is not configured, the guild is unknown, or
    the configured id names no text channel. *)
Theorem reminder_needs_text_channel cfg lib s :
  REMINDER_CHANNEL_ID cfg = 0 \/ guild_known s = false \/
  (forall ch, lookup_channel (REMINDER_CHANNEL_ID cfg) (channels s) = Some ch ->
              is_text ch = false) ->
  reminder_loop cfg lib s = (Returned, s).
Proof.
  intros H. unfold reminder_loop.
  destruct (Z.eqb_spec (REMINDER_CHANNEL_ID cfg) 0) as [|Hne]; [done|].
  destruct H as [H|[H|H]]; [done| |].
  - munfold. simpl. by rewrite H.
  - munfold. simpl. destruct (guild_known s); [|done]. simpl.
    destruct (lookup_channel _ _) as [ch|]; [|done].
    by rewrite (H ch eq_refl).
Qed.

Lemma reminder_needs_text_channel_witness :
  reminder_loop demo_cfg demo_lib (set_channels [] one_entry_state)
    = (Returned, set_channels [] one_entry_state).
Proof.
  apply reminder_needs_text_channel. right. right. intros ch H. discriminate H.
Defined.

Lemma shuffle_nil_state {A} s : shuffle (@nil A) s = ([], s).
Proof. done. Qed.

Lemma values_nil_iff (cache : gmap string (gmap string pyval)) :
  (map_to_list cache).*2 = [] <-> cache = ∅.
Proof.
  split.
  - intros H. apply fmap_nil_inv in H. by apply map_to_list_empty_iff.
  - intros ->. by rewrite map_to_list_empty.
Qed.

(** X11: when the reminder channel is a text channel of the known guild and
    every entry of the cache file carries an id, [reminder_loop] on an empty
    queue refills it from the file.  When the file holds no entry, nothing
    is sent and the queue stays empty; otherwise exactly one message is sent
    and the queue ends as a shuffle of all the entries of the file. *)
Theorem empty_queue_is_refilled cfg lib s ch :
  REMINDER_CHANNEL_ID cfg <> 0 -> guild_known s = true ->
  lookup_channel (REMINDER_CHANNEL_ID cfg) (channels s) = Some ch ->
  is_text ch = true ->
  reminder_queue s = [] ->
  (forall k e, load_rss_cache (rss_cache_file s) !! k = Some e -> has_id e) ->
  let cache := load_rss_cache (rss_cache_file s) in
  reminder_queue (run (reminder_loop cfg lib) s) ≡ₚ (map_to_list cache).*2 /\
  exists evs,
    trace (run (reminder_loop cfg lib) s) = trace s ++ evs /\
    sends_of evs = (if decide (cache = ∅) then [] else [REMINDER_CHANNEL_ID cfg]).
Proof.
  intros Hcfg Hg Hch Ht Hq Hids cache.
  unfold run, reminder_loop.
  apply Z.eqb_neq in Hcfg. rewrite Hcfg. munfold. simpl. rewrite Hg. simpl.
  rewrite Hch, Ht. simpl. rewrite Hq. fold cache.
  pose proof (shuffle_perm (map_to_list cache).*2 s) as Hp.
  pose proof (keeps_shuffle trace ltac:(done) (map_to_list cache).*2 s) as Kt.
  destruct (shuffle (map_to_list cache).*2 s) as [queue s1]. simpl in *.
  destruct queue as [|e1 q1] eqn:Hqueue.
  - apply Permutation_nil in Hp. apply values_nil_iff in Hp as Hc.
    simpl. split; [by rewrite Hp|]. exists []. rewrite app_nil_r, Kt.
    split; [done|]. by rewrite decide_True.
  - rewrite <- Hqueue in *.
    assert (Hne : queue <> []) by (rewrite Hqueue; done).
    destruct (pop_nonempty queue Hne) as (entry & rest & Hsplit & _).
    assert (Hentry : has_id entry).
    { assert (Hall : Forall has_id queue).
      { rewrite Hp. by apply values_have_ids. }
      rewrite Hsplit in Hall. apply Forall_app in Hall as [_ Hall].
      by apply Forall_cons in Hall as [Hall _]. }
    destruct Hentry as [vid Hvid].
    destruct (post_and_reinsert_message cfg lib ch (set_reminder_queue queue s1)
                entry rest vid Hsplit Hvid)
      as (i & s' & embed & _ & E & Hqueue' & Htr & _).
    rewrite E. simpl. split.
    + rewrite Hqueue', insert_at_perm, <- Hsplit. exact Hp.
    + eexists. rewrite Htr. simpl. rewrite Kt. split; [reflexivity|].
      rewrite sends_of_singleton, (lookup_channel_id _ _ _ Hch).
      rewrite decide_False; [done|].
      intros Hc. apply values_nil_iff in Hc. rewrite Hc in Hp.
      apply Permutation_nil_r in Hp. by rewrite Hp in Hne.
Qed.

Lemma empty_queue_is_refilled_witness :
  reminder_queue (run (reminder_loop demo_cfg demo_lib) refill_state)
    ≡ₚ (map_to_list (load_rss_cache (rss_cache_file refill_state))).*2.
Proof.
  apply (empty_queue_is_refilled demo_cfg demo_lib refill_state
           (mkChannel 8 TextChannel "reminders" None None None));
    try reflexivity.
  - discriminate.
  - intros k e H.
    assert (E : load_rss_cache (rss_cache_file refill_state) = {["a" := demo_entry_full]})
      by (vm_compute; reflexivity).
    rewrite E in H. apply lookup_singleton_Some in H as [_ <-]. by eexists.
Defined.

Lemma reminder_loop_returns cfg lib s :
  entries_have_ids s -> (reminder_loop cfg lib s).1 = Returned.
Proof.
  intros [Hc Hq]. unfold reminder_loop.
  destruct (Z.eqb (REMINDER_CHANNEL_ID cfg) 0); [done|].
  rewrite result_bind. unfold get_st at 1 2. simpl.
  destruct (guild_known s); simpl; [|done].
  rewrite result_bind. unfold get_channel at 1 2. munfold. simpl.
  destruct (lookup_channel (REMINDER_CHANNEL_ID cfg) (channels s)) as [ch|]; [|done].
  destruct (is_text ch); simpl; [|done].
  assert (Hpost : forall s0, reminder_queue s0 <> [] -> Forall has_id (reminder_queue s0) ->
                             (post_and_reinsert cfg lib ch s0).1 = Returned).
  { intros s0 Hne Hall.
    destruct (pop_nonempty (reminder_queue s0) Hne) as (entry & rest & Hsplit & _).
    rewrite Hsplit in Hall. apply Forall_app in Hall as [_ Hall].
    apply Forall_cons in Hall as [[vid Hvid] _].
    by destruct (post_and_reinsert_spec cfg lib ch s0 entry rest vid Hsplit Hvid)
      as (i & _ & -> & _). }
  destruct (reminder_queue s) as [|e0 q0] eqn:Hqs.
  2:{ apply Hpost; rewrite Hqs; done. }
  pose proof (shuffle_perm (map_to_list (load_rss_cache (rss_cache_file s))).*2 s) as Hp.
  destruct (shuffle (map_to_list (load_rss_cache (rss_cache_file s))).*2 s)
    as [queue s1]. simpl in *.
  destruct queue as [|e1 q1] eqn:Hqueue; [done|].
  apply Hpost; simpl; [done|]. rewrite Hp. by apply values_have_ids.
Qed.

(** X12: feed entries stay feed entries.  When every entry of the cache file
    and of the queue carries an id, that still holds after a run of
    [rss_refresh_loop] and after a run of [reminder_loop], and
    [reminder_loop] returns without raising, also when it has to refill an
    empty queue. *)
Theorem entries_keep_their_ids cfg lib s :
  entries_have_ids s ->
  entries_have_ids (run (rss_refresh_loop cfg lib) s) /\
  entries_have_ids (run (reminder_loop cfg lib) s) /\
  (reminder_loop cfg lib s).1 = Returned.
Proof.
  intros H. split; [by apply rss_refresh_loop_has_ids|].
  split; [by apply reminder_loop_has_ids|by apply reminder_loop_returns].
Qed.

Lemma entries_keep_their_ids_witness :
  entries_have_ids (run (rss_refresh_loop demo_cfg feed_lib) feed_state) /\
  (reminder_loop demo_cfg demo_lib
     (run (rss_refresh_loop demo_cfg feed_lib) feed_state)).1 = Returned.
Proof.
  assert (H0 : entries_have_ids feed_state).
  { split; [intros k e H; vm_compute in H; discriminate|constructor]. }
  destruct (entries_keep_their_ids demo_cfg feed_lib feed_state H0) as (H1 & _ & _).
  split; [exact H1|].
  apply (entries_keep_their_ids demo_cfg demo_lib _ H1).
Defined.

(** ** Finding a display surface by its name *)

Lemma prefix_refl (s : string) : String.prefix s s = true.
Proof. induction s as [|c s IH]; simpl; [done|]. by destruct (ascii_dec c c). Qed.

Lemma prefix_before_colon (s : string) : String.prefix (before_colon s) s = true.
Proof.
  induction s as [|c s IH]; simpl; [done|].
  destruct (Ascii.eqb c ":"); simpl; [done|]. by destruct (ascii_dec c c).
Qed.

Lemma name_prefix_is_prefix (name : string) : String.prefix (name_prefix name) name = true.
Proof.
  unfold name_prefix. destruct (contains ":" name);
    [apply prefix_before_colon|apply prefix_refl].
Qed.

Lemma prefix_trans (a b c : string) :
  String.prefix a b = true -> String.prefix b c = true -> String.prefix a c = true.
Proof.
  revert b c. induction a as [|x a IH]; intros [|y b] [|z c]; simpl; try done.
  destruct (ascii_dec x y) as [->|]; [|done].
  destruct (ascii_dec y z) as [->|]; [|done]. apply IH.
Qed.

Lemma find_vc_unfold cat name s :
  find_vc_by_name_or_prefix cat name s =
    (match List.find (fun c => same_category cat c && String.eqb (ch_name c) name)
                     (List.filter is_voice (channels s)) with
     | Some c => Some c
     | None => List.find (fun c => same_category cat c
                                   && String.prefix (name_prefix name) (ch_name c))
                         (List.filter is_voice (channels s))
     end, s).
Proof.
  unfold find_vc_by_name_or_prefix, voice_channels. munfold. simpl.
  by destruct (List.find _ _).
Qed.

Lemma find_filter_Some {A} (p q : A -> bool) l x :
  List.find p (List.filter q l) = Some x -> In x l /\ q x = true /\ p x = true.
Proof.
  intros H. apply find_some in H as [H1 H2].
  apply filter_In in H1 as [H1 H3]. done.
Qed.

Lemma find_filter_None {A} (p q : A -> bool) l :
  List.find p (List.filter q l) = None <->
  forall x, In x l -> q x = true -> p x = false.
Proof.
  split.
  - intros H x Hx Hq. apply (find_none _ _ H). by apply filter_In.
  - intros H. destruct (List.find p (List.filter q l)) as [x|] eqn:E; [|done].
    apply find_filter_Some in E as (H1 & H2 & H3). by rewrite (H x H1 H2) in H3.
Qed.

Lemma find_vc_Some cat name s c :
  (find_vc_by_name_or_prefix cat name s).1 = Some c ->
  In c (channels s) /\ is_voice c = true /\ same_category cat c = true /\
  String.prefix (name_prefix name) (ch_name c) = true.
Proof.
  rewrite find_vc_unfold. simpl.
  destruct (List.find _ _) as [c1|] eqn:E1.
  - intros [= <-]. apply find_filter_Some in E1 as (H1 & H2 & H3).
    apply andb_prop in H3 as [H3 H4]. apply String.eqb_eq in H4.
    repeat split; try done. rewrite H4. apply name_prefix_is_prefix.
  - intros E2. apply find_filter_Some in E2 as (H1 & H2 & H3).
    by apply andb_prop in H3 as [H3 H4].
Qed.

Lemma find_vc_None cat name s :
  (find_vc_by_name_or_prefix cat name s).1 = None <->
  forall c, In c (channels s) -> is_voice c = true -> same_category cat c = true ->
            String.prefix (name_prefix name) (ch_name c) = false.
Proof.
  rewrite find_vc_unfold. simpl. split.
  - destruct (List.find _ _) as [c1|] eqn:E1; [done|].
    intros E2 c Hc Hv Hcat.
    pose proof (proj1 (find_filter_None _ _ _) E2 c Hc Hv) as H.
    simpl in H. by rewrite Hcat in H.
  - intros H.
    assert (E2 : List.find (fun c => same_category cat c
                                     && String.prefix (name_prefix name) (ch_name c))
                   (List.filter is_voice (channels s)) = None).
    { apply find_filter_None. intros c Hc Hv.
      destruct (same_category cat c) eqn:Hcat; [|done]. simpl. by apply H. }
    rewrite E2.
    destruct (List.find (fun c => same_category cat c && String.eqb (ch_name c) name)
                (List.filter is_voice (channels s))) as [c1|] eqn:E1; [|done].
    apply find_filter_Some in E1 as (H1 & H2 & H3).
    apply andb_prop in H3 as [H3 H4]. apply String.eqb_eq in H4.
    specialize (H c1 H1 H2 H3). rewrite H4, name_prefix_is_prefix in H. done.
Qed.

(** X13: [find_vc_by_name_or_prefix] changes nothing and only ever answers a
    voice channel of the guild that lies in the category and whose name
    starts with the text before the first colon of the default name; it
    answers [None] exactly when the guild has no such channel, and it prefers
    a channel that bears the default name itself. *)
Theorem find_by_name_is_sound_and_complete cat name s :
  (find_vc_by_name_or_prefix cat name s).2 = s /\
  (forall c, (find_vc_by_name_or_prefix cat name s).1 = Some c ->
     In c (channels s) /\ is_voice c = true /\ same_category cat c = true /\
     String.prefix (name_prefix name) (ch_name c) = true) /\
  ((find_vc_by_name_or_prefix cat name s).1 = None <->
   forall c, In c (channels s) -> is_voice c = true -> same_category cat c = true ->
             String.prefix (name_prefix name) (ch_name c) = false) /\
  (forall c0, In c0 (channels s) -> is_voice c0 = true -> same_category cat c0 = true ->
     ch_name c0 = name ->
     exists c, (find_vc_by_name_or_prefix cat name s).1 = Some c /\ ch_name c = name).
Proof.
  split; [by rewrite find_vc_unfold|]. split; [apply find_vc_Some|].
  split; [apply find_vc_None|].
  intros c0 Hc Hv Hcat Hname. rewrite find_vc_unfold. simpl.
  destruct (List.find (fun c => same_category cat c && String.eqb (ch_name c) name) _)
    as [c1|] eqn:E1.
  - exists c1. split; [done|]. apply find_filter_Some in E1 as (_ & _ & H3).
    apply andb_prop in H3 as [_ H4]. by apply String.eqb_eq.
  - pose proof (proj1 (find_filter_None _ _ _) E1 c0 Hc Hv) as H.
    simpl in H. rewrite Hcat, Hname, String.eqb_refl in H. done.
Qed.

(** X14: a statistics surface the bot has renamed is found again by name.
    For each of the four statistics roles, the name [update_stats_channels]
    writes starts with the prefix that is searched for that role, so the
    search on the role's default name succeeds in any guild that has a voice
    channel of the category bearing that name. *)
Theorem renamed_stats_surfaces_are_found cfg ids stats :
  Forall2 (fun '(key, default_name) '(i, name) =>
      i = id_of_role ids key /\
      String.prefix (name_prefix default_name) name = true /\
      forall cat s c,
        In c (channels s) -> is_voice c = true -> same_category cat c = true ->
        ch_name c = name ->
        is_Some (find_vc_by_name_or_prefix cat default_name s).1)
    (take 4 READ_ONLY_DEFAULTS) (stats_updates cfg ids stats).
Proof.
  assert (Hfind : forall default_name name,
    String.prefix (name_prefix default_name) name = true ->
    forall cat s c,
      In c (channels s) -> is_voice c = true -> same_category cat c = true ->
      ch_name c = name ->
      is_Some (find_vc_by_name_or_prefix cat default_name s).1).
  { intros default_name name Hp cat s c Hc Hv Hcat Hname.
    destruct ((find_vc_by_name_or_prefix cat default_name s).1) as [c1|] eqn:E;
      [by eexists|].
    pose proof (proj1 (find_vc_None _ _ _) E c Hc Hv Hcat) as H.
    rewrite Hname, Hp in H. done. }
  destruct stats as [[subs views] videos]. simpl.
  repeat constructor; try (apply Hfind); reflexivity.
Qed.

Lemma find_existing_live cat default_name s :
  find_existing cat "live" default_name s =
    (match (find_vc_by_name_or_prefix cat "🟢 LIVE" s).1 with
     | Some c => Some c
     | None =>
         match (find_vc_by_name_or_prefix cat "🔴 OFFLINE" s).1 with
         | Some c => Some c
         | None => (find_vc_by_name_or_prefix cat default_name s).1
         end
     end, s).
Proof.
  unfold find_existing. simpl. munfold.
  rewrite (find_vc_unfold cat "🟢 LIVE" s). simpl.
  destruct (match List.find _ _ with Some c => Some c | None => _ end) as [c|]; [done|].
  rewrite (find_vc_unfold cat "🔴 OFFLINE" s). simpl.
  destruct (match List.find _ _ with Some c => Some c | None => _ end) as [c|]; [done|].
  by rewrite (find_vc_unfold cat default_name s).
Qed.

(** X15: the live surface is searched under the names it has while live and
    while offline only.  The search answers a voice channel of the category
    whose name starts with one of these two texts (or with the prefix of the
    default name), and [None] exactly when there is none; so a surface that
    was last renamed for an upcoming stream is not found by its name. *)
Theorem live_surface_is_found_by_two_names cat default_name s :
  (forall c, (find_existing cat "live" default_name s).1 = Some c ->
     In c (channels s) /\ is_voice c = true /\ same_category cat c = true /\
     (String.prefix "🟢 LIVE" (ch_name c) = true \/
      String.prefix "🔴 OFFLINE" (ch_name c) = true \/
      String.prefix (name_prefix default_name) (ch_name c) = true)) /\
  ((find_existing cat "live" default_name s).1 = None <->
   forall c, In c (channels s) -> is_voice c = true -> same_category cat c = true ->
     String.prefix "🟢 LIVE" (ch_name c) = false /\
     String.prefix "🔴 OFFLINE" (ch_name c) = false /\
     String.prefix (name_prefix default_name) (ch_name c) = false) /\
  ((forall c, In c (channels s) -> is_voice c = true ->
      ch_name c = (live_texts "upcoming").1) ->
   (find_existing cat "live" "🔴 OFFLINE" s).1 = None).
Proof.
  assert (Hnone : (find_existing cat "live" default_name s).1 = None <->
   forall c, In c (channels s) -> is_voice c = true -> same_category cat c = true ->
     String.prefix "🟢 LIVE" (ch_name c) = false /\
     String.prefix "🔴 OFFLINE" (ch_name c) = false /\
     String.prefix (name_prefix default_name) (ch_name c) = false).
  { rewrite find_existing_live. simpl. split.
    - destruct ((find_vc_by_name_or_prefix cat "🟢 LIVE" s).1) eqn:E1; [done|].
      destruct ((find_vc_by_name_or_prefix cat "🔴 OFFLINE" s).1) eqn:E2; [done|].
      intros E3 c Hc Hv Hcat.
      pose proof (proj1 (find_vc_None _ _ _) E1 c Hc Hv Hcat).
      pose proof (proj1 (find_vc_None _ _ _) E2 c Hc Hv Hcat).
      pose proof (proj1 (find_vc_None _ _ _) E3 c Hc Hv Hcat). done.
    - intros H.
      assert (E1 : (find_vc_by_name_or_prefix cat "🟢 LIVE" s).1 = None).
      { apply find_vc_None. intros c Hc Hv Hcat. by destruct (H c Hc Hv Hcat). }
      assert (E2 : (find_vc_by_name_or_prefix cat "🔴 OFFLINE" s).1 = None).
      { apply find_vc_None. intros c Hc Hv Hcat.
        by destruct (H c Hc Hv Hcat) as (_ & ? & _). }
      rewrite E1, E2. apply find_vc_None. intros c Hc Hv Hcat.
      by destruct (H c Hc Hv Hcat) as (_ & _ & ?). }
  split; [|split; [exact Hnone|]].
  - rewrite find_existing_live. simpl. intros c.
    destruct ((find_vc_by_name_or_prefix cat "🟢 LIVE" s).1) as [c1|] eqn:E1.
    { intros [= <-]. apply find_vc_Some in E1 as (H1 & H2 & H3 & H4).
      repeat split; try done. by left. }
    destruct ((find_vc_by_name_or_prefix cat "🔴 OFFLINE" s).1) as [c2|] eqn:E2.
    { intros [= <-]. apply find_vc_Some in E2 as (H1 & H2 & H3 & H4).
      repeat split; try done. right. by left. }
    intros E3. apply find_vc_Some in E3 as (H1 & H2 & H3 & H4).
    repeat split; try done. right. by right.
  - intros Hall. clear Hnone.
    rewrite find_existing_live. simpl.
    assert (E : forall name, String.prefix (name_prefix name) (live_texts "upcoming").1 = false ->
                (find_vc_by_name_or_prefix cat name s).1 = None).
    { intros name Hp. apply find_vc_None. intros c Hc Hv _. by rewrite (Hall c Hc Hv). }
    rewrite (E "🟢 LIVE") by reflexivity. by rewrite (E "🔴 OFFLINE") by reflexivity.
Qed.

(** ** Triples and steps *)

Lemma hoare_ret {A} (pre : St -> Prop) (a : A) (post : A -> St -> Prop) :
  (forall s, pre s -> post a s) -> hoare pre (mret a) post.
Proof. intros H s Hs. by apply H. Qed.

Lemma hoare_bind {A B} (pre : St -> Prop) (m : M A) (k : A -> M B)
    (mid : A -> St -> Prop) (post : B -> St -> Prop) :
  hoare pre m mid -> (forall a, hoare (mid a) (k a) post) -> hoare pre (m ≫= k) post.
Proof.
  intros Hm Hk s Hs. unfold mbind, M_bind.
  specialize (Hm s Hs). destruct (m s) as [a s1]. by apply Hk.
Qed.

Lemma hoare_conseq {A} (pre pre' : St -> Prop) (m : M A) (post post' : A -> St -> Prop) :
  (forall s, pre' s -> pre s) -> hoare pre m post ->
  (forall a s, post a s -> post' a s) -> hoare pre' m post'.
Proof. intros H1 H H2 s Hs. apply H2, H, H1, Hs. Qed.

Lemma hoare_fold_m_from {A B} (f : B -> A -> M B) (Inv : list A -> B -> St -> Prop)
    rest seen acc :
  (forall seen x acc, x ∈ rest ->
     hoare (Inv seen acc) (f acc x) (fun acc' s' => Inv (seen ++ [x]) acc' s')) ->
  hoare (Inv seen acc) (fold_m f rest acc) (Inv (seen ++ rest)).
Proof.
  revert seen acc. induction rest as [|x rest IH]; intros seen acc Hstep; simpl.
  { rewrite app_nil_r. by apply hoare_ret. }
  eapply hoare_bind.
  - apply Hstep. by left.
  - intros acc'. simpl.
    replace (seen ++ x :: rest) with ((seen ++ [x]) ++ rest) by by rewrite <- app_assoc.
    apply IH. intros seen' y acc'' Hy. apply Hstep. by right.
Qed.

Lemma hoare_fold_m {A B} (f : B -> A -> M B) (Inv : list A -> B -> St -> Prop) xs acc :
  (forall seen x acc, x ∈ xs ->
     hoare (Inv seen acc) (f acc x) (fun acc' s' => Inv (seen ++ [x]) acc' s')) ->
  hoare (Inv [] acc) (fold_m f xs acc) (Inv xs).
Proof. intros H. by apply (hoare_fold_m_from f Inv xs []). Qed.

Lemma bind_unfold {A B} (m : M A) (k : A -> M B) s :
  (m ≫= k) s = k (m s).1 (m s).2.
Proof. unfold mbind, M_bind. by destruct (m s). Qed.

Section Moves.
Context (R : St -> St -> Prop) `{!PreOrder R}.

Lemma moves_ret {A} (a : A) : moves R (mret a).
Proof. intros s. simpl. reflexivity. Qed.

Lemma moves_bind {A B} (m : M A) (k : A -> M B) :
  moves R m -> (forall a, moves R (k a)) -> moves R (m ≫= k).
Proof.
  intros Hm Hk s. unfold mbind, M_bind. specialize (Hm s).
  destruct (m s) as [a s1]. simpl in *. etrans; [exact Hm|apply Hk].
Qed.

Lemma moves_fold_m {A B} (f : B -> A -> M B) xs acc :
  (forall acc x, moves R (f acc x)) -> moves R (fold_m f xs acc).
Proof.
  intros H. revert acc. induction xs as [|x xs IH]; intros acc; simpl;
    [apply moves_ret|].
  apply moves_bind; [apply H|]. intros acc'. apply IH.
Qed.

(** A step relation is a post-condition of every state it was reached from. *)
Lemma moves_hoare {A} (m : M A) s0 :
  moves R m -> hoare (R s0) m (fun _ s => R s0 s).
Proof. intros H s Hs. etrans; [exact Hs|apply H]. Qed.
End Moves.

(** ** Channels that stay *)

Lemma ext_refl chs : ext chs chs.
Proof. exists []. by rewrite app_nil_r. Qed.

Lemma ext_trans a b c : ext a b -> ext b c -> ext a c.
Proof.
  intros [m1 H1] [m2 H2]. exists (m1 ++ m2). by rewrite H2, H1, app_assoc.
Qed.

Lemma ext_skeleton a b : skeleton a = skeleton b -> ext a b.
Proof. intros H. exists []. by rewrite app_nil_r. Qed.

Lemma ext_app a more : ext a (a ++ more).
Proof. exists (skeleton more). unfold skeleton. by rewrite map_app. Qed.

Lemma lookup_channel_ext chs chs' z c :
  ext chs chs' -> lookup_channel z chs = Some c ->
  exists c', lookup_channel z chs' = Some c' /\ ch_kind c' = ch_kind c /\ ch_id c' = z.
Proof.
  intros [more H]. revert chs' H. induction chs as [|c0 chs IH]; intros chs' H Hl;
    [done|].
  destruct chs' as [|c0' chs']; [by simpl in H|]. simpl in H. injection H as Hid Hk H.
  unfold lookup_channel in *. simpl in *. rewrite Hid.
  destruct (Z.eqb_spec (ch_id c0) z) as [Hz|Hz].
  - injection Hl as <-. exists c0'. repeat split; [done|by rewrite Hid].
  - by apply IH.
Qed.

Lemma voice_id_ext chs chs' i z :
  ext chs chs' -> voice_id chs i = Some z -> voice_id chs' i = Some z.
Proof.
  intros Hext. destruct i as [y|]; simpl; [|done].
  destruct (Z.eqb y 0); [done|].
  destruct (lookup_channel y chs) as [c|] eqn:Hl; [|done].
  destruct (is_voice c) eqn:Hv; [|done]. intros [= <-].
  destruct (lookup_channel_ext _ _ _ _ Hext Hl) as (c' & -> & Hk & _).
  unfold is_voice in *. by rewrite Hk, Hv.
Qed.

Lemma names_voice_ext chs chs' z :
  ext chs chs' -> names_voice chs z -> names_voice chs' z.
Proof.
  intros Hext (c & Hl & Hv).
  destruct (lookup_channel_ext _ _ _ _ Hext Hl) as (c' & Hl' & Hk & _).
  exists c'. split; [done|]. unfold is_voice in *. by rewrite Hk.
Qed.

#[local] Arguments lookup_channel : simpl never.

Lemma creates_of_app a b : creates_of (a ++ b) = creates_of a ++ creates_of b.
Proof. unfold creates_of. apply omap_app. Qed.

(** ** Quiet steps *)

Lemma quiet_step_preorder : PreOrder quiet_step.
Proof.
  split.
  - intros s. repeat split; [apply ext_refl|]. exists []. by rewrite app_nil_r.
  - intros a b c (Hv1 & He1 & evs1 & Ht1 & Hc1 & Hd1) (Hv2 & He2 & evs2 & Ht2 & Hc2 & Hd2).
    split; [congruence|]. split; [by eapply ext_trans|].
    exists (evs1 ++ evs2). rewrite Ht2, Ht1, app_assoc, creates_of_app, edits_of_app.
    by rewrite Hc1, Hc2, Hd1, Hd2.
Qed.

#[local] Existing Instance quiet_step_preorder.

Lemma quiet_same s s' :
  vc s' = vc s -> skeleton (channels s') = skeleton (channels s) -> trace s' = trace s ->
  quiet_step s s'.
Proof.
  intros Hv Hs Ht. split; [done|]. split; [by apply ext_skeleton|].
  exists []. by rewrite app_nil_r.
Qed.

Lemma quiet_emit e :
  creates_of [e] = [] -> edits_of [e] = [] -> moves quiet_step (emit e).
Proof.
  intros Hc Hd s. split; [done|]. split; [apply ext_refl|]. by exists [e].
Qed.

Lemma quiet_next_outcome : moves quiet_step next_outcome.
Proof.
  intros s. unfold next_outcome. destruct (api_tape s); simpl; by apply quiet_same.
Qed.

Lemma quiet_update_channel i f :
  (forall c, ch_id (f c) = ch_id c /\ ch_kind (f c) = ch_kind c) ->
  moves quiet_step (update_channel i f).
Proof.
  intros Hf s. apply quiet_same; [done| |done]. simpl.
  unfold skeleton. rewrite map_map. apply map_ext. intros c.
  destruct (Z.eqb (ch_id c) i); [|done]. by destruct (Hf c) as [-> ->].
Qed.

Lemma quiet_deny c : moves quiet_step (deny_connect_permissions c).
Proof.
  unfold deny_connect_permissions.
  destruct (negb _ || negb _); [|apply moves_ret; apply _].
  apply moves_bind; [apply _|by apply quiet_emit|]. intros _.
  apply moves_bind; [apply _|apply quiet_next_outcome|]. intros [| |];
    [|apply moves_ret; apply _..].
  by apply quiet_update_channel.
Qed.

Lemma quiet_create_channel name cat : moves quiet_step (create_channel CategoryChannel name cat).
Proof.
  intros s. split; [done|]. split; [apply ext_app|]. exists []. by rewrite app_nil_r.
Qed.

Lemma quiet_create_category name : moves quiet_step (create_category name).
Proof.
  unfold create_category.
  apply moves_bind; [apply _|by apply quiet_emit|]. intros _.
  apply moves_bind; [apply _|apply quiet_next_outcome|]. intros [| |];
    [|apply moves_ret; apply _..].
  apply moves_bind; [apply _|apply quiet_create_channel|]. intros c.
  apply moves_ret; apply _.
Qed.

Lemma quiet_resolve_category cfg : moves quiet_step (resolve_category cfg).
Proof.
  unfold resolve_category. destruct (String.eqb _ _); [apply moves_ret; apply _|].
  intros s. munfold.
  destruct (List.find _ _); [reflexivity|apply quiet_create_category].
Qed.

(** ** The first loop, when every stored id names a voice channel *)

Lemma by_id_run i s :
  by_id i s = (match voice_id (channels s) i with
               | Some z => lookup_channel z (channels s)
               | None => None
               end, s).
Proof.
  destruct i as [z|]; simpl; [|done]. destruct (Z.eqb z 0); [done|].
  munfold. simpl. destruct (lookup_channel z (channels s)) as [c|] eqn:Hl; simpl; [|done].
  destruct (is_voice c); simpl; [by rewrite ?Hl|done].
Qed.

Lemma voice_id_lookup chs i z :
  voice_id chs i = Some z ->
  i = Some z /\ exists c, lookup_channel z chs = Some c /\ is_voice c = true /\ ch_id c = z.
Proof.
  destruct i as [y|]; simpl; [|done]. destruct (Z.eqb y 0); [done|].
  destruct (lookup_channel y chs) as [c|] eqn:Hl; [|done].
  destruct (is_voice c) eqn:Hv; [|done]. intros [= <-]. split; [done|].
  exists c. repeat split; try done. by eapply lookup_channel_id.
Qed.

Lemma resolve_by_id_all ids s0 :
  (forall key d, (key, d) ∈ READ_ONLY_DEFAULTS ->
     is_Some (voice_id (channels s0) (id_of_role ids key))) ->
  hoare (quiet_step s0) (resolve_by_id ids)
        (fun resolved s => quiet_step s0 s /\ resolved_by ids READ_ONLY_DEFAULTS resolved).
Proof.
  intros Hall. unfold resolve_by_id.
  eapply hoare_conseq;
    [|apply (hoare_fold_m _ (fun seen resolved s =>
               quiet_step s0 s /\ resolved_by ids seen resolved))|done].
  { intros s Hs. split; [done|]. intros key d Hin. by apply elem_of_nil in Hin. }
  intros seen [key d] acc Hin s [Hq Hres]. cbv beta iota.
  unfold mbind, M_bind. rewrite by_id_run.
  destruct (Hall key d Hin) as [z Hz].
  destruct Hq as (Hv & He & Hevs).
  apply (voice_id_ext _ _ _ _ He) in Hz. rewrite Hz.
  apply voice_id_lookup in Hz as (Hi & c & Hl & Hvoice & Hid). rewrite Hl.
  pose proof (quiet_deny c s) as Hd.
  destruct (deny_connect_permissions c s) as [[] s1]. simpl in *. split.
  - etrans; [|exact Hd]. done.
  - intros k d' Hk. destruct (decide (k = key)) as [->|Hne].
    + exists c. rewrite lookup_insert_eq. split; [done|]. by rewrite Hi, Hid.
    + rewrite lookup_insert_ne by done. apply elem_of_app in Hk as [Hk|Hk].
      * by apply (Hres k d').
      * apply list_elem_of_singleton in Hk. by injection Hk as -> ->.
Qed.

(** ** The second loop, when nothing is missing *)

Lemma discover_nothing_missing cat keys resolved s :
  (forall key d, (key, d) ∈ keys -> is_Some (resolved !! key)) ->
  fold_m (fun (resolved : gmap string channel) '(key, default_name) =>
      match resolved !! key with
      | Some _ => mret resolved
      | None =>
          existing ← find_existing cat key default_name;
          match existing with
          | None =>
              created ← create_voice_channel default_name cat;
              match created with
              | Some c => deny_connect_permissions c;; mret (<[key := c]> resolved)
              | None => mret resolved
              end
          | Some c => deny_connect_permissions c;; mret (<[key := c]> resolved)
          end
      end) keys resolved s = (resolved, s).
Proof.
  induction keys as [|[key d] keys IH]; intros H; [done|]. simpl.
  destruct (H key d) as [c Hc]; [by left|]. rewrite Hc. munfold.
  apply IH. intros k d' Hin. apply (H k d'). by right.
Qed.

Lemma store_ids_same cfg resolved s :
  resolved_by (vc s) READ_ONLY_DEFAULTS resolved ->
  vc (run (store_ids cfg resolved) s) = vc s /\
  trace (run (store_ids cfg resolved) s) = trace s ++ [EvWriteFile (CHANNEL_ID_STORE cfg)].
Proof.
  intros H. split; [|done]. unfold run, store_ids, save_ids. munfold. simpl.
  destruct (H "subs" "📊 Subs: 0"%string) as (c1 & -> & H1); [set_solver|].
  destruct (H "views" "👁️ Views: 0"%string) as (c2 & -> & H2); [set_solver|].
  destruct (H "videos" "🎞️ Videos: 0"%string) as (c3 & -> & H3); [set_solver|].
  destruct (H "goal" "🎯 Goal: 0"%string) as (c4 & -> & H4); [set_solver|].
  destruct (H "members" "👥 Members: 0"%string) as (c5 & -> & H5); [set_solver|].
  destruct (H "live" "🔴 OFFLINE"%string) as (c6 & -> & H6); [set_solver|].
  unfold id_of_role in *. simpl in *.
  destruct (vc s). simpl in *. congruence.
Qed.


(** ** Steps that keep a sound guild sound *)

Lemma grow_step_preorder : PreOrder grow_step.
Proof.
  split.
  - intros s. split; [done|apply ext_refl].
  - intros a b c [H1 E1] [H2 E2]. split; [tauto|by eapply ext_trans].
Qed.

#[local] Existing Instance grow_step_preorder.

Lemma grow_same s s' :
  channels s' = channels s -> next_channel_id s' = next_channel_id s ->
  api_tape s' = api_tape s -> grow_step s s'.
Proof.
  intros Hc Hn Ht. split; [|rewrite Hc; apply ext_refl].
  unfold sound, guild_wf. by rewrite Hc, Hn, Ht.
Qed.

Lemma grow_emit e : moves grow_step (emit e).
Proof. intros s. by apply grow_same. Qed.

Lemma grow_next_outcome : moves grow_step next_outcome.
Proof.
  intros s. unfold next_outcome. destruct (api_tape s) eqn:E; simpl.
  - by apply grow_same.
  - split; [|apply ext_refl]. intros [_ H]. congruence.
Qed.

Lemma grow_update_channel i f :
  (forall c, ch_id (f c) = ch_id c /\ ch_kind (f c) = ch_kind c) ->
  moves grow_step (update_channel i f).
Proof.
  intros Hf s. split.
  - intros [(Hnd & Hall & Hpos) Htape]. repeat split; simpl; try done.
    + rewrite <- list_fmap_compose.
      erewrite list_fmap_ext; [exact Hnd|]. intros k c _. simpl.
      destruct (Z.eqb (ch_id c) i); [|done]. by destruct (Hf c) as [-> _].
    + apply Forall_fmap. eapply Forall_impl; [exact Hall|]. intros c Hc. simpl.
      destruct (Z.eqb (ch_id c) i); [|done]. by destruct (Hf c) as [-> _].
  - apply ext_skeleton. simpl. symmetry. by apply skeleton_update.
Qed.

Lemma grow_deny c : moves grow_step (deny_connect_permissions c).
Proof.
  unfold deny_connect_permissions.
  destruct (negb _ || negb _); [|apply moves_ret; apply _].
  apply moves_bind; [apply _|by apply grow_emit|]. intros _.
  apply moves_bind; [apply _|apply grow_next_outcome|]. intros [| |];
    [|apply moves_ret; apply _..].
  by apply grow_update_channel.
Qed.

Lemma lookup_channel_fresh chs c :
  Forall (fun c0 => ch_id c0 < ch_id c) chs ->
  lookup_channel (ch_id c) (chs ++ [c]) = Some c.
Proof.
  unfold lookup_channel. induction 1 as [|c0 chs H _ IH]; simpl.
  - by rewrite Z.eqb_refl.
  - destruct (Z.eqb_spec (ch_id c0) (ch_id c)); [lia|done].
Qed.

Lemma lookup_channel_In chs c :
  NoDup (ch_id <$> chs) -> In c chs -> lookup_channel (ch_id c) chs = Some c.
Proof.
  unfold lookup_channel. induction chs as [|c0 chs IH]; simpl; [done|].
  rewrite NoDup_cons. intros [Hnot Hnd] [->|Hin].
  - by rewrite Z.eqb_refl.
  - destruct (Z.eqb_spec (ch_id c0) (ch_id c)) as [E|_]; [|by apply IH].
    destruct Hnot. rewrite E. apply list_elem_of_fmap. exists c.
    split; [done|]. by apply list_elem_of_In.
Qed.

(** What [create_channel] does to a sound guild. *)
Lemma create_channel_sound kind name cat s :
  sound s ->
  let c := mkChannel (next_channel_id s) kind name cat None None in
  create_channel kind name cat s
    = (c, set_next_channel_id (next_channel_id s + 1)
            (set_channels (channels s ++ [c]) s)) /\
  sound (create_channel kind name cat s).2 /\
  lookup_channel (ch_id c) (channels (create_channel kind name cat s).2) = Some c.
Proof.
  intros [(Hnd & Hall & Hpos) Htape] c. split; [done|]. simpl.
  assert (Hlt : Forall (fun c0 => ch_id c0 < ch_id c) (channels s)).
  { eapply Forall_impl; [exact Hall|]. simpl. intros; lia. }
  split; [|exact (lookup_channel_fresh (channels s) c Hlt)].
  repeat split; simpl; try done; try lia.
  - rewrite fmap_app. apply NoDup_app. split; [done|]. split; [|apply NoDup_singleton].
    intros z Hz Hz'. apply list_elem_of_singleton in Hz'. subst z.
    apply list_elem_of_fmap in Hz as (c0 & E & Hin).
    rewrite Forall_forall in Hlt.
    specialize (Hlt c0 Hin). simpl in *. lia.
  - apply Forall_app. split.
    + eapply Forall_impl; [exact Hall|]. simpl. intros; lia.
    + apply Forall_singleton. simpl. lia.
Qed.

Lemma grow_create_channel kind name cat : moves grow_step (create_channel kind name cat).
Proof.
  intros s. split.
  - intros Hs. by destruct (create_channel_sound kind name cat s Hs) as (_ & H & _).
  - apply ext_app.
Qed.

Lemma grow_create_category name : moves grow_step (create_category name).
Proof.
  unfold create_category.
  apply moves_bind; [apply _|by apply grow_emit|]. intros _.
  apply moves_bind; [apply _|apply grow_next_outcome|]. intros [| |];
    [|apply moves_ret; apply _..].
  apply moves_bind; [apply _|apply grow_create_channel|]. intros c.
  apply moves_ret; apply _.
Qed.

Lemma grow_resolve_category cfg : moves grow_step (resolve_category cfg).
Proof.
  unfold resolve_category. destruct (String.eqb _ _); [apply moves_ret; apply _|].
  intros s. munfold.
  destruct (List.find _ _); [reflexivity|apply grow_create_category].
Qed.

Lemma all_voice_ext resolved s s' :
  ext (channels s) (channels s') -> all_voice resolved s -> all_voice resolved s'.
Proof. intros He H key c Hc. eapply voice_id_ext; [exact He|]. by eapply H. Qed.

Lemma all_voice_insert resolved key c s :
  voice_id (channels s) (Some (ch_id c)) = Some (ch_id c) ->
  all_voice resolved s -> all_voice (<[key := c]> resolved) s.
Proof.
  intros Hc H k c0. destruct (decide (k = key)) as [->|Hne].
  - rewrite lookup_insert_eq. by intros [= <-].
  - rewrite lookup_insert_ne by done. apply H.
Qed.

(** A channel of a sound guild that is a voice channel has an id [by_id]
    accepts. *)
Lemma voice_id_In s c :
  sound s -> In c (channels s) -> is_voice c = true ->
  voice_id (channels s) (Some (ch_id c)) = Some (ch_id c).
Proof.
  intros [(Hnd & Hall & _) _] Hin Hv. simpl.
  rewrite Forall_forall in Hall.
  specialize (Hall c (proj2 (list_elem_of_In _ _) Hin)).
  destruct (Z.eqb_spec (ch_id c) 0); [lia|].
  by rewrite (lookup_channel_In _ _ Hnd Hin), Hv.
Qed.

(** The step of both loops once a channel is found: deny, then record. *)
Lemma record_step key c resolved s :
  sound s -> all_voice resolved s ->
  voice_id (channels s) (Some (ch_id c)) = Some (ch_id c) ->
  let r := (deny_connect_permissions c;; mret (<[key := c]> resolved)) s in
  r.1 = <[key := c]> resolved /\ sound r.2 /\ all_voice r.1 r.2.
Proof.
  intros Hs Hall Hc. unfold mbind, M_bind.
  pose proof (grow_deny c s) as [Hd He].
  destruct (deny_connect_permissions c s) as [[] s1]. simpl in *.
  split; [done|]. split; [by apply Hd|].
  eapply all_voice_ext; [exact He|]. by apply all_voice_insert.
Qed.

Lemma resolve_by_id_sound ids :
  hoare sound (resolve_by_id ids) (fun resolved s => sound s /\ all_voice resolved s).
Proof.
  unfold resolve_by_id.
  eapply hoare_conseq;
    [|apply (hoare_fold_m _ (fun _ resolved s => sound s /\ all_voice resolved s))|done].
  { intros s Hs. split; [done|]. intros key c Hc. by rewrite lookup_empty in Hc. }
  intros seen [key d] acc Hin s [Hs Hall]. cbv beta iota.
  rewrite bind_unfold, by_id_run. cbn [fst snd].
  destruct (voice_id (channels s) (id_of_role ids key)) as [z|] eqn:Hz;
    [|exact (conj Hs Hall)].
  apply voice_id_lookup in Hz as (Hi & c & Hl & Hvoice & Hid). rewrite Hl.
  assert (Hc : voice_id (channels s) (Some (ch_id c)) = Some (ch_id c)).
  { apply voice_id_In; [done| |done]. unfold lookup_channel in Hl.
    by apply find_some in Hl as [? _]. }
  by destruct (record_step key c acc s Hs Hall Hc) as (_ & H1 & H2).
Qed.

Lemma find_existing_Some cat key d s c :
  (find_existing cat key d s).1 = Some c -> In c (channels s) /\ is_voice c = true.
Proof.
  destruct (String.eqb_spec key "live") as [->|Hne].
  - rewrite find_existing_live. simpl.
    destruct ((find_vc_by_name_or_prefix cat "🟢 LIVE" s).1) as [c1|] eqn:E1.
    { intros [= <-]. by apply find_vc_Some in E1 as (? & ? & _). }
    destruct ((find_vc_by_name_or_prefix cat "🔴 OFFLINE" s).1) as [c2|] eqn:E2.
    { intros [= <-]. by apply find_vc_Some in E2 as (? & ? & _). }
    intros E3. by apply find_vc_Some in E3 as (? & ? & _).
  - unfold find_existing. apply String.eqb_neq in Hne. rewrite Hne.
    intros E. by apply find_vc_Some in E as (? & ? & _).
Qed.

Lemma find_existing_state cat key d s : (find_existing cat key d s).2 = s.
Proof. by apply (keeps_find_existing (fun s => s)). Qed.

Lemma create_voice_sound name cat s :
  sound s ->
  exists c, (create_voice_channel name cat s).1 = Some c /\
            sound (create_voice_channel name cat s).2 /\
            ext (channels s) (channels (create_voice_channel name cat s).2) /\
            voice_id (channels (create_voice_channel name cat s).2) (Some (ch_id c))
              = Some (ch_id c).
Proof.
  intros Hs. pose proof Hs as [(_ & _ & Hpos) Htape].
  unfold create_voice_channel. munfold. simpl. rewrite Htape. simpl.
  set (s1 := set_trace _ s).
  assert (Hs1 : sound s1) by (by apply (grow_emit _ s)).
  destruct (create_channel_sound VoiceChannel name (ch_id <$> cat) s1 Hs1)
    as (E & Hs2 & Hl).
  unfold create_channel in *. munfold. simpl in *.
  eexists. split; [done|]. split; [exact Hs2|]. split; [apply ext_app|].
  simpl. destruct (Z.eqb_spec (next_channel_id s) 0); [lia|]. by rewrite Hl.
Qed.

Lemma discover_or_create_sound cat resolved0 :
  hoare (fun s => sound s /\ all_voice resolved0 s)
        (discover_or_create cat resolved0)
        (fun resolved s => sound s /\ all_voice resolved s /\
           forall key d, (key, d) ∈ READ_ONLY_DEFAULTS -> is_Some (resolved !! key)).
Proof.
  unfold discover_or_create.
  eapply hoare_conseq;
    [|apply (hoare_fold_m _ (fun seen resolved s => sound s /\ all_voice resolved s /\
               forall key d, (key, d) ∈ seen -> is_Some (resolved !! key)))|done].
  { intros s [Hs Hall]. split; [done|split; [done|]].
    intros key d Hin. by apply elem_of_nil in Hin. }
  intros seen [key d] acc Hin s (Hs & Hall & Hseen). cbv beta iota.
  assert (Hmore : forall r : gmap string channel,
            (forall k, is_Some (acc !! k) -> is_Some (r !! k)) ->
            is_Some (r !! key) ->
            forall k d', (k, d') ∈ seen ++ [(key, d)] -> is_Some (r !! k)).
  { intros r Hmono Hkey k d' Hk. apply elem_of_app in Hk as [Hk|Hk].
    - apply Hmono. by apply (Hseen k d').
    - apply list_elem_of_singleton in Hk. by injection Hk as -> ->. }
  assert (Hins : forall c k, is_Some (acc !! k) -> is_Some (<[key := c]> acc !! k)).
  { intros c k Hk. destruct (decide (k = key)) as [->|Hne].
    - rewrite lookup_insert_eq. by eexists.
    - by rewrite lookup_insert_ne. }
  destruct (acc !! key) as [c0|] eqn:Hacc.
  { simpl. split; [done|split; [done|]]. apply Hmore; [done|]. by rewrite Hacc. }
  rewrite bind_unfold.
  pose proof (find_existing_state cat key d s) as Hst.
  pose proof (find_existing_Some cat key d s) as Hfound.
  destruct (find_existing cat key d s) as [[c|] s1]; simpl in Hst, Hfound; subst s1;
    cbn [fst snd].
  - destruct (Hfound c eq_refl) as [Hc Hv].
    destruct (record_step key c acc s Hs Hall (voice_id_In s c Hs Hc Hv))
      as (E & H1 & H2).
    split; [done|split; [done|]]. rewrite E. apply Hmore; [apply Hins|].
    rewrite lookup_insert_eq. by eexists.
  - rewrite bind_unfold.
    destruct (create_voice_sound d cat s Hs) as (c & E & Hs1 & He & Hc).
    destruct (create_voice_channel d cat s) as [created s1]. simpl in *. subst created.
    cbn [fst snd].
    destruct (record_step key c acc s1 Hs1 (all_voice_ext _ _ _ He Hall) Hc)
      as (E & H1 & H2).
    split; [done|split; [done|]]. rewrite E. apply Hmore; [apply Hins|].
    rewrite lookup_insert_eq. by eexists.
Qed.

Lemma store_ids_resolved cfg resolved s key d c :
  (key, d) ∈ READ_ONLY_DEFAULTS -> resolved !! key = Some c ->
  id_of_role (vc (run (store_ids cfg resolved) s)) key = Some (ch_id c).
Proof.
  intros Hin Hc. unfold run, store_ids, save_ids. munfold. simpl.
  repeat (apply elem_of_cons in Hin as [[= -> ->]|Hin];
          [by (unfold id_of_role; simpl; rewrite Hc)|]).
  by apply elem_of_nil in Hin.
Qed.

Lemma store_ids_guild cfg resolved s :
  channels (run (store_ids cfg resolved) s) = channels s /\
  next_channel_id (run (store_ids cfg resolved) s) = next_channel_id s /\
  api_tape (run (store_ids cfg resolved) s) = api_tape s.
Proof. done. Qed.

(** The state [ensure_stats_voice_channels] leaves, from a sound guild. *)
Lemma ensure_sound cfg s :
  sound s ->
  sound (run (ensure_stats_voice_channels cfg) s) /\
  forall key d, (key, d) ∈ READ_ONLY_DEFAULTS ->
    is_Some (voice_id (channels (run (ensure_stats_voice_channels cfg) s))
                      (id_of_role (vc (run (ensure_stats_voice_channels cfg) s)) key)).
Proof.
  intros Hs. unfold ensure_stats_voice_channels.
  rewrite run_bind. pose proof (grow_resolve_category cfg s) as [Hq _].
  destruct (resolve_category cfg s) as [cat s1]. cbn [fst snd] in *.
  specialize (Hq Hs).
  rewrite run_bind. unfold get_st. cbn [fst snd].
  rewrite run_bind.
  pose proof (resolve_by_id_sound (vc s1) s1 Hq) as H2.
  destruct (resolve_by_id (vc s1) s1) as [resolved1 s2]. cbn [fst snd] in *.
  rewrite run_bind.
  pose proof (discover_or_create_sound cat resolved1 s2 H2) as (Hs3 & Hall & Hres).
  destruct (discover_or_create cat resolved1 s2) as [resolved s3]. cbn [fst snd] in *.
  destruct (store_ids_guild cfg resolved s3) as (Ec & En & Et).
  split.
  - unfold sound, guild_wf. by rewrite Ec, En, Et.
  - intros key d Hin. destruct (Hres key d Hin) as [c Hc].
    rewrite (store_ids_resolved cfg resolved s3 key d c Hin Hc), Ec.
    exists (ch_id c). by apply (Hall key).
Qed.

Lemma ensure_quiet cfg s :
  (forall key d, (key, d) ∈ READ_ONLY_DEFAULTS ->
     is_Some (voice_id (channels s) (id_of_role (vc s) key))) ->
  vc (run (ensure_stats_voice_channels cfg) s) = vc s /\
  exists evs, trace (run (ensure_stats_voice_channels cfg) s) = trace s ++ evs /\
              creates_of evs = [] /\ edits_of evs = [].
Proof.
  intros Hall. unfold ensure_stats_voice_channels.
  rewrite run_bind. pose proof (quiet_resolve_category cfg s) as Hq.
  destruct (resolve_category cfg s) as [cat s1]. cbn [fst snd] in *.
  rewrite run_bind. unfold get_st. cbn [fst snd].
  assert (Hall1 : forall key d, (key, d) ∈ READ_ONLY_DEFAULTS ->
            is_Some (voice_id (channels s1) (id_of_role (vc s1) key))).
  { intros key d Hin. destruct (Hall key d Hin) as [z Hz]. exists z.
    destruct Hq as (-> & He & _). by eapply voice_id_ext. }
  rewrite run_bind.
  pose proof (resolve_by_id_all (vc s1) s1 Hall1 s1 (reflexivity _)) as [Hq2 Hres].
  destruct (resolve_by_id (vc s1) s1) as [resolved s2]. cbn [fst snd] in *.
  rewrite run_bind. unfold discover_or_create.
  rewrite discover_nothing_missing
    by (intros key d Hin; destruct (Hres key d Hin) as (c & -> & _); by eexists).
  cbn [fst snd].
  assert (Hres2 : resolved_by (vc s2) READ_ONLY_DEFAULTS resolved).
  { destruct Hq2 as (-> & _). exact Hres. }
  destruct (store_ids_same cfg resolved s2 Hres2) as [Hv Ht].
  destruct Hq as (Hv1 & _ & evs1 & Ht1 & Hc1 & Hd1).
  destruct Hq2 as (Hv2 & _ & evs2 & Ht2 & Hc2 & Hd2).
  split; [congruence|].
  exists (evs1 ++ evs2 ++ [EvWriteFile (CHANNEL_ID_STORE cfg)]).
  rewrite Ht, Ht2, Ht1, !creates_of_app, !edits_of_app, Hc1, Hc2, Hd1, Hd2.
  by rewrite <- !app_assoc.
Qed.

(** X16: when each of the six stored ids names a voice channel of the guild,
    [ensure_stats_voice_channels] keeps the six ids, creates no voice channel
    and renames none. *)
Theorem ensure_with_known_ids_creates_nothing cfg s :
  (forall key d, (key, d) ∈ READ_ONLY_DEFAULTS ->
     is_Some (voice_id (channels s) (id_of_role (vc s) key))) ->
  let s' := run (ensure_stats_voice_channels cfg) s in
  vc s' = vc s /\
  exists evs, trace s' = trace s ++ evs /\ creates_of evs = [] /\ edits_of evs = [].
Proof. apply ensure_quiet. Qed.

Lemma ensure_with_known_ids_creates_nothing_witness :
  let s' := run (ensure_stats_voice_channels demo_cfg) demo_state in
  vc s' = vc demo_state /\
  exists evs, trace s' = trace demo_state ++ evs /\ creates_of evs = [] /\ edits_of evs = [].
Proof.
  apply (ensure_with_known_ids_creates_nothing demo_cfg demo_state).
  intros key d Hin.
  repeat (apply elem_of_cons in Hin as [[= -> ->]|Hin];
          [eexists; vm_compute; reflexivity|]).
  by apply elem_of_nil in Hin.
Defined.

(** X17: in a guild whose channel ids are distinct and positive, and with
    every call of the chat API succeeding, [ensure_stats_voice_channels] ends
    with each of the six ids set to the id of a voice channel of the guild;
    the guild stays well formed. *)
Theorem ensure_resolves_every_role cfg s :
  guild_wf s -> api_tape s = [] ->
  let s' := run (ensure_stats_voice_channels cfg) s in
  guild_wf s' /\ api_tape s' = [] /\
  forall key d, (key, d) ∈ READ_ONLY_DEFAULTS ->
    exists z, id_of_role (vc s') key = Some z /\ z <> 0 /\ names_voice (channels s') z.
Proof.
  intros Hwf Htape s'. destruct (ensure_sound cfg s (conj Hwf Htape)) as [[H1 H2] H3].
  split; [done|]. split; [done|]. intros key d Hin. destruct (H3 key d Hin) as [z Hz].
  apply voice_id_lookup in Hz as (Hi & c & Hl & Hv & Hid).
  exists z. split; [done|]. split; [|by exists c].
  destruct H1 as (_ & Hall & _). rewrite Forall_forall in Hall.
  unfold lookup_channel in Hl. apply find_some in Hl as [Hin' _].
  specialize (Hall c (proj2 (list_elem_of_In _ _) Hin')). lia.
Qed.

Lemma ensure_resolves_every_role_witness :
  let s' := run (ensure_stats_voice_channels demo_cfg) empty_state in
  guild_wf s' /\ api_tape s' = [] /\
  forall key d, (key, d) ∈ READ_ONLY_DEFAULTS ->
    exists z, id_of_role (vc s') key = Some z /\ z <> 0 /\ names_voice (channels s') z.
Proof.
  assert (W : guild_wf empty_state).
  { split; [apply NoDup_nil_2|]. split; [apply Forall_nil_2|simpl; lia]. }
  exact (ensure_resolves_every_role demo_cfg empty_state W eq_refl).
Defined.

(** X18: in such a guild, running [ensure_stats_voice_channels] a second
    time keeps the six ids, creates no voice channel and renames none. *)
Theorem second_ensure_creates_nothing cfg s :
  guild_wf s -> api_tape s = [] ->
  let s1 := run (ensure_stats_voice_channels cfg) s in
  let s2 := run (ensure_stats_voice_channels cfg) s1 in
  vc s2 = vc s1 /\
  exists evs, trace s2 = trace s1 ++ evs /\ creates_of evs = [] /\ edits_of evs = [].
Proof.
  intros Hwf Htape s1 s2. apply ensure_quiet.
  by destruct (ensure_sound cfg s (conj Hwf Htape)) as [_ H].
Qed.

Lemma second_ensure_creates_nothing_witness :
  let s1 := run (ensure_stats_voice_channels demo_cfg) empty_state in
  let s2 := run (ensure_stats_voice_channels demo_cfg) s1 in
  vc s2 = vc s1 /\
  exists evs, trace s2 = trace s1 ++ evs /\ creates_of evs = [] /\ edits_of evs = [].
Proof.
  assert (W : guild_wf empty_state).
  { split; [apply NoDup_nil_2|]. split; [apply Forall_nil_2|simpl; lia]. }
  exact (second_ensure_creates_nothing demo_cfg empty_state W eq_refl).
Defined.

#[local] Arguments lookup_channel : simpl never.

(** ** The classifier of the live page *)

Lemma follow_watch_result href s :
  (follow_watch href s).1 = Some "live"%string \/
  (follow_watch href s).1 = Some "upcoming"%string \/
  (follow_watch href s).1 = Some "offline"%string.
Proof.
  unfold follow_watch, http_get. munfold. simpl.
  destruct (web s href) as [| |html2]; simpl; auto.
  destruct (flag_live html2); simpl; auto.
  destruct (flag_upcoming html2); simpl; auto.
  destruct (flag_offline html2); simpl; auto.
Qed.

Lemma follow_watch_state href s :
  (follow_watch href s).2 = set_trace (trace s ++ [EvHttpGet href]) s.
Proof.
  unfold follow_watch, http_get. munfold. simpl.
  destruct (web s href) as [| |html2]; simpl; auto.
  destruct (flag_live html2); simpl; auto.
  destruct (flag_upcoming html2); simpl; auto.
  destruct (flag_offline html2); simpl; auto.
Qed.

Lemma classify_page_cases html s :
  (flag_live html || flag_offline html || flag_upcoming html = true /\
   (classify_page html s).2 = s /\
   ((classify_page html s).1 = Some "live"%string \/
    (classify_page html s).1 = Some "upcoming"%string \/
    (classify_page html s).1 = Some "offline"%string)) \/
  (flag_live html = false /\ flag_offline html = false /\ flag_upcoming html = false /\
   classify_page html s
     = (None, set_debug_live_html (Some html)
                (set_trace (trace s ++ [EvWriteFile "debug_live.html"]) s))).
Proof.
  unfold classify_page.
  destruct (flag_live html); [left; simpl; auto|].
  destruct (flag_offline html); [left; simpl; auto|].
  destruct (flag_upcoming html); [left; simpl; auto|].
  right. munfold. done.
Qed.

(** X19: [yt_is_live_noapi] answers one of the three states or [None], and
    [None] exactly when the live page could not be fetched or bears no
    status marker. *)
Theorem classifier_answers channel_id s :
  let r := (yt_is_live_noapi channel_id s).1 in
  (r = None \/ r = Some "live"%string \/ r = Some "upcoming"%string \/
   r = Some "offline"%string) /\
  (r = None <-> match web s (YTLIVE_URL channel_id) with
                | Body html => no_marker html = true
                | _ => True
                end).
Proof.
  unfold yt_is_live_noapi, http_get. munfold. simpl.
  destruct (web s (YTLIVE_URL channel_id)) as [| |html]; simpl.
  1,2: split; [by left|by split].
  set (s1 := set_trace _ s). unfold no_marker.
  assert (Hpage :
    ((classify_page html s1).1 = None \/ (classify_page html s1).1 = Some "live"%string \/
     (classify_page html s1).1 = Some "upcoming"%string \/
     (classify_page html s1).1 = Some "offline"%string) /\
    ((classify_page html s1).1 = None <->
     negb (flag_live html) && negb (flag_offline html) && negb (flag_upcoming html) = true)).
  { destruct (classify_page_cases html s1) as [(Hf & _ & Hr)|(H1 & H2 & H3 & E)].
    - split; [by right|].
      destruct (flag_live html), (flag_offline html), (flag_upcoming html);
        simpl in *; try done;
        (split; [|done]); intros E; rewrite E in Hr; by destruct Hr as [?|[?|?]].
    - rewrite E, H1, H2, H3. simpl. split; [by left|by split]. }
  destruct (search CANONICAL_RE html) as [href|]; simpl.
  2:{ destruct Hpage as [Hr Hn]. split; [done|]. by rewrite Hn. }
  destruct (contains "/watch" href); simpl.
  { pose proof (follow_watch_result href s1) as Hr. split; [by right|].
    split; [|done]. intros E. rewrite E in Hr. by destruct Hr as [?|[?|?]]. }
  destruct (contains "/channel/" href); simpl.
  { split; [by do 3 right|by split]. }
  destruct Hpage as [Hr Hn]. split; [done|]. by rewrite Hn.
Qed.

Lemma classifier_effects_core channel_id s :
  let r := (yt_is_live_noapi channel_id s).1 in
  let s' := (yt_is_live_noapi channel_id s).2 in
  s' = set_debug_live_html (debug_live_html s') (set_trace (trace s') s) /\
  exists evs, trace s' = trace s ++ EvHttpGet (YTLIVE_URL channel_id) :: evs /\
    ((evs = [] /\ debug_live_html s' = debug_live_html s) \/
     (exists href, evs = [EvHttpGet href] /\ contains "/watch" href = true /\
                   r <> None /\ debug_live_html s' = debug_live_html s) \/
     (exists html, evs = [EvWriteFile "debug_live.html"] /\ r = None /\
                   web s (YTLIVE_URL channel_id) = Body html /\
                   debug_live_html s' = Some html)).
Proof.
  unfold yt_is_live_noapi, http_get. munfold. simpl.
  destruct (web s (YTLIVE_URL channel_id)) as [| |html] eqn:Hweb; simpl.
  1,2: split; [by destruct s|]; exists []; split; [done|by left].
  set (s1 := set_trace _ s).
  assert (Hpage :
    let r := (classify_page html s1).1 in
    let s' := (classify_page html s1).2 in
    s' = set_debug_live_html (debug_live_html s') (set_trace (trace s') s) /\
    exists evs, trace s' = trace s ++ EvHttpGet (YTLIVE_URL channel_id) :: evs /\
      ((evs = [] /\ debug_live_html s' = debug_live_html s) \/
       (exists href, evs = [EvHttpGet href] /\ contains "/watch" href = true /\
                     r <> None /\ debug_live_html s' = debug_live_html s) \/
       (exists html0, evs = [EvWriteFile "debug_live.html"] /\ r = None /\
                     Body html = Body html0 /\ debug_live_html s' = Some html0))).
  { destruct (classify_page_cases html s1) as [(Hf & -> & Hr)|(H1 & H2 & H3 & ->)].
    - simpl. split; [by destruct s|]. exists []. split; [done|by left].
    - simpl. split; [by destruct s|]. exists [EvWriteFile "debug_live.html"].
      split; [by rewrite <- app_assoc|]. right. right. by exists html. }
  destruct (search CANONICAL_RE html) as [href|]; simpl; [|exact Hpage].
  destruct (contains "/watch" href) eqn:Hw; simpl.
  { rewrite follow_watch_state. simpl. split; [by destruct s|].
    exists [EvHttpGet href]. split; [by rewrite <- app_assoc|].
    right. left. exists href. repeat split; try done.
    intros E. pose proof (follow_watch_result href s1) as Hr. rewrite E in Hr.
    by destruct Hr as [?|[?|?]]. }
  destruct (contains "/channel/" href); simpl; [|exact Hpage].
  split; [by destruct s|]. exists []. split; [done|by left].
Qed.

(** X20: [yt_is_live_noapi] only logs and, at most, writes the dump.  It
    fetches the live page, then at most the page of a canonical watch link;
    it dumps the page exactly when it fetched it and answers [None]; and it
    changes nothing else. *)
Theorem classifier_effects channel_id s :
  let r := (yt_is_live_noapi channel_id s).1 in
  let s' := (yt_is_live_noapi channel_id s).2 in
  s' = set_debug_live_html (debug_live_html s') (set_trace (trace s') s) /\
  exists evs, trace s' = trace s ++ EvHttpGet (YTLIVE_URL channel_id) :: evs /\
    ((evs = [] /\ debug_live_html s' = debug_live_html s) \/
     (exists href, evs = [EvHttpGet href] /\ contains "/watch" href = true /\
                   r <> None /\ debug_live_html s' = debug_live_html s) \/
     (exists html, evs = [EvWriteFile "debug_live.html"] /\ r = None /\
                   web s (YTLIVE_URL channel_id) = Body html /\
                   debug_live_html s' = Some html)).
Proof. apply classifier_effects_core. Qed.

(** ** A change of the live state *)

Lemma text_id_skeleton chs1 chs2 i :
  skeleton chs1 = skeleton chs2 -> text_id chs1 i = text_id chs2 i.
Proof.
  unfold text_id, lookup_channel.
  revert chs2. induction chs1 as [|c l IH]; intros [|c2 l2] H; simpl in *; try done.
  injection H as Hid Hk Hl.
  rewrite Hid. destruct (Z.eqb (ch_id c2) i); simpl.
  - unfold is_text. by rewrite Hk.
  - by apply IH.
Qed.

Lemma rename_then_deny c name s :
  let m := (o ← edit_name c name;
            match o with
            | ApiOk => deny_connect_permissions c
            | _ => mret tt
            end) in
  skeleton (channels (m s).2) = skeleton (channels s) /\
  exists evs, trace (m s).2 = trace s ++ EvEdit (ch_id c) name :: evs /\
              (evs = [] \/ evs = [EvSetPermissions (ch_id c)]).
Proof.
  intros m. split.
  - apply (keeps_bind (fun s => skeleton (channels s)));
      [apply keeps_skeleton_edit_name|].
    intros []; try apply keeps_ret. apply keeps_skeleton_deny.
  - subst m. rewrite bind_unfold.
    pose proof (emits_edit_name c name s) as H1. unfold emits in H1.
    destruct (edit_name c name s) as [o s1]. cbn [fst snd] in *.
    destruct o; try (exists []; split; [done|by left]).
    unfold deny_connect_permissions. destruct (_ || _).
    + exists [EvSetPermissions (ch_id c)]. split; [|by right].
      munfold. simpl. rewrite H1, <- app_assoc.
      by destruct (api_tape s1) as [|[] tape].
    + exists []. split; [done|by left].
Qed.

Lemma notify_part cfg title s :
  let m := (if Z.eqb (LIVE_ALERT_CHANNEL_ID cfg) 0 then mret tt
            else
              notif ← get_channel (LIVE_ALERT_CHANNEL_ID cfg);
              match notif with
              | Some n =>
                  if is_text n then
                    s' ← get_st;
                    _ ← send n (Some "@everyone"%string)
                          (live_embed cfg (_channel_meta s') title) None;
                    mret tt
                  else mret tt
              | None => mret tt
              end) : M unit in
  _last_live_state (m s).2 = _last_live_state s /\
  exists evs, trace (m s).2 = trace s ++ evs /\ edits_of evs = [] /\
    sends_of evs = if Z.eqb (LIVE_ALERT_CHANNEL_ID cfg) 0 then []
                   else if text_id (channels s) (LIVE_ALERT_CHANNEL_ID cfg)
                        then [LIVE_ALERT_CHANNEL_ID cfg] else [].
Proof.
  intros m. subst m. unfold text_id.
  destruct (Z.eqb (LIVE_ALERT_CHANNEL_ID cfg) 0).
  { split; [done|]. exists []. by rewrite app_nil_r. }
  unfold send. munfold. simpl.
  destruct (lookup_channel _ _) as [n|] eqn:Hl; simpl.
  2:{ split; [done|]. exists []. by rewrite app_nil_r. }
  destruct (is_text n); simpl.
  2:{ split; [done|]. exists []. by rewrite app_nil_r. }
  apply lookup_channel_id in Hl. rewrite Hl.
  destruct (api_tape s) as [|o tape]; simpl; (split; [done|]); by eexists.
Qed.

Lemma apply_live_state_same cfg c st s :
  _last_live_state s = Some st -> apply_live_state cfg c (Some st) s = (tt, s).
Proof.
  intros H. unfold apply_live_state. munfold. simpl.
  by rewrite bool_decide_true.
Qed.

Lemma apply_live_state_changed cfg c st s :
  _last_live_state s <> Some st ->
  let s' := run (apply_live_state cfg c (Some st)) s in
  _last_live_state s' = Some st /\
  exists evs, trace s' = trace s ++ evs /\
    edits_of evs = (if String.eqb (ch_name c) (live_texts st).1 then []
                    else [(ch_id c, (live_texts st).1)]) /\
    sends_of evs = if Z.eqb (LIVE_ALERT_CHANNEL_ID cfg) 0 then []
                   else if text_id (channels s) (LIVE_ALERT_CHANNEL_ID cfg)
                        then [LIVE_ALERT_CHANNEL_ID cfg] else [].
Proof.
  intros Hne s'. subst s'.
  remember (run (apply_live_state cfg c (Some st)) s) as s' eqn:E.
  unfold apply_live_state in E.
  rewrite run_bind in E. change (get_st s) with (s, s) in E. cbn [fst snd] in E.
  rewrite bool_decide_false in E by done.
  rewrite run_bind in E. unfold modify at 1 in E. cbn [fst snd] in E.
  destruct (live_texts st) as [target title]. cbn [fst].
  rewrite run_bind in E.
  set (s0 := set_last_live_state (Some st) s) in E.
  match type of E with context [run _ (?m s0).2] => set (m1 := m) in E end.
  assert (H1 : _last_live_state (m1 s0).2 = Some st /\
               skeleton (channels (m1 s0).2) = skeleton (channels s) /\
               exists evs, trace (m1 s0).2 = trace s ++ evs /\
                 edits_of evs = (if String.eqb (ch_name c) target then []
                                 else [(ch_id c, target)]) /\
                 sends_of evs = []).
  { subst m1. destruct (String.eqb (ch_name c) target); simpl.
    - repeat split; try done. exists []. by rewrite app_nil_r.
    - destruct (rename_then_deny c target s0) as (Hsk & evs & Ht & Hevs).
      assert (He : edits_of evs = [] /\ sends_of evs = [])
        by (by destruct Hevs as [-> | ->]).
      destruct He as [He Hs]. split.
      + etrans; [|reflexivity].
        apply (keeps_bind _last_live_state); [by apply keeps_edit_name|].
        intros []; try apply keeps_ret. by apply keeps_deny_connect_permissions.
      + split; [exact Hsk|]. exists (EvEdit (ch_id c) target :: evs).
        split; [exact Ht|]. simpl. by rewrite He, Hs. }
  destruct H1 as (Hlast & Hsk & evs1 & Ht1 & He1 & Hs1).
  destruct (notify_part cfg title (m1 s0).2) as (Hlast2 & evs2 & Ht2 & He2 & Hs2).
  unfold run in E. subst s'. split; [by rewrite Hlast2|].
  exists (evs1 ++ evs2). rewrite Ht2, Ht1, app_assoc, edits_of_app, sends_of_app.
  rewrite He1, He2, Hs1, Hs2, app_nil_r, (text_id_skeleton _ _ _ Hsk). done.
Qed.

(** X21: a resolved state that is the one answered last changes nothing
    beyond the fetch.  A new state is stored, the live surface is renamed
    unless it bears the name already, and one notification goes to the alert
    channel when one is configured and is a text channel; the state is stored
    whatever becomes of the rename and of the notification. *)
Theorem live_state_change_is_broadcast cfg channel_id live_id c st s :
  YOUTUBE_CHANNEL_ID cfg = Some channel_id -> channel_id <> ""%string ->
  guild_known s = true -> VC_LIVE_ID (vc s) = Some live_id ->
  lookup_channel live_id (channels s) = Some c -> is_voice c = true ->
  (yt_is_live_noapi channel_id s).1 = Some st ->
  let s1 := run (yt_is_live_noapi channel_id) s in
  let s' := run (live_status_loop_noapi cfg) s in
  (_last_live_state s = Some st -> s' = s1) /\
  (_last_live_state s <> Some st ->
   _last_live_state s' = Some st /\
   exists evs, trace s' = trace s1 ++ evs /\
     edits_of evs = (if String.eqb (ch_name c) (live_texts st).1 then []
                     else [(live_id, (live_texts st).1)]) /\
     sends_of evs = if Z.eqb (LIVE_ALERT_CHANNEL_ID cfg) 0 then []
                    else if text_id (channels s) (LIVE_ALERT_CHANNEL_ID cfg)
                         then [LIVE_ALERT_CHANNEL_ID cfg] else []).
Proof.
  intros Hcfg Hne Hg Hid Hl Hv Hst s1 s'. subst s1 s'.
  apply String.eqb_neq in Hne.
  assert (E : run (live_status_loop_noapi cfg) s
              = run (apply_live_state cfg c (Some st)) (run (yt_is_live_noapi channel_id) s)).
  { unfold live_status_loop_noapi. rewrite Hcfg, Hne.
    rewrite run_bind. change (get_st s) with (s, s). cbn [fst snd].
    rewrite Hg. cbn [negb]. rewrite Hid.
    rewrite run_bind.
    change (get_channel live_id s) with (lookup_channel live_id (channels s), s).
    cbn [fst snd]. rewrite Hl, Hv. rewrite run_bind. by rewrite Hst. }
  rewrite E.
  destruct (classifier_effects_core channel_id s) as [Hframe _]. cbv zeta in Hframe.
  assert (Hlast : _last_live_state (run (yt_is_live_noapi channel_id) s)
                  = _last_live_state s) by (unfold run; by rewrite Hframe).
  assert (Hchs : channels (run (yt_is_live_noapi channel_id) s) = channels s)
    by (unfold run; by rewrite Hframe).
  split.
  - intros Hsame. unfold run at 1. rewrite apply_live_state_same; [done|].
    by rewrite Hlast.
  - intros Hdiff. rewrite <- Hchs, <- (lookup_channel_id _ _ _ Hl).
    apply apply_live_state_changed. by rewrite Hlast.
Qed.

Lemma live_state_change_is_broadcast_witness :
  let s := live_state page_canonical_watch in
  let s' := run (live_status_loop_noapi demo_cfg) s in
  _last_live_state s' = Some "live"%string /\
  exists evs, trace s' = trace (run (yt_is_live_noapi "UCdemo") s) ++ evs /\
    edits_of evs = [(6, "🟢 LIVE"%string)] /\ sends_of evs = [7].
Proof.
  apply (live_state_change_is_broadcast demo_cfg "UCdemo" 6 (demo_voice 6 "🔴 OFFLINE") "live"
           (live_state page_canonical_watch)); try reflexivity; discriminate.
Defined.

(** X22: [live_status_loop_noapi] does nothing, not even a fetch, when no
    channel is configured, the guild is unknown, or the live id is unset or
    names no voice channel. *)
Theorem live_loop_needs_voice_channel cfg s :
  YOUTUBE_CHANNEL_ID cfg = None \/ YOUTUBE_CHANNEL_ID cfg = Some ""%string \/
  guild_known s = false \/
  (forall live_id c, VC_LIVE_ID (vc s) = Some live_id ->
     lookup_channel live_id (channels s) = Some c -> is_voice c = false) ->
  live_status_loop_noapi cfg s = (tt, s).
Proof.
  intros H. unfold live_status_loop_noapi.
  destruct (YOUTUBE_CHANNEL_ID cfg) as [cid|] eqn:Hcid; [|done].
  destruct (String.eqb_spec cid "") as [|Hne]; [done|].
  destruct H as [H|[H|[H|H]]]; [done|congruence| |].
  - munfold. simpl. by rewrite H.
  - munfold. simpl. destruct (guild_known s); [|done]. simpl.
    destruct (VC_LIVE_ID (vc s)) as [live_id|]; [|done]. simpl.
    destruct (lookup_channel live_id (channels s)) as [c|] eqn:Hl; [|done].
    simpl. by rewrite (H live_id c eq_refl Hl).
Qed.

Lemma live_loop_needs_voice_channel_witness :
  live_status_loop_noapi demo_cfg (set_channels [] (live_state page_canonical_watch))
    = (tt, set_channels [] (live_state page_canonical_watch)).
Proof.
  apply live_loop_needs_voice_channel. right. right. right.
  intros live_id c _ H. discriminate H.
Defined.

#[local] Arguments lookup_channel : simpl never.

(** ** What [ensure_stats_voice_channels] adds to the log *)

Lemma adds_ret {A} (a : A) : adds 0 (mret a).
Proof. intros s. exists []. simpl. by rewrite app_nil_r. Qed.

Lemma adds_mono {A} n n' (m : M A) : (n <= n')%nat -> adds n m -> adds n' m.
Proof.
  intros Hle H s. destruct (H s) as (evs & ? & ? & ? & ? & ? & ?).
  exists evs. repeat split; try done. lia.
Qed.

Lemma adds_bind {A B} n1 n2 (m : M A) (k : A -> M B) :
  adds n1 m -> (forall a, adds n2 (k a)) -> adds (n1 + n2) (m ≫= k).
Proof.
  intros Hm Hk s. rewrite bind_unfold.
  destruct (Hm s) as (e1 & T1 & A1 & B1 & C1 & D1 & L1).
  destruct (Hk (m s).1 (m s).2) as (e2 & T2 & A2 & B2 & C2 & D2 & L2).
  exists (e1 ++ e2).
  rewrite T2, T1, app_assoc, edits_of_app, sends_of_app, fetches_of_app,
    writes_of_app, creates_of_app, length_app, A1, A2, B1, B2, C1, C2, D1, D2.
  repeat split; try done. lia.
Qed.

Lemma adds_keeps {A} (m : M A) : keeps trace m -> adds 0 m.
Proof. intros H s. exists []. rewrite H. simpl. by rewrite app_nil_r. Qed.

Lemma adds_fold_m {A B} (f : B -> A -> M B) xs acc :
  (forall acc x, adds 1 (f acc x)) -> adds (length xs) (fold_m f xs acc).
Proof.
  intros H. revert acc. induction xs as [|x xs IH]; intros acc; simpl;
    [apply adds_ret|].
  apply (adds_bind 1 (length xs)); [apply H|]. intros acc'. apply IH.
Qed.

Lemma adds_next_outcome : adds 0 next_outcome.
Proof. apply adds_keeps. by apply keeps_next_outcome. Qed.

Lemma adds_deny c : adds 0 (deny_connect_permissions c).
Proof.
  unfold deny_connect_permissions. destruct (_ || _); [|apply adds_ret].
  apply (adds_bind 0 0); [intros s; by exists [EvSetPermissions (ch_id c)]|].
  intros _. apply (adds_bind 0 0); [apply adds_next_outcome|].
  intros []; try apply adds_ret. apply adds_keeps. by apply keeps_update_channel.
Qed.

Lemma adds_create_category name : adds 0 (create_category name).
Proof.
  unfold create_category.
  apply (adds_bind 0 0); [intros s; by exists [EvCreateCategory name]|].
  intros _. apply (adds_bind 0 0); [apply adds_next_outcome|].
  intros []; try apply adds_ret. apply adds_keeps.
  apply keeps_bind; [by apply keeps_create_channel|]. intros; apply keeps_ret.
Qed.

Lemma adds_create_voice_channel name cat : adds 1 (create_voice_channel name cat).
Proof.
  unfold create_voice_channel.
  apply (adds_bind 1 0).
  { intros s. exists [EvCreateVoice name (ch_id <$> cat)]. repeat split; simpl; done. }
  intros _. apply (adds_bind 0 0); [apply adds_next_outcome|].
  intros []; try apply adds_ret. apply adds_keeps.
  apply keeps_bind; [by apply keeps_create_channel|]. intros; apply keeps_ret.
Qed.

Lemma adds_resolve_category cfg : adds 0 (resolve_category cfg).
Proof.
  unfold resolve_category. destruct (String.eqb _ _); [apply adds_ret|].
  apply (adds_bind 0 0); [apply adds_keeps, keeps_get_st|]. intros s.
  destruct (List.find _ _); [apply adds_ret|apply adds_create_category].
Qed.

Lemma adds_fold_m_0 {A B} (f : B -> A -> M B) xs acc :
  (forall acc x, adds 0 (f acc x)) -> adds 0 (fold_m f xs acc).
Proof.
  intros H. revert acc. induction xs as [|x xs IH]; intros acc; simpl;
    [apply adds_ret|].
  apply (adds_bind 0 0); [apply H|]. intros acc'. apply IH.
Qed.

Lemma adds_resolve_by_id ids : adds 0 (resolve_by_id ids).
Proof.
  unfold resolve_by_id. apply adds_fold_m_0. intros acc [key d].
  apply (adds_bind 0 0); [apply adds_keeps; by apply keeps_by_id|].
  intros [c|]; [|apply adds_ret].
  apply (adds_bind 0 0); [apply adds_deny|]. intros; apply adds_ret.
Qed.

Lemma adds_discover_or_create cat resolved :
  adds 6 (discover_or_create cat resolved).
Proof.
  unfold discover_or_create. apply (adds_fold_m _ READ_ONLY_DEFAULTS).
  intros acc [key d]. destruct (acc !! key); [apply (adds_mono 0); [lia|apply adds_ret]|].
  apply (adds_bind 0 1); [apply adds_keeps; by apply keeps_find_existing|].
  intros [c|].
  - apply (adds_mono 0); [lia|].
    apply (adds_bind 0 0); [apply adds_deny|]. intros; apply adds_ret.
  - apply (adds_bind 1 0); [apply adds_create_voice_channel|].
    intros [c|]; [|apply adds_ret].
    apply (adds_bind 0 0); [apply adds_deny|]. intros; apply adds_ret.
Qed.

Lemma ensure_split cfg s :
  let p := (category ← resolve_category cfg;
            s ← get_st;
            resolved1 ← resolve_by_id (vc s);
            discover_or_create category resolved1) in
  run (ensure_stats_voice_channels cfg) s = run (store_ids cfg (p s).1) (p s).2.
Proof.
  intros p. subst p. unfold run, ensure_stats_voice_channels.
  rewrite !bind_unfold. done.
Qed.

Lemma ensure_log cfg s :
  exists evs,
    trace (run (ensure_stats_voice_channels cfg) s)
      = trace s ++ evs ++ [EvWriteFile (CHANNEL_ID_STORE cfg)] /\
    edits_of evs = [] /\ sends_of evs = [] /\ fetches_of evs = [] /\
    writes_of evs = [] /\ (length (creates_of evs) <= 6)%nat.
Proof.
  rewrite ensure_split.
  match goal with |- context [run _ (?m s).2] => set (p := m) end.
  assert (H : adds 6 p).
  { apply (adds_bind 0 6); [apply adds_resolve_category|]. intros cat.
    apply (adds_bind 0 6); [apply adds_keeps, keeps_get_st|]. intros s0.
    apply (adds_bind 0 6); [apply adds_resolve_by_id|]. intros r1.
    apply adds_discover_or_create. }
  destruct (H s) as (evs & Ht & Hrest). exists evs. split; [|done].
  change (trace (run (store_ids cfg (p s).1) (p s).2))
    with (trace (p s).2 ++ [EvWriteFile (CHANNEL_ID_STORE cfg)]).
  by rewrite Ht, <- app_assoc.
Qed.

(** X23: [ensure_stats_voice_channels] renames no channel, sends no message
    and fetches nothing; it creates at most six voice channels and writes
    one file, the id store, as its last act. *)
Theorem ensure_only_creates_and_saves cfg s :
  exists evs,
    trace (run (ensure_stats_voice_channels cfg) s)
      = trace s ++ evs ++ [EvWriteFile (CHANNEL_ID_STORE cfg)] /\
    edits_of evs = [] /\ sends_of evs = [] /\ fetches_of evs = [] /\
    writes_of evs = [] /\ (length (creates_of evs) <= 6)%nat.
Proof. apply ensure_log. Qed.

(** ** The members surface *)

Lemma keeps_rename_then_deny {B} (proj : St -> B) c name :
  (forall v s, proj (set_trace v s) = proj s) ->
  (forall v s, proj (set_api_tape v s) = proj s) ->
  (forall v s, proj (set_channels v s) = proj s) ->
  keeps proj (o ← edit_name c name;
              match o with
              | ApiOk => deny_connect_permissions c
              | _ => mret tt
              end).
Proof.
  intros H1 H2 H3. apply keeps_bind; [by apply keeps_edit_name|].
  intros []; try apply keeps_ret. by apply keeps_deny_connect_permissions.
Qed.

Lemma refresh_members_cases s :
  ((VC_MEMBERS_ID (vc s) = None \/ _last_members s = Some (member_count s)) /\
   refresh_members_channel s = (tt, s)) \/
  (exists i, VC_MEMBERS_ID (vc s) = Some i /\
     _last_members s <> Some (member_count s) /\
     let s' := run refresh_members_channel s in
     _last_members s' = Some (member_count s) /\
     member_count s' = member_count s /\ vc s' = vc s /\
     _last_stats s' = _last_stats s /\ _ready_once s' = _ready_once s /\
     exists evs, trace s' = trace s ++ evs /\
       edits_of evs = match lookup_channel i (channels s) with
                      | Some c => if is_voice c
                                  then [(i, "👥 Members: " +:+ fmt_num (member_count s))]
                                  else []
                      | None => []
                      end /\
       sends_of evs = [] /\ fetches_of evs = [] /\ creates_of evs = []).
Proof.
  destruct (VC_MEMBERS_ID (vc s)) as [i|] eqn:Hid.
  2:{ left. split; [by left|]. unfold refresh_members_channel. munfold. simpl.
      by rewrite Hid. }
  destruct (decide (_last_members s = Some (member_count s))) as [Hsame|Hdiff].
  { left. split; [by right|]. unfold refresh_members_channel. munfold. simpl.
    by rewrite Hid, bool_decide_true. }
  right. exists i. split; [done|]. split; [done|]. intros s'. subst s'.
  remember (run refresh_members_channel s) as s' eqn:E.
  unfold refresh_members_channel in E.
  rewrite run_bind in E. change (get_st s) with (s, s) in E. cbn [fst snd] in E.
  rewrite Hid, bool_decide_false in E by done.
  rewrite run_bind in E. unfold modify at 1 in E. cbn [fst snd] in E.
  set (s0 := set_last_members (Some (member_count s)) s) in E.
  rewrite run_bind in E.
  change (get_channel i s0) with (lookup_channel i (channels s), s0) in E.
  cbn [fst snd] in E.
  destruct (lookup_channel i (channels s)) as [c|] eqn:Hl.
  2:{ subst s'. repeat split; try done. exists []. by rewrite app_nil_r. }
  destruct (is_voice c).
  2:{ subst s'. repeat split; try done. exists []. by rewrite app_nil_r. }
  set (name := ("👥 Members: " +:+ fmt_num (member_count s))%string) in *.
  destruct (rename_then_deny c name s0) as (_ & evs & Ht & Hevs).
  unfold run in E. subst s'.
  rewrite !(keeps_rename_then_deny _ c name) by done.
  repeat split; try done.
  exists (EvEdit (ch_id c) name :: evs). split; [exact Ht|].
  apply lookup_channel_id in Hl. subst i.
  by destruct Hevs as [-> | ->].
Qed.

(** X24: [refresh_members_channel] acts on a change of the member count
    only.  With no members id, or with the count it stored last, it changes
    nothing; otherwise it stores the count and renames the members surface
    once, when the id names a voice channel, whatever becomes of the rename. *)
Theorem members_change_detector s :
  let s' := run refresh_members_channel s in
  (VC_MEMBERS_ID (vc s) = None \/ _last_members s = Some (member_count s) -> s' = s) /\
  (forall i, VC_MEMBERS_ID (vc s) = Some i ->
     _last_members s <> Some (member_count s) ->
     _last_members s' = Some (member_count s) /\
     exists evs, trace s' = trace s ++ evs /\
       edits_of evs = match lookup_channel i (channels s) with
                      | Some c => if is_voice c
                                  then [(i, "👥 Members: " +:+ fmt_num (member_count s))]
                                  else []
                      | None => []
                      end /\
       sends_of evs = []).
Proof.
  intros s'. subst s'.
  destruct (refresh_members_cases s)
    as [[Hc E]|(i & Hid & Hne & Hlast & _ & _ & _ & _ & evs & Ht & He & Hs & _)].
  - split.
    + intros _. unfold run. by rewrite E.
    + intros i Hid Hne. destruct Hc as [Hc|Hc]; congruence.
  - split.
    + intros [Hc|Hc]; congruence.
    + intros i' Hid' _. rewrite Hid in Hid'. injection Hid' as <-.
      split; [done|]. by exists evs.
Qed.

Lemma refresh_members_twice s :
  run refresh_members_channel (run refresh_members_channel s)
    = run refresh_members_channel s.
Proof.
  destruct (refresh_members_cases s)
    as [[Hc E]|(i & Hid & Hne & Hlast & Hcount & Hvc & _)].
  - unfold run. rewrite E. simpl. by rewrite E.
  - destruct (refresh_members_cases (run refresh_members_channel s))
      as [[_ E]|(_ & _ & Hne' & _)].
    + unfold run at 1. by rewrite E.
    + destruct Hne'. by rewrite Hcount.
Qed.

(** X25: a member event of another guild changes nothing, and so does a
    second event that finds the member count of the first: a join and a
    leave both end in [refresh_members_channel], which records the count it
    displayed. *)
Theorem member_events_refresh_once cfg guild_id s :
  (guild_id <> GUILD_ID cfg ->
   on_member_join cfg guild_id s = (tt, s) /\ on_member_remove cfg guild_id s = (tt, s)) /\
  run (on_member_remove cfg guild_id) (run (on_member_join cfg guild_id) s)
    = run (on_member_join cfg guild_id) s.
Proof.
  unfold on_member_join, on_member_remove. split.
  - intros Hne. apply Z.eqb_neq in Hne. by rewrite Hne.
  - destruct (Z.eqb guild_id (GUILD_ID cfg)); [apply refresh_members_twice|done].
Qed.

(** ** The statistics task without data *)

Section KeepsEnsure.
Context {B : Type} (proj : St -> B).
Hypothesis proj_trace : forall v s, proj (set_trace v s) = proj s.
Hypothesis proj_tape : forall v s, proj (set_api_tape v s) = proj s.
Hypothesis proj_channels : forall v s, proj (set_channels v s) = proj s.
Hypothesis proj_next_id : forall v s, proj (set_next_channel_id v s) = proj s.
Hypothesis proj_vc : forall v s, proj (set_vc v s) = proj s.
Hypothesis proj_id_cache : forall v s, proj (set_id_cache v s) = proj s.
Hypothesis proj_id_store : forall v s, proj (set_id_store_file v s) = proj s.

Lemma keeps_store_ids cfg resolved : keeps proj (store_ids cfg resolved).
Proof.
  unfold store_ids, save_ids. apply keeps_bind; [apply keeps_get_st|]. intros s.
  apply keeps_bind; [by apply keeps_modify|]. intros _.
  apply keeps_bind; [by apply keeps_modify|]. intros _.
  apply keeps_bind; [by apply keeps_emit|]. intros _. by apply keeps_modify.
Qed.

Lemma keeps_ensure cfg : keeps proj (ensure_stats_voice_channels cfg).
Proof.
  unfold ensure_stats_voice_channels.
  apply keeps_bind; [by apply keeps_resolve_category|]. intros cat.
  apply keeps_bind; [apply keeps_get_st|]. intros s.
  apply keeps_bind; [by apply keeps_resolve_by_id|]. intros r1.
  apply keeps_bind; [by apply keeps_discover_or_create|]. intros r.
  apply keeps_store_ids.
Qed.
End KeepsEnsure.

(** X26: [stats_loop] without statistics (the read failed, or the key or
    the channel is not configured) renames no channel and sends no message,
    and leaves the statistics and the member count it stored last; the
    members surface is not refreshed either. *)
Theorem stats_loop_without_data cfg stats meta s :
  stats = None \/ is_set (YOUTUBE_API_KEY cfg) && is_set (YOUTUBE_CHANNEL_ID cfg) = false ->
  let s' := run (stats_loop cfg stats meta) s in
  _last_stats s' = _last_stats s /\ _last_members s' = _last_members s /\
  exists evs, trace s' = trace s ++ evs /\ edits_of evs = [] /\ sends_of evs = [].
Proof.
  intros Hno s'. subst s'.
  remember (run (stats_loop cfg stats meta) s) as s' eqn:E.
  unfold stats_loop in E.
  rewrite run_bind in E. change (get_st s) with (s, s) in E. cbn [fst snd] in E.
  destruct (guild_known s); cbn [negb] in E.
  2:{ subst s'. repeat split; try done. exists []. by rewrite app_nil_r. }
  rewrite run_bind in E.
  match type of E with context [run _ (?m s).2] => set (m1 := m) in E end.
  assert (H1 : _last_stats (m1 s).2 = _last_stats s /\
               _last_members (m1 s).2 = _last_members s /\
               exists evs, trace (m1 s).2 = trace s ++ evs /\
                           edits_of evs = [] /\ sends_of evs = []).
  { subst m1. destruct (any_id_missing (vc s)).
    - split; [by apply (keeps_ensure _last_stats)|].
      split; [by apply (keeps_ensure _last_members)|].
      destruct (ensure_log cfg s) as (evs & Ht & He & Hs & _).
      exists (evs ++ [EvWriteFile (CHANNEL_ID_STORE cfg)]).
      split; [exact Ht|]. by rewrite edits_of_app, sends_of_app, He, Hs.
    - repeat split; try done. exists []. by rewrite app_nil_r. }
  destruct H1 as (Hs1 & Hm1 & evs & Ht & He & Hs).
  assert (E' : _last_stats s' = _last_stats (m1 s).2 /\
               _last_members s' = _last_members (m1 s).2 /\
               trace s' = trace (m1 s).2).
  { subst s'. destruct (is_set (YOUTUBE_API_KEY cfg) && is_set (YOUTUBE_CHANNEL_ID cfg));
      cbn [negb]; [|done].
    destruct Hno as [->|Hno]; [|done].
    rewrite run_bind. cbn [mret M_ret fst snd]. by destruct meta. }
  destruct E' as (-> & -> & ->). split; [done|]. split; [done|]. by exists evs.
Qed.

Lemma stats_loop_without_data_witness :
  let s' := run (stats_loop demo_cfg None None) empty_state in
  _last_stats s' = None /\ _last_members s' = None /\
  exists evs, trace s' = trace empty_state ++ evs /\ edits_of evs = [] /\ sends_of evs = [].
Proof.
  apply (stats_loop_without_data demo_cfg None None empty_state). by left.
Defined.

(** ** [on_ready] *)

Section KeepsReady.
Context {B : Type} (proj : St -> B).
Hypothesis proj_trace : forall v s, proj (set_trace v s) = proj s.
Hypothesis proj_tape : forall v s, proj (set_api_tape v s) = proj s.
Hypothesis proj_channels : forall v s, proj (set_channels v s) = proj s.
Hypothesis proj_last_members : forall v s, proj (set_last_members v s) = proj s.
Hypothesis proj_cache_file : forall v s, proj (set_rss_cache_file v s) = proj s.
Hypothesis proj_rng : forall v s, proj (set_rng v s) = proj s.
Hypothesis proj_queue : forall v s, proj (set_reminder_queue v s) = proj s.

Lemma keeps_refresh_members_channel : keeps proj refresh_members_channel.
Proof.
  unfold refresh_members_channel. apply keeps_bind; [apply keeps_get_st|]. intros s.
  destruct (VC_MEMBERS_ID (vc s)) as [i|]; [|apply keeps_ret].
  destruct (bool_decide _); [apply keeps_ret|].
  apply keeps_bind; [by apply keeps_modify|]. intros _.
  apply keeps_bind; [by apply keeps_get_channel|]. intros [c|]; [|apply keeps_ret].
  destruct (is_voice c); [|apply keeps_ret]. by apply keeps_rename_then_deny.
Qed.

Lemma keeps_http_get url : keeps proj (http_get url).
Proof.
  unfold http_get. apply keeps_bind; [by apply keeps_emit|]. intros _.
  apply keeps_bind; [apply keeps_get_st|]. intros; apply keeps_ret.
Qed.

Lemma keeps_merge_and_requeue cfg entries : keeps proj (merge_and_requeue cfg entries).
Proof.
  unfold merge_and_requeue. apply keeps_bind; [apply keeps_get_st|]. intros s0.
  destruct (accumulate_from_rss _ entries) as [[c n]|]; [|apply keeps_ret].
  apply keeps_bind.
  - destruct (n =? 0); [apply keeps_ret|]. unfold save_rss_cache.
    apply keeps_bind; [by apply keeps_emit|]. intros _. by apply keeps_modify.
  - intros _. by apply requeue_keeps.
Qed.
End KeepsReady.

Lemma on_ready_sets_flag cfg lib s : _ready_once (run (on_ready cfg lib) s) = true.
Proof.
  unfold on_ready. rewrite run_bind. change (get_st s) with (s, s). cbn [fst snd].
  destruct (_ready_once s) eqn:Hflag; [done|].
  rewrite run_bind. unfold modify at 1. cbn [fst snd].
  set (s0 := set_ready_once true s).
  assert (K : forall m : M unit, keeps _ready_once m -> _ready_once (run m s0) = true).
  { intros m Hm. unfold run. by rewrite Hm. }
  apply K. apply keeps_bind.
  - destruct (guild_known s); [|apply keeps_ret].
    apply keeps_bind; [by apply keeps_ensure|]. intros _.
    by apply keeps_refresh_members_channel.
  - intros _. destruct (YOUTUBE_CHANNEL_ID cfg) as [cid|]; [|apply keeps_ret].
    destruct (String.eqb cid ""); [apply keeps_ret|].
    apply keeps_bind; [by apply keeps_http_get|]. intros [| |text]; try apply keeps_ret.
    destruct (ET_fromstring lib text) as [root|]; [|apply keeps_ret].
    apply keeps_bind; [by apply keeps_merge_and_requeue|]. intros; apply keeps_ret.
Qed.

(** X27: [on_ready] runs its setup once: whatever the first call meets, it
    leaves the flag set, and a later call changes nothing. *)
Theorem on_ready_runs_once cfg lib s :
  _ready_once (run (on_ready cfg lib) s) = true /\
  on_ready cfg lib (run (on_ready cfg lib) s) = (tt, run (on_ready cfg lib) s).
Proof.
  pose proof (on_ready_sets_flag cfg lib s) as H. split; [done|].
  unfold on_ready at 1. rewrite bind_unfold.
  change (get_st (run (on_ready cfg lib) s))
    with (run (on_ready cfg lib) s, run (on_ready cfg lib) s).
  cbn [fst snd]. by rewrite H.
Qed.

Lemma initial_load_run cfg lib s :
  run (match YOUTUBE_CHANNEL_ID cfg with
       | None => mret tt
       | Some channel_id =>
           if String.eqb channel_id "" then mret tt
           else
             r ← http_get (channel_rss_url channel_id);
             match r with
             | Body text =>
                 match ET_fromstring lib text with
                 | Some root =>
                     _ ← merge_and_requeue cfg (parse_rss_entries root); mret tt
                 | None => mret tt
                 end
             | _ => mret tt
             end
       end) s
  = run (rss_refresh_loop cfg lib) s.
Proof.
  unfold rss_refresh_loop. destruct (YOUTUBE_CHANNEL_ID cfg) as [cid|]; [|done].
  destruct (String.eqb cid ""); [done|].
  rewrite !run_bind. destruct ((http_get (channel_rss_url cid) s).1); try done.
  destruct (ET_fromstring lib text); [|done]. by rewrite run_bind.
Qed.

(** X28: the first [on_ready] sets the flag, resolves the channels and
    refreshes the members surface when the guild is known, and then loads
    the feed with the effect of one cycle of [rss_refresh_loop]. *)
Theorem initial_load_is_a_refresh_cycle cfg lib s :
  _ready_once s = false ->
  run (on_ready cfg lib) s
  = run (rss_refresh_loop cfg lib)
      (run (if guild_known s
            then ensure_stats_voice_channels cfg;; refresh_members_channel
            else mret tt)
           (set_ready_once true s)).
Proof.
  intros Hflag. unfold on_ready.
  rewrite run_bind. change (get_st s) with (s, s). cbn [fst snd]. rewrite Hflag.
  rewrite run_bind. unfold modify at 1. cbn [fst snd].
  rewrite run_bind. apply initial_load_run.
Qed.

Lemma initial_load_is_a_refresh_cycle_witness :
  run (on_ready demo_cfg feed_lib) feed_state
  = run (rss_refresh_loop demo_cfg feed_lib)
      (run (ensure_stats_voice_channels demo_cfg;; refresh_members_channel)
           (set_ready_once true feed_state)).
Proof.
  apply (initial_load_is_a_refresh_cycle demo_cfg feed_lib feed_state). reflexivity.
Defined.

#[local] Arguments lookup_channel : simpl never.

(** ** The guild after a broadcast *)

Lemma lookup_update_channel z z' f chs :
  (forall c, ch_id (f c) = ch_id c) ->
  lookup_channel z' (map (fun c => if Z.eqb (ch_id c) z then f c else c) chs)
  = (if Z.eqb z' z then f else id) <$> lookup_channel z' chs.
Proof.
  intros Hf. unfold lookup_channel. induction chs as [|c chs IH]; simpl; [done|].
  destruct (Z.eqb_spec (ch_id c) z) as [E|E].
  - rewrite Hf. destruct (Z.eqb_spec (ch_id c) z') as [E'|E']; [|exact IH].
    simpl. destruct (Z.eqb_spec z' z); [done|congruence].
  - destruct (Z.eqb_spec (ch_id c) z') as [E'|E']; [|exact IH].
    simpl. destruct (Z.eqb_spec z' z); [congruence|done].
Qed.

Lemma edit_surface_unresolved u s :
  voice_id (channels s) u.1 = None -> edit_surface u s = (tt, s).
Proof.
  destruct u as [[i|] name]; simpl; [|done].
  destruct (Z.eqb i 0); [done|]. munfold. simpl.
  destruct (lookup_channel i (channels s)) as [c|]; [|done].
  by destruct (is_voice c).
Qed.

Lemma edit_surface_shown u z s :
  api_tape s = [] -> voice_id (channels s) u.1 = Some z ->
  let s' := run (edit_surface u) s in
  api_tape s' = [] /\ skeleton (channels s') = skeleton (channels s) /\
  (exists c, lookup_channel z (channels s') = Some c /\ shown u.2 c) /\
  (forall z', z' <> z -> lookup_channel z' (channels s') = lookup_channel z' (channels s)).
Proof.
  intros Htape Hz s'. subst s'.
  split; [|split; [apply keeps_skeleton_edit_surface|]].
  - destruct u as [[i|] name]; simpl in *; [|done].
    destruct (Z.eqb i 0); [done|]. unfold run, edit_name, deny_connect_permissions.
    munfold. simpl.
    destruct (lookup_channel i (channels s)) as [c|]; [|done].
    destruct (is_voice c); [|done]. simpl. rewrite Htape. simpl.
    destruct (_ || _); simpl; [|done]. rewrite Htape. simpl. munfold. simpl. done.
  - pose proof Hz as Hz0.
    apply voice_id_lookup in Hz as (Hi & c & Hl & Hv & Hid).
    destruct u as [i name]. simpl in Hi. subst i. simpl in Hz0.
    unfold run, edit_surface, edit_name, deny_connect_permissions.
    destruct (Z.eqb_spec z 0) as [E|E]; [done|].
    munfold. munfold. simpl. rewrite Hl, Hv. simpl. rewrite Htape. simpl. rewrite Hid.
    destruct (negb (bool_decide (ow_view_channel c = Some true))
              || negb (bool_decide (ow_connect c = Some false))) eqn:Hch; simpl.
    + rewrite Htape. simpl. split.
      * rewrite !lookup_update_channel by done. rewrite Hl, Z.eqb_refl. simpl.
        by eexists.
      * intros z' Hne. apply Z.eqb_neq in Hne.
        rewrite !lookup_update_channel by done. rewrite Hne.
        by destruct (lookup_channel z' (channels s)).
    + apply orb_false_elim in Hch as [H1 H2].
      apply negb_false_iff, bool_decide_eq_true in H1, H2. split.
      * rewrite lookup_update_channel by done. rewrite Hl, Z.eqb_refl. simpl.
        by eexists.
      * intros z' Hne. apply Z.eqb_neq in Hne.
        rewrite lookup_update_channel by done. rewrite Hne.
        by destruct (lookup_channel z' (channels s)).
Qed.

Lemma surfaces_skeleton chs1 chs2 us :
  skeleton chs1 = skeleton chs2 -> surfaces chs1 us = surfaces chs2 us.
Proof.
  intros H. unfold surfaces. apply list_omap_ext. apply Forall2_same_length_lookup_2; [done|].
  intros k u u' Hu Hu'. rewrite Hu in Hu'. injection Hu' as <-.
  by apply voice_id_skeleton.
Qed.

Lemma for_each_shown us s :
  api_tape s = [] -> NoDup (surfaces (channels s) us) ->
  let s' := run (for_each us edit_surface) s in
  api_tape s' = [] /\ skeleton (channels s') = skeleton (channels s) /\
  (forall u z, u ∈ us -> voice_id (channels s) u.1 = Some z ->
     exists c, lookup_channel z (channels s') = Some c /\ shown u.2 c) /\
  (forall z, z ∉ surfaces (channels s) us ->
     lookup_channel z (channels s') = lookup_channel z (channels s)).
Proof.
  revert s. induction us as [|u us IH]; intros s Htape Hnd s'; subst s'.
  { repeat split; try done. intros u z Hu. by apply elem_of_nil in Hu. }
  simpl for_each. rewrite run_bind.
  change ((edit_surface u s).2) with (run (edit_surface u) s).
  destruct (voice_id (channels s) u.1) as [z|] eqn:Hz.
  - assert (Hs : surfaces (channels s) (u :: us) = z :: surfaces (channels s) us)
      by (unfold surfaces; simpl; by rewrite Hz).
    rewrite Hs in *. apply NoDup_cons in Hnd as [Hnot Hnd].
    destruct (edit_surface_shown u z s Htape Hz) as (Ht1 & Hsk1 & (c & Hc & Hshown) & Hoth).
    set (s1 := run (edit_surface u) s) in *.
    rewrite <- (surfaces_skeleton _ _ us Hsk1) in Hnd, Hnot.
    destruct (IH s1 Ht1 Hnd) as (Ht2 & Hsk2 & Hall & Hrest).
    split; [done|]. split; [congruence|]. split.
    + intros u' z' Hu' Hz'. apply elem_of_cons in Hu' as [->|Hu'].
      * rewrite Hz in Hz'. injection Hz' as <-. exists c.
        split; [|done]. by rewrite (Hrest z Hnot).
      * apply (Hall u' z' Hu'). by rewrite (voice_id_skeleton _ _ _ Hsk1).
    + intros z' Hz'. apply not_elem_of_cons in Hz' as [Hne Hz'].
      rewrite <- (surfaces_skeleton _ _ us Hsk1) in Hz'.
      rewrite (Hrest z' Hz'). by apply Hoth.
  - assert (Hs : surfaces (channels s) (u :: us) = surfaces (channels s) us)
      by (unfold surfaces; simpl; by rewrite Hz).
    rewrite Hs in *. unfold run at 2 4 6 8. rewrite (edit_surface_unresolved u s Hz).
    cbn [snd]. destruct (IH s Htape Hnd) as (Ht2 & Hsk2 & Hall & Hrest).
    repeat split; try done.
    intros u' z' Hu' Hz'. apply elem_of_cons in Hu' as [->|Hu'].
    + congruence.
    + by apply (Hall u' z').
Qed.

(** X29: with every call of the chat API succeeding, a broadcast of new
    statistics leaves each of the four statistics surfaces that resolve to
    distinct voice channels with its formatted name, visible and not
    joinable, and leaves every other channel as it was. *)
Theorem broadcast_shows_statistics cfg stats s :
  api_tape s = [] -> _last_stats s <> Some stats ->
  NoDup (surfaces (channels s) (stats_updates cfg (vc s) stats)) ->
  let s' := run (update_stats_channels cfg stats) s in
  (forall u z, u ∈ stats_updates cfg (vc s) stats ->
     voice_id (channels s) u.1 = Some z ->
     exists c, lookup_channel z (channels s') = Some c /\ shown u.2 c) /\
  (forall z, z ∉ surfaces (channels s) (stats_updates cfg (vc s) stats) ->
     lookup_channel z (channels s') = lookup_channel z (channels s)).
Proof.
  intros Htape Hne Hnd s'. subst s'. unfold update_stats_channels.
  rewrite run_bind. change (get_st s) with (s, s). cbn [fst snd].
  rewrite bool_decide_false by congruence.
  rewrite run_bind. unfold modify at 1. cbn [fst snd].
  destruct (for_each_shown (stats_updates cfg (vc s) stats)
              (set_last_stats (Some stats) s) Htape Hnd) as (_ & _ & H1 & H2).
  split; [exact H1|exact H2].
Qed.

Lemma broadcast_shows_statistics_witness :
  let s' := run (update_stats_channels demo_cfg (150, 200, 5)) demo_state in
  (forall u z, u ∈ stats_updates demo_cfg (vc demo_state) (150, 200, 5) ->
     voice_id (channels demo_state) u.1 = Some z ->
     exists c, lookup_channel z (channels s') = Some c /\ shown u.2 c) /\
  (forall z, z ∉ surfaces (channels demo_state)
                   (stats_updates demo_cfg (vc demo_state) (150, 200, 5)) ->
     lookup_channel z (channels s') = lookup_channel z (channels demo_state)).
Proof.
  apply (broadcast_shows_statistics demo_cfg (150, 200, 5) demo_state).
  - reflexivity.
  - discriminate.
  - apply (bool_decide_unpack _). vm_compute. exact I.
Defined.

(** X30: [deny_connect_permissions] calls the chat API only for a channel
    that is not yet visible and not joinable, and then once.  When the call
    succeeds the channel of that id is visible and not joinable, under the
    name it had; when it is refused no channel changes. *)
Theorem deny_connect_makes_read_only c s :
  let s' := run (deny_connect_permissions c) s in
  (ow_view_channel c = Some true -> ow_connect c = Some false -> s' = s) /\
  (ow_view_channel c <> Some true \/ ow_connect c <> Some false ->
   trace s' = trace s ++ [EvSetPermissions (ch_id c)] /\
   ((next_outcome s).1 = ApiOk ->
    forall c0, lookup_channel (ch_id c) (channels s) = Some c0 ->
      exists c1, lookup_channel (ch_id c) (channels s') = Some c1 /\
                 shown (ch_name c0) c1 /\ ch_kind c1 = ch_kind c0) /\
   ((next_outcome s).1 <> ApiOk -> channels s' = channels s)).
Proof.
  intros s'. subst s'. unfold run, deny_connect_permissions. split.
  - intros -> ->. by rewrite !bool_decide_true.
  - intros Hch.
    assert (E : negb (bool_decide (ow_view_channel c = Some true))
                || negb (bool_decide (ow_connect c = Some false)) = true).
    { destruct Hch as [H|H]; rewrite (bool_decide_false _ H); simpl; [done|].
      apply orb_true_r. }
    rewrite E. munfold. unfold next_outcome. simpl.
    destruct (api_tape s) as [|o tape]; simpl.
    + split; [done|]. split; [|done]. intros _ c0 Hc0.
      rewrite lookup_update_channel by done. rewrite Hc0, Z.eqb_refl. simpl.
      by eexists.
    + destruct o; simpl; (split; [done|]); split; try done.
      intros _ c0 Hc0.
      rewrite lookup_update_channel by done. rewrite Hc0, Z.eqb_refl. simpl.
      by eexists.
Qed.
